(** * DeepPredict (ARIMA version): risk scoring and HPI forecasting

    A shallow embedding of [Server/risk_analysis.py],
    [Server/ts_forecast.py] and [Server/sentiment_roberta.py], and the
    properties of their specification.

    Conventions of the embedding.

    - A Python [float] is a [pyfloat]: a rational, one of the two
      infinities, or NaN.  An operation whose exact result is too large
      for binary64 gives an infinity, as IEEE 754 has it, and the special
      values follow IEEE 754 as Python and NumPy do; below that the
      result is exact: the rounding error of binary64, its underflow and
      the sign of zero are abstracted.
    - A dynamically typed argument is a [pyval].
    - A call that can raise returns a [result]; the two module globals of
      [ts_forecast.py] are threaded as an explicit [state].  Of [print]
      only this is modelled: writing text that is not ASCII raises when
      the standard output cannot encode it.
    - Strings are ASCII.
    - Pandas is the one the code was written for: it accepts the frequency
      alias 'Q', [pct_change] fills missing values forward, a timestamp
      has nanosecond resolution, and [date_range] takes a negative number
      of periods for none. *)

From Stdlib Require Import ZArith QArith Qabs Qround Lqa Lia Bool List String
  Ascii Sorting.Sorted.
Import ListNotations.

(* ================================================================== *)
(** * Python values, exceptions and floats *)
(* ================================================================== *)

Module Py.

Local Open Scope Q_scope.

Inductive exn : Set :=
| TypeError | ValueError | AttributeError | OverflowError
| IndexError | KeyError | RuntimeError | FileNotFoundError
| ZeroDivisionError
| OutOfBoundsDatetime | UnicodeEncodeError
| LibraryError (tag : string).

Inductive result (A : Type) : Type :=
| Ok (a : A)
| Raise (e : exn).
Arguments Ok {A} a.
Arguments Raise {A} e.

Definition bind {A B} (c : result A) (k : A -> result B) : result B :=
  match c with
  | Ok a => k a
  | Raise e => Raise e
  end.

(** [try: body / except Exception: handler]. *)
Definition try_except {A} (body : result A) (handler : exn -> result A)
  : result A :=
  match body with
  | Ok a => Ok a
  | Raise e => handler e
  end.

Definition returns {A} (c : result A) : Prop := exists a, c = Ok a.
Definition raises {A} (c : result A) : Prop := exists e, c = Raise e.

(** ** Floats *)

Inductive pyfloat : Set :=
| Fin (q : Q)
| Inf (neg : bool)
| NaN.

Definition Qltb (x y : Q) : bool := negb (Qle_bool y x).
Definition Qis0 (x : Q) : bool := Qeq_bool x 0.

(** The least magnitude that binary64 rounds to an infinity: halfway from
    its largest value, [2^1024 - 2^971], to [2^1024]. *)
Definition overflow_threshold : Q :=
  Eval vm_compute in inject_Z (2 ^ 1024 - 2 ^ 970).

Definition overflows (q : Q) : bool := Qle_bool overflow_threshold (Qabs q).

(** The float of an operation whose exact result is [q]. *)
Definition fin (q : Q) : pyfloat :=
  if overflows q then Inf (Qltb q 0) else Fin q.

Definition fneg (x : pyfloat) : pyfloat :=
  match x with
  | Fin q => Fin (- q)
  | Inf b => Inf (negb b)
  | NaN => NaN
  end.

Definition fadd (x y : pyfloat) : pyfloat :=
  match x, y with
  | NaN, _ | _, NaN => NaN
  | Fin a, Fin b => fin (a + b)
  | Fin _, Inf b => Inf b
  | Inf a, Fin _ => Inf a
  | Inf a, Inf b => if Bool.eqb a b then Inf a else NaN
  end.

Definition fsub (x y : pyfloat) : pyfloat := fadd x (fneg y).

Definition fmul (x y : pyfloat) : pyfloat :=
  match x, y with
  | NaN, _ | _, NaN => NaN
  | Fin a, Fin b => fin (a * b)
  | Fin a, Inf b => if Qis0 a then NaN else Inf (xorb (Qltb a 0) b)
  | Inf a, Fin b => if Qis0 b then NaN else Inf (xorb a (Qltb b 0))
  | Inf a, Inf b => Inf (xorb a b)
  end.

(** IEEE division, as NumPy performs it: a zero divisor gives an infinity
    or NaN, never an exception. *)
Definition fdiv (x y : pyfloat) : pyfloat :=
  match x, y with
  | NaN, _ | _, NaN => NaN
  | Fin a, Fin b =>
      if Qis0 b then (if Qis0 a then NaN else Inf (Qltb a 0))
      else fin (a / b)
  | Fin _, Inf _ => Fin 0
  | Inf a, Fin b => Inf (xorb a (Qltb b 0))
  | Inf _, Inf _ => NaN
  end.

(** Comparisons: every comparison with NaN is false, except [!=]. *)
Definition flt (x y : pyfloat) : bool :=
  match x, y with
  | NaN, _ | _, NaN => false
  | Fin a, Fin b => Qltb a b
  | Fin _, Inf neg => negb neg
  | Inf neg, Fin _ => neg
  | Inf a, Inf b => a && negb b
  end.

Definition fle (x y : pyfloat) : bool :=
  match x, y with
  | NaN, _ | _, NaN => false
  | Fin a, Fin b => Qle_bool a b
  | Fin _, Inf neg => negb neg
  | Inf neg, Fin _ => neg
  | Inf a, Inf b => a || negb b
  end.

Definition fgt (x y : pyfloat) : bool := flt y x.
Definition fge (x y : pyfloat) : bool := fle y x.

Definition feqb (x y : pyfloat) : bool :=
  match x, y with
  | Fin a, Fin b => Qeq_bool a b
  | Inf a, Inf b => Bool.eqb a b
  | _, _ => false
  end.

Definition fne (x y : pyfloat) : bool := negb (feqb x y).

(** Python's [x / y] on floats raises on a zero divisor. *)
Definition truediv (x y : pyfloat) : result pyfloat :=
  if feqb y (Fin 0) then Raise ZeroDivisionError else Ok (fdiv x y).

(** The same float, up to the representation of the rational. *)
Definition same (x y : pyfloat) : Prop :=
  match x, y with
  | Fin a, Fin b => a == b
  | Inf a, Inf b => a = b
  | NaN, NaN => True
  | _, _ => False
  end.

Definition is_finite (x : pyfloat) : bool :=
  match x with Fin _ => true | _ => false end.

(** [round(x, ndigits)]: to the nearest multiple of [10^-ndigits], ties to
    even; the infinities and NaN are returned as they are. *)
Definition round_half_even (q : Q) : Z :=
  let n := Qfloor q in
  match Qcompare (q - inject_Z n) (1 # 2) with
  | Lt => n
  | Gt => (n + 1)%Z
  | Eq => if Z.even n then n else (n + 1)%Z
  end.

Definition round (x : pyfloat) (ndigits : nat) : pyfloat :=
  match x with
  | Fin q =>
      let s := inject_Z (10 ^ Z.of_nat ndigits) in
      Fin (inject_Z (round_half_even (q * s)) / s)
  | _ => x
  end.

(** ** Characters and strings *)

Definition code (c : ascii) : nat := nat_of_ascii c.

Definition is_digit (c : ascii) : bool :=
  (48 <=? code c)%nat && (code c <=? 57)%nat.

Definition digit_val (c : ascii) : Z := Z.of_nat (code c - 48)%nat.

(** The ASCII characters [str.strip()] and [float()] treat as blanks. *)
Definition is_space (c : ascii) : bool :=
  let n := code c in
  ((9 <=? n) && (n <=? 13) || (28 <=? n) && (n <=? 32))%nat.

Definition lower_char (c : ascii) : ascii :=
  let n := code c in
  if ((65 <=? n) && (n <=? 90))%nat then ascii_of_nat (n + 32) else c.

Fixpoint drop_spaces (s : list ascii) : list ascii :=
  match s with
  | c :: s' => if is_space c then drop_spaces s' else s
  | [] => []
  end.

Definition strip_chars (s : list ascii) : list ascii :=
  rev (drop_spaces (rev (drop_spaces s))).

Definition chars (s : string) : list ascii := list_ascii_of_string s.

(** [s.strip()] *)
Definition strip (s : string) : string :=
  string_of_list_ascii (strip_chars (chars s)).

(** [s.lower()] *)
Definition lower (s : string) : string :=
  string_of_list_ascii (map lower_char (chars s)).

(** ** [float(str)]

    The grammar of the language reference:
    [[sign] (floatnumber | "inf" | "infinity" | "nan")] between optional
    blanks, where digits may be grouped by single underscores.  A number
    too large for binary64 reads as an infinity. *)

Inductive parsed : Set :=
| PFinite (q : Q)
| PSpecial (x : pyfloat)
| PInvalid.

(** The rest of a digit part, after its first digit: value so far, number
    of digits so far, input. *)
Fixpoint digits_tail (acc : Z) (n : nat) (s : list ascii)
  : Z * nat * list ascii :=
  match s with
  | c :: s' =>
      if is_digit c then digits_tail (10 * acc + digit_val c)%Z (S n) s'
      else if Ascii.eqb c "_" then
        match s' with
        | c2 :: s'' =>
            if is_digit c2
            then digits_tail (10 * acc + digit_val c2)%Z (S n) s''
            else (acc, n, s)
        | [] => (acc, n, s)
        end
      else (acc, n, s)
  | [] => (acc, n, [])
  end.

Definition digitpart (s : list ascii) : option (Z * nat * list ascii) :=
  match s with
  | c :: s' => if is_digit c then Some (digits_tail (digit_val c) 1%nat s') else None
  | [] => None
  end.

Definition read_sign (s : list ascii) : bool * list ascii :=
  match s with
  | c :: s' =>
      if Ascii.eqb c "-" then (true, s')
      else if Ascii.eqb c "+" then (false, s')
      else (false, s)
  | [] => (false, [])
  end.

(** [number]: the integer digits and the fraction digits read as one
    integer, with the number of fraction digits. *)
Definition read_number (s : list ascii) : option (Z * nat * list ascii) :=
  match digitpart s with
  | Some (i, _, r) =>
      match r with
      | c :: r' =>
          if Ascii.eqb c "." then
            match digitpart r' with
            | Some (f, k, r'') => Some ((i * 10 ^ Z.of_nat k + f)%Z, k, r'')
            | None => Some (i, O, r')
            end
          else Some (i, O, r)
      | [] => Some (i, O, [])
      end
  | None =>
      match s with
      | c :: r' =>
          if Ascii.eqb c "." then
            match digitpart r' with
            | Some (f, k, r'') => Some (f, k, r'')
            | None => None
            end
          else None
      | [] => None
      end
  end.

Definition read_exponent (s : list ascii) : option (Z * list ascii) :=
  match s with
  | c :: s' =>
      if Ascii.eqb (lower_char c) "e" then
        let '(neg, r) := read_sign s' in
        match digitpart r with
        | Some (e, _, r') => Some (if neg then (- e)%Z else e, r')
        | None => None
        end
      else Some (0%Z, s)
  | [] => Some (0%Z, [])
  end.

Definition pow10 (e : Z) : Q :=
  if (0 <=? e)%Z then inject_Z (10 ^ e)%Z else / inject_Z (10 ^ (- e))%Z.

Definition float_of_chars (s : list ascii) : parsed :=
  let '(neg, r) := read_sign (strip_chars s) in
  let word := string_of_list_ascii (map lower_char r) in
  if String.eqb word "inf" || String.eqb word "infinity" then PSpecial (Inf neg)
  else if String.eqb word "nan" then PSpecial NaN
  else
    match read_number r with
    | Some (m, k, r') =>
        match read_exponent r' with
        | Some (e, []) =>
            let v := inject_Z m * pow10 (e - Z.of_nat k) in
            if overflows v then PSpecial (Inf neg)
            else PFinite (if neg then - v else v)
        | _ => PInvalid
        end
    | None => PInvalid
    end.

Definition float_of_str (s : string) : parsed := float_of_chars (chars s).

(** ** Dynamically typed values *)

Inductive pyval : Set :=
| VNone
| VBool (b : bool)
| VInt (z : Z)
| VFloat (f : pyfloat)
| VStr (s : string).

(** Truth value, as [or], [and] and [if] test it. *)
Definition truthy (v : pyval) : bool :=
  match v with
  | VNone => false
  | VBool b => b
  | VInt z => negb (z =? 0)%Z
  | VFloat f => fne f (Fin 0)
  | VStr s => negb (String.eqb s EmptyString)
  end.

(** [x or d] *)
Definition or_else (x d : pyval) : pyval := if truthy x then x else d.

(** An [int] converts to a float unless its magnitude rounds beyond the
    largest binary64 value. *)
Definition float_of_int (z : Z) : result pyfloat :=
  if (Z.abs z <? 2 ^ 1024 - 2 ^ 970)%Z then Ok (Fin (inject_Z z))
  else Raise OverflowError.

(** [float(v)] *)
Definition float (v : pyval) : result pyfloat :=
  match v with
  | VNone => Raise TypeError
  | VBool b => Ok (Fin (if b then 1 else 0))
  | VInt z => float_of_int z
  | VFloat f => Ok f
  | VStr s =>
      match float_of_str s with
      | PFinite q => Ok (Fin q)
      | PSpecial x => Ok x
      | PInvalid => Raise ValueError
      end
  end.

(** [v * c] for a float [c]. *)
Definition mul_float (v : pyval) (c : pyfloat) : result pyfloat :=
  match v with
  | VFloat f => Ok (fmul f c)
  | VInt z => bind (float_of_int z) (fun f => Ok (fmul f c))
  | VBool b => Ok (fmul (Fin (if b then 1 else 0)) c)
  | VNone | VStr _ => Raise TypeError
  end.

(** [v < n] for an int literal [n]: ints compare exactly, a float compares
    as a float, anything else is a [TypeError]. *)
Definition lt_int (v : pyval) (n : Z) : result bool :=
  match v with
  | VFloat f => Ok (flt f (Fin (inject_Z n)))
  | VInt z => Ok (z <? n)%Z
  | VBool b => Ok ((if b then 1 else 0) <? n)%Z
  | VNone | VStr _ => Raise TypeError
  end.

End Py.

Import Py.

Notation "x <- c ;; k" := (Py.bind c (fun x => k))
  (at level 61, c at next level, right associativity).

(* ================================================================== *)
(** * NumPy *)
(* ================================================================== *)

Module Np.

(** [np.maximum] and [np.minimum] propagate NaN. *)
Definition maximum (x y : pyfloat) : pyfloat :=
  match x, y with
  | NaN, _ | _, NaN => NaN
  | _, _ => if flt x y then y else x
  end.

Definition minimum (x y : pyfloat) : pyfloat :=
  match x, y with
  | NaN, _ | _, NaN => NaN
  | _, _ => if flt y x then y else x
  end.

(** [np.clip(x, lo, hi)] *)
Definition clip (x lo hi : pyfloat) : pyfloat :=
  minimum (maximum x lo) hi.

End Np.

(* ================================================================== *)
(** * [risk_analysis.py] *)
(* ================================================================== *)

Module risk_analysis.

Local Open Scope Q_scope.
Local Open Scope string_scope.

(** The [debug] dictionary. *)
Record debug_info : Set := {
  market_risk_score : pyfloat;
  market_risk_level : Z;
  sentiment_label : pyval;
  sentiment_score : pyfloat;
  sentiment_numeric_risk : pyfloat;
  sentiment_risk_level : Z;
  price_risk_score : pyfloat;
  weights : pyfloat * pyfloat * pyfloat;   (* market, sentiment, price *)
  final_raw : pyfloat
}.

(** The dictionary [analyze_risk] returns. *)
Record risk_assessment : Set := {
  score : pyfloat;
  level : string;
  category : string;
  message : string;
  debug : debug_info
}.

Definition W_MARKET : pyfloat := Fin 0.70.
Definition W_SENTIMENT : pyfloat := Fin 0.20.
Definition W_PRICE : pyfloat := Fin 0.10.

(** [(sentiment_label or "Neutral").strip().lower()]: only a [str] has
    [strip]. *)
Definition normalize_label (sentiment_label : pyval) : result string :=
  match or_else sentiment_label (VStr "Neutral") with
  | VStr s => Ok (lower (strip s))
  | _ => Raise AttributeError
  end.

Definition analyze_risk
    (current_price growth_rate volatility : pyval)
    (sentiment_label sentiment_score location_factor : pyval)
  : result risk_assessment :=
  (* 1) market component *)
  g <- float growth_rate ;;
  let gr_pct := fmul g (Fin 100) in
  v <- float volatility ;;
  let vol_pct := fmul v (Fin 100) in
  let market_component := fsub (fmul vol_pct (Fin 1.5)) (fmul gr_pct (Fin 0.8)) in
  lf <- float location_factor ;;
  let adjusted_market := fmul market_component (fsub (Fin 1.2) lf) in
  let market_risk_score := Np.clip adjusted_market (Fin 0) (Fin 100) in
  let market_risk_level :=
    if flt market_risk_score (Fin 30) then 1%Z
    else if flt market_risk_score (Fin 60) then 2%Z
    else 3%Z in
  (* 2) sentiment component *)
  sent <- normalize_label sentiment_label ;;
  s_score <- float (or_else sentiment_score (VFloat (Fin 50))) ;;
  let sentiment_risk_level :=
    if String.eqb sent "positive" && fge s_score (Fin 60) then 1%Z
    else if String.eqb sent "negative" || flt s_score (Fin 40) then 3%Z
    else 2%Z in
  let sentiment_numeric_risk :=
    Np.clip (fsub (Fin 100) s_score) (Fin 0) (Fin 100) in
  (* 3) price component *)
  cp <- try_except (float (or_else current_price (VFloat (Fin 0))))
                   (fun _ => Ok (Fin 0)) ;;
  let price_risk_score :=
    Np.clip (fmul (fdiv cp (Fin 200)) (Fin 100)) (Fin 0) (Fin 100) in
  (* 4) weighted combination *)
  let final_numeric_raw :=
    fadd (fadd (fmul market_risk_score W_MARKET)
               (fmul sentiment_numeric_risk W_SENTIMENT))
         (fmul price_risk_score W_PRICE) in
  let final_numeric_score :=
    Np.clip (round final_numeric_raw 2) (Fin 0) (Fin 100) in
  let '(level, category, message) :=
    if flt final_numeric_score (Fin 30) then
      ("Low", "Stable Market",
       "Strong signals with low volatility. Good investment conditions.")
    else if flt final_numeric_score (Fin 60) then
      ("Moderate", "Caution Advised",
       "Some mixed signals. Consider cautious investment.")
    else
      ("High", "High Risk",
       "Negative sentiment or high volatility. Avoid large investments.") in
  Ok {| score := final_numeric_score;
        level := level;
        category := category;
        message := message;
        debug := {| market_risk_score := market_risk_score;
                    market_risk_level := market_risk_level;
                    sentiment_label := sentiment_label;
                    sentiment_score := s_score;
                    sentiment_numeric_risk := sentiment_numeric_risk;
                    sentiment_risk_level := sentiment_risk_level;
                    price_risk_score := price_risk_score;
                    weights := (W_MARKET, W_SENTIMENT, W_PRICE);
                    final_raw := final_numeric_raw |} |}.

(** A piece of an f-string: literal text or an interpolated value. *)
Inductive fpart : Set :=
| Lit (s : string)
| Fmt (v : pyval).

Record prescription : Set := {
  action : string;
  explanation : list fpart
}.

Definition get_prescription (risk_score growth_rate : pyval)
  : result prescription :=
  x <- mul_float growth_rate (Fin 100) ;;
  let roi_pct := round x 2 in
  let roi := Fmt (VFloat roi_pct) in
  c1 <- (lt30 <- lt_int risk_score 30 ;;
         Ok (lt30 && fgt roi_pct (Fin 3))) ;;
  if c1 : bool then
    Ok {| action := "Buy";
          explanation :=
            [Lit "Low risk and strong expected growth ("; roi; Lit "%)."] |}
  else
    c2 <- (lt60 <- lt_int risk_score 60 ;;
           Ok (lt60 && fgt roi_pct (Fin 0))) ;;
    if c2 : bool then
      Ok {| action := "Hold";
            explanation :=
              [Lit "Moderate risk with mild positive growth ("; roi;
               Lit "%)."] |}
    else if flt roi_pct (Fin 0) then
      Ok {| action := "Sell";
            explanation :=
              [Lit "Negative growth forecast ("; roi;
               Lit "%). High caution."] |}
    else
      Ok {| action := "Wait";
            explanation :=
              [Lit "No clear signal (risk "; Fmt risk_score;
               Lit ", expected "; roi; Lit "%)."] |}.

(** ** The parts of the result, as functions of the converted inputs

    These restate the [let]s of [analyze_risk] one by one;
    [analyze_risk_unfold] below shows that the function is their
    composition. *)

Definition num (q : Q) : pyval := VFloat (Fin q).

Definition market_risk (g v lf : pyfloat) : pyfloat :=
  Np.clip (fmul (fsub (fmul (fmul v (Fin 100)) (Fin 1.5))
                      (fmul (fmul g (Fin 100)) (Fin 0.8)))
                (fsub (Fin 1.2) lf))
          (Fin 0) (Fin 100).

Definition sentiment_risk (s_score : pyfloat) : pyfloat :=
  Np.clip (fsub (Fin 100) s_score) (Fin 0) (Fin 100).

Definition price_risk (cp : pyfloat) : pyfloat :=
  Np.clip (fmul (fdiv cp (Fin 200)) (Fin 100)) (Fin 0) (Fin 100).

Definition composite_raw (m s p : pyfloat) : pyfloat :=
  fadd (fadd (fmul m W_MARKET) (fmul s W_SENTIMENT)) (fmul p W_PRICE).

Definition composite (m s p : pyfloat) : pyfloat :=
  Np.clip (round (composite_raw m s p) 2) (Fin 0) (Fin 100).

Definition numeric_level (x : pyfloat) : Z :=
  if flt x (Fin 30) then 1%Z else if flt x (Fin 60) then 2%Z else 3%Z.

Definition sentiment_level (sent : string) (s_score : pyfloat) : Z :=
  if String.eqb sent "positive" && fge s_score (Fin 60) then 1%Z
  else if String.eqb sent "negative" || flt s_score (Fin 40) then 3%Z
  else 2%Z.

Definition tier (x : pyfloat) : string * string * string :=
  if flt x (Fin 30) then
    ("Low", "Stable Market",
     "Strong signals with low volatility. Good investment conditions.")
  else if flt x (Fin 60) then
    ("Moderate", "Caution Advised",
     "Some mixed signals. Consider cautious investment.")
  else
    ("High", "High Risk",
     "Negative sentiment or high volatility. Avoid large investments.").

(** The price after [float(current_price or 0.0)] under its [try]. *)
Definition price_of (current_price : pyval) : pyfloat :=
  match float (or_else current_price (VFloat (Fin 0))) with
  | Ok f => f
  | Raise _ => Fin 0
  end.

Definition assessment (g v lf : pyfloat) (sent : string)
    (s_score cp : pyfloat) (label : pyval) : risk_assessment :=
  let m := market_risk g v lf in
  let s := sentiment_risk s_score in
  let p := price_risk cp in
  let x := composite m s p in
  {| score := x;
     level := fst (fst (tier x));
     category := snd (fst (tier x));
     message := snd (tier x);
     debug := {| market_risk_score := m;
                 market_risk_level := numeric_level m;
                 sentiment_label := label;
                 sentiment_score := s_score;
                 sentiment_numeric_risk := s;
                 sentiment_risk_level := sentiment_level sent s_score;
                 price_risk_score := p;
                 weights := (W_MARKET, W_SENTIMENT, W_PRICE);
                 final_raw := composite_raw m s p |} |}.

End risk_analysis.

(* ================================================================== *)
(** * Pandas: timestamps, offsets and series *)
(* ================================================================== *)

Module Pd.

Local Open Scope Z_scope.

(** A timestamp: a calendar date and the nanoseconds since midnight. *)
Record timestamp : Set := {
  year : Z;
  month : Z;
  day : Z;
  time : Z
}.

Definition ts_compare (a b : timestamp) : comparison :=
  match year a ?= year b with
  | Eq =>
      match month a ?= month b with
      | Eq =>
          match day a ?= day b with
          | Eq => time a ?= time b
          | c => c
          end
      | c => c
      end
  | c => c
  end.

Definition ts_ltb (a b : timestamp) : bool :=
  match ts_compare a b with Lt => true | _ => false end.

Definition ts_leb (a b : timestamp) : bool :=
  match ts_compare a b with Gt => false | _ => true end.

Definition is_leap (y : Z) : bool :=
  ((y mod 4 =? 0) && negb (y mod 100 =? 0)) || (y mod 400 =? 0).

Definition days_in_month (y m : Z) : Z :=
  if m =? 2 then (if is_leap y then 29 else 28)
  else if (m =? 4) || (m =? 6) || (m =? 9) || (m =? 11) then 30
  else 31.

(** [Timestamp.min] and [Timestamp.max]: what 64 bits of nanoseconds
    around 1970 can hold. *)
Definition min_timestamp : timestamp :=
  {| year := 1677; month := 9; day := 21; time := 763145224193 |}.

Definition max_timestamp : timestamp :=
  {| year := 2262; month := 4; day := 11; time := 85636854775807 |}.

Definition in_bounds (t : timestamp) : bool :=
  ts_leb min_timestamp t && ts_leb t max_timestamp.

(** A date of the calendar with a time of the day. *)
Definition is_date (t : timestamp) : bool :=
  (1 <=? month t) && (month t <=? 12) &&
  (1 <=? day t) && (day t <=? days_in_month (year t) (month t)) &&
  (0 <=? time t) && (time t <? 86400000000000).

(** What a [Timestamp] can be. *)
Definition is_timestamp (t : timestamp) : bool := is_date t && in_bounds t.

(** A timestamp that was computed: beyond the bounds it cannot be built. *)
Definition checked (t : timestamp) : result timestamp :=
  if in_bounds t then Ok t else Raise OutOfBoundsDatetime.

(** The quarter of a timestamp, counted from year 0: what
    [to_period('Q')] keeps of it. *)
Definition quarter_of (t : timestamp) : Z := year t * 4 + (month t - 1) / 3.

(** [Period.to_timestamp('Q')]: midnight of the last day of the quarter. *)
Definition quarter_end (q : Z) : timestamp :=
  let m := 3 * (q mod 4) + 3 in
  {| year := q / 4; month := m; day := days_in_month (q / 4) m; time := 0 |}.

(** [index.to_period('Q').to_timestamp('Q')] on one timestamp, and on an
    index: it raises when a quarter ends beyond the bounds. *)
Definition to_quarter_end (t : timestamp) : timestamp :=
  quarter_end (quarter_of t).

Fixpoint to_quarter_ends (idx : list timestamp) : result (list timestamp) :=
  match idx with
  | [] => Ok []
  | t :: idx' =>
      q <- checked (to_quarter_end t) ;;
      qs <- to_quarter_ends idx' ;;
      Ok (q :: qs)
  end.

Definition month_index (t : timestamp) : Z := year t * 12 + (month t - 1).

Definition month_end (mi : Z) (tm : Z) : timestamp :=
  {| year := mi / 12; month := mi mod 12 + 1;
     day := days_in_month (mi / 12) (mi mod 12 + 1); time := tm |}.

Inductive freq : Set := QuarterEnd | MonthEnd.

(** Whether a timestamp lies on the offset: the last day of a month, and for
    [QuarterEnd] of a month that closes a quarter. *)
Definition on_offset (f : freq) (t : timestamp) : bool :=
  (day t =? days_in_month (year t) (month t)) &&
  match f with
  | QuarterEnd => (month t) mod 3 =? 0
  | MonthEnd => true
  end.

(** [t + QuarterEnd(n)] and [t + MonthEnd(n)], before the bounds are
    looked at: from a timestamp on the offset, [n] offsets on; from
    another one the first step forward only reaches the next timestamp on
    the offset, and a step of none rolls forward to it.  The time of the
    day stays. *)
Definition shift (f : freq) (n : Z) (t : timestamp) : timestamp :=
  let back := if on_offset f t then 0 else if 0 <? n then 1 else 0 in
  match f with
  | QuarterEnd =>
      let q := quarter_end (quarter_of t + n - back) in
      {| year := year q; month := month q; day := day q; time := time t |}
  | MonthEnd => month_end (month_index t + n - back) (time t)
  end.

(** [t + QuarterEnd(n)] and [t + MonthEnd(n)]. *)
Definition plus (f : freq) (n : Z) (t : timestamp) : result timestamp :=
  checked (shift f n t).

Fixpoint range_from (f : freq) (t : timestamp) (n : nat) : list timestamp :=
  match n with
  | O => []
  | S n' => t :: range_from f (shift f 1 t) n'
  end.

(** [pd.date_range(start=start, periods=periods, freq=f)]: the range
    starts at the first timestamp on the offset that is not before
    [start]; its end, [periods - 1] offsets on, is computed first, and
    raises beyond the bounds; no period or a negative number of them is an
    empty range. *)
Definition date_range (start : timestamp) (periods : Z) (f : freq)
  : result (list timestamp) :=
  first <- (if on_offset f start then Ok start else plus f 1 start) ;;
  _ <- plus f (periods - 1) first ;;
  Ok (range_from f first (Z.to_nat periods)).

(** A series: values with their index, in order. *)
Definition series (A : Type) : Type := list (timestamp * A).

(** [s.iloc[-1]] and [s.index[-1]] *)
Definition iloc_last {A} (s : series A) : result A :=
  match rev s with
  | (_, x) :: _ => Ok x
  | [] => Raise IndexError
  end.

Definition index_last {A} (s : series A) : result timestamp :=
  match rev s with
  | (t, _) :: _ => Ok t
  | [] => Raise IndexError
  end.

(** [s.index = idx]: the lengths must agree. *)
Definition set_index {A} (s : series A) (idx : list timestamp)
  : result (series A) :=
  if (List.length s =? List.length idx)%nat then Ok (combine idx (map snd s))
  else Raise ValueError.

(** [pd.Series(values)], before it is given an index: the default index is
    replaced before it is read, so any timestamp stands for it. *)
Definition unindexed {A} (values : list A) : series A :=
  map (fun x => (quarter_end 0, x)) values.

(** ** Statistics of a float series *)

(** Forward fill: a NaN takes the last value before it that is not. *)
Fixpoint ffill (prev : pyfloat) (xs : list pyfloat) : list pyfloat :=
  match xs with
  | [] => []
  | NaN :: xs' => prev :: ffill prev xs'
  | x :: xs' => x :: ffill x xs'
  end.

Fixpoint ratios (prev : pyfloat) (xs : list pyfloat) : list pyfloat :=
  match xs with
  | [] => []
  | x :: xs' => fsub (fdiv x prev) (Fin 1) :: ratios x xs'
  end.

(** [s.pct_change()]: NaNs are filled forward, the first change is NaN. *)
Definition pct_change (xs : list pyfloat) : list pyfloat :=
  match ffill NaN xs with
  | [] => []
  | x :: xs' => NaN :: ratios x xs'
  end.

Definition is_nan (x : pyfloat) : bool :=
  match x with NaN => true | _ => false end.

(** [s.dropna()] *)
Definition dropna (xs : list pyfloat) : list pyfloat :=
  filter (fun x => negb (is_nan x)) xs.

Definition fsum (xs : list pyfloat) : pyfloat := fold_left fadd xs (Fin 0).

Definition of_nat (n : nat) : pyfloat := Fin (inject_Z (Z.of_nat n)).

(** [s.std()] for a series without NaN: the sample standard deviation
    (one degree of freedom removed), NaN for fewer than two values.  The
    square root of a rational is taken by [sqrt]. *)
Definition fsqrt (sqrt : Q -> Q) (x : pyfloat) : pyfloat :=
  match x with
  | Fin q => if Qltb q 0 then NaN else Fin (sqrt q)
  | Inf false => Inf false
  | Inf true => NaN
  | NaN => NaN
  end.

Definition var (xs : list pyfloat) : pyfloat :=
  let n := List.length xs in
  if (n <=? 1)%nat then NaN
  else
    let avg := fdiv (fsum xs) (of_nat n) in
    let sqr := map (fun x => let d := fsub avg x in fmul d d) xs in
    fdiv (fsum sqr) (of_nat (n - 1)).

Definition std (sqrt : Q -> Q) (xs : list pyfloat) : pyfloat :=
  fsqrt sqrt (var xs).

(** ** Data frames *)

(** A column as [read_csv] types it: numeric, or of objects (strings, with
    [None] for a missing cell). *)
Inductive column : Set :=
| NumCol (xs : list pyfloat)
| ObjCol (xs : list (option string)).

Definition dataframe : Set := list (string * column).

Definition has_column (df : dataframe) (name : string) : bool :=
  existsb (fun c => String.eqb (fst c) name) df.

Definition get_column (df : dataframe) (name : string) : option column :=
  option_map snd (find (fun c => String.eqb (fst c) name) df).

Definition drop_column (df : dataframe) (name : string) : dataframe :=
  filter (fun c => negb (String.eqb (fst c) name)) df.

Definition is_numeric_dtype (c : column) : bool :=
  match c with NumCol _ => true | ObjCol _ => false end.

(** [col.astype(float)]: a missing cell is NaN, a string converts as
    [float] does or raises. *)
Fixpoint floats_of_cells (xs : list (option string)) : result (list pyfloat) :=
  match xs with
  | [] => Ok []
  | None :: xs' => ys <- floats_of_cells xs' ;; Ok (NaN :: ys)
  | Some s :: xs' =>
      y <- float (VStr s) ;;
      ys <- floats_of_cells xs' ;;
      Ok (y :: ys)
  end.

Definition astype_float (c : column) : result (list pyfloat) :=
  match c with
  | NumCol xs => Ok xs
  | ObjCol xs => floats_of_cells xs
  end.

(** [col.astype(str).str.strip()], given how a float prints. *)
Definition astype_str_strip (str_of_float : pyfloat -> string) (c : column)
  : list string :=
  match c with
  | NumCol xs => map (fun x => strip (str_of_float x)) xs
  | ObjCol xs =>
      map (fun o => match o with
                    | Some s => strip s
                    | None => "nan"%string
                    end) xs
  end.

(** The rows of a column at the given positions, in that order. *)
Definition take_rows (rows : list nat) (c : column) : column :=
  match c with
  | NumCol xs => NumCol (map (fun i => nth i xs NaN) rows)
  | ObjCol xs => ObjCol (map (fun i => nth i xs None) rows)
  end.

(** ** [to_datetime(format='%b-%y')] on one cell *)

Definition month_of_abbrev (s : string) : option Z :=
  let s := lower s in
  if String.eqb s "jan" then Some 1 else if String.eqb s "feb" then Some 2
  else if String.eqb s "mar" then Some 3 else if String.eqb s "apr" then Some 4
  else if String.eqb s "may" then Some 5 else if String.eqb s "jun" then Some 6
  else if String.eqb s "jul" then Some 7 else if String.eqb s "aug" then Some 8
  else if String.eqb s "sep" then Some 9 else if String.eqb s "oct" then Some 10
  else if String.eqb s "nov" then Some 11 else if String.eqb s "dec" then Some 12
  else None.

(** Abbreviated month, a dash, two digits of the year: 00 to 68 are in
    the 2000s, 69 to 99 in the 1900s.  The day is the first of the month. *)
Definition parse_b_y (s : string) : option timestamp :=
  match chars s with
  | [a; b; c; dash; d1; d2] =>
      if Ascii.eqb dash "-" && is_digit d1 && is_digit d2 then
        match month_of_abbrev (string_of_list_ascii [a; b; c]) with
        | Some m =>
            let y := 10 * digit_val d1 + digit_val d2 in
            Some {| year := if y <=? 68 then 2000 + y else 1900 + y;
                    month := m; day := 1; time := 0 |}
        | None => None
        end
      else None
  | _ => None
  end.

(** ** [sort_values] and [sort_index]

    Both sort with NumPy's quicksort, which is not stable: rows come out
    in the order of their timestamps, and which of the orders that is,
    when timestamps repeat, is the choice of [argsort].  An answer of
    [argsort] that is not a permutation putting the timestamps in order
    stands for the stable order. *)

Fixpoint insert_row {A} (r : timestamp * A) (rs : list (timestamp * A))
  : list (timestamp * A) :=
  match rs with
  | [] => [r]
  | r' :: rs' =>
      if ts_ltb (fst r) (fst r') then r :: rs else r' :: insert_row r rs'
  end.

Definition stable_sort {A} (rs : list (timestamp * A))
  : list (timestamp * A) :=
  fold_left (fun acc r => insert_row r acc) rs [].

(** The items at the positions [p], in that order. *)
Definition take {A} (l : list A) (p : list nat) : list A :=
  flat_map (fun i => match nth_error l i with
                     | Some x => [x]
                     | None => []
                     end) p.

Definition is_permutation (p : list nat) (n : nat) : bool :=
  (List.length p =? n)%nat &&
  forallb (fun i => existsb (Nat.eqb i) p) (seq 0 n).

Fixpoint sorted (ts : list timestamp) : bool :=
  match ts with
  | [] => true
  | a :: ts' =>
      match ts' with
      | [] => true
      | b :: _ => ts_leb a b && sorted ts'
      end
  end.

Definition sort_rows {A} (argsort : list timestamp -> list nat)
    (rs : list (timestamp * A)) : list (timestamp * A) :=
  let p := argsort (map fst rs) in
  if is_permutation p (List.length rs) && sorted (map fst (take rs p))
  then take rs p
  else stable_sort rs.

End Pd.

Import Pd.

(* ================================================================== *)
(** * [ts_forecast.py] *)
(* ================================================================== *)

Module ts_forecast.

Local Open Scope string_scope.

(** What the module takes from its surroundings: the file system, the
    parts of pandas and NumPy that are not modelled above, statsmodels (if
    it could be imported), the square root and the standard output.  A
    library call that raises is [None]. *)
Record world : Type := {
  base : string;                                  (* dirname(__file__) *)
  path_exists : string -> bool;                   (* os.path.exists *)
  read_csv : string -> option dataframe;          (* pd.read_csv *)
  to_datetime_any : string -> option timestamp;   (* to_datetime, no format *)
  argsort : list timestamp -> list nat;           (* NumPy's quicksort *)
  str_of_float : pyfloat -> string;               (* str of a float cell *)
  _HAS_ARIMA : bool;
  fitted : Type;                                  (* a fitted ARIMA model *)
  arima_fit : series pyfloat -> Z * Z * Z -> option fitted;
  get_forecast :
    fitted -> Z -> option (series pyfloat * series (pyfloat * pyfloat));
  sqrt : Q -> Q;
  stdout_encodes : bool          (* sys.stdout can encode any character *)
}.

(** [os.path.isabs] and [os.path.join] on POSIX paths. *)
Definition isabs (p : string) : bool :=
  match p with
  | String c _ => Ascii.eqb c "/"
  | EmptyString => false
  end.

Definition ends_with_sep (p : string) : bool :=
  match rev (chars p) with
  | c :: _ => Ascii.eqb c "/"
  | [] => false
  end.

Definition path_join (a b : string) : string :=
  if isabs b then b
  else if String.eqb a EmptyString || ends_with_sep a then a ++ b
  else a ++ "/" ++ b.

Definition forecast : Type :=
  (series pyfloat * option (series (pyfloat * pyfloat)))%type.

(** (growth_rate, volatility, risk_label, forecast_series) *)
Record summary : Type := {
  growth_rate : pyfloat;
  volatility : pyfloat;
  risk_label : string;
  forecast_series : option (series pyfloat)
}.

Definition default_summary : summary :=
  {| growth_rate := Fin 0; volatility := Fin 0; risk_label := "Moderate";
     forecast_series := None |}.

Section Engine.

Variable W : world.

(** The two globals of the module. *)
Record state : Type := {
  _hpi_series : option (series pyfloat);
  _model_fit : option (fitted W)
}.

Definition initial : state := {| _hpi_series := None; _model_fit := None |}.

(** ** Statements: state passing with exceptions *)

Definition M (A : Type) : Type := state -> result A * state.

Definition ret {A} (a : A) : M A := fun st => (Ok a, st).

Definition raise {A} (e : exn) : M A := fun st => (Raise e, st).

Definition lift {A} (r : result A) : M A := fun st => (r, st).

Definition mbind {A B} (c : M A) (k : A -> M B) : M B :=
  fun st =>
    match c st with
    | (Ok a, st') => k a st'
    | (Raise e, st') => (Raise e, st')
    end.

(** [try: c / except Exception: handler]: what [c] wrote stays written. *)
Definition try_ {A} (c : M A) (handler : exn -> M A) : M A :=
  fun st =>
    match c st with
    | (Ok a, st') => (Ok a, st')
    | (Raise e, st') => handler e st'
    end.

Definition get_series : M (option (series pyfloat)) :=
  fun st => (Ok (_hpi_series st), st).

Definition get_model : M (option (fitted W)) :=
  fun st => (Ok (_model_fit st), st).

Definition set_series (s : series pyfloat) : M unit :=
  fun st => (Ok tt, {| _hpi_series := Some s; _model_fit := _model_fit st |}).

Definition set_model (m : option (fitted W)) : M unit :=
  fun st => (Ok tt, {| _hpi_series := _hpi_series st; _model_fit := m |}).

(** The global read where the code goes on to use it as a series. *)
Definition the_series : M (series pyfloat) :=
  fun st =>
    match _hpi_series st with
    | Some s => (Ok s, st)
    | None => (Raise AttributeError, st)
    end.

(** The outcome of a library call. *)
Definition called {A} (tag : string) (o : option A) : result A :=
  match o with
  | Some a => Ok a
  | None => Raise (LibraryError tag)
  end.

Notation "x <~ c ;; k" := (mbind c (fun x => k))
  (at level 61, c at next level, right associativity).
Notation "c ;;; k" := (mbind c (fun _ => k))
  (at level 61, right associativity).

(** ** [load_hpi_and_fit] *)

Definition detect_date_col (df : dataframe) : result string :=
  if has_column df "Quarter" then Ok "Quarter"
  else if has_column df "Date" then Ok "Date"
  else Raise KeyError.

Definition column_of (df : dataframe) (name : string) : result column :=
  match get_column df name with
  | Some c => Ok c
  | None => Raise KeyError
  end.

Definition is_NaT (o : option timestamp) : bool :=
  match o with None => true | Some _ => false end.

(** [errors='coerce']: what is not a timestamp is [NaT]. *)
Definition coerce (o : option timestamp) : option timestamp :=
  match o with
  | Some t => if is_timestamp t then Some t else None
  | None => None
  end.

(** Lines 45-50: the fixed format first and, if a cell fails, the whole
    column again with the general parser. *)
Definition parse_dates (cells : list string) : list (option timestamp) :=
  let parsed := map parse_b_y cells in
  if existsb is_NaT parsed
  then map (fun c => coerce (to_datetime_any W c)) cells
  else parsed.

(** The rows whose date parsed, with their positions. *)
Fixpoint dated_rows (i : nat) (ds : list (option timestamp))
  : list (timestamp * nat) :=
  match ds with
  | [] => []
  | Some t :: ds' => (t, i) :: dated_rows (S i) ds'
  | None :: ds' => dated_rows (S i) ds'
  end.

Definition detect_hpi_col (df : dataframe) : result string :=
  if has_column df "ALL" then Ok "ALL"
  else if has_column df "HPI" then Ok "HPI"
  else
    match filter (fun c => is_numeric_dtype (snd c)) df with
    | c :: _ => Ok (fst c)
    | [] => Raise KeyError
    end.

(** Lines 26-70, up to the value assigned to [_hpi_series]. *)
Definition read_series (csv_path : string) : result (series pyfloat) :=
  let path :=
    if negb (isabs csv_path) then path_join (base W) csv_path
    else csv_path in
  if negb (path_exists W path) then Raise FileNotFoundError
  else
    df <- called "read_csv" (read_csv W path) ;;
    date_col <- detect_date_col df ;;
    dates <- column_of df date_col ;;
    let parsed := parse_dates (astype_str_strip (str_of_float W) dates) in
    (* dropna, sort_values, set_index *)
    let rows := sort_rows (argsort W) (dated_rows 0 parsed) in
    let df :=
      map (fun c => (fst c, take_rows (map snd rows) (snd c)))
          (drop_column df date_col) in
    hpi_col <- detect_hpi_col df ;;
    col <- column_of df hpi_col ;;
    values <- astype_float col ;;
    Ok (combine (map fst rows) values).

(** [print] of a text with an em dash or a check mark in it. *)
Definition print_unicode : M unit :=
  fun st =>
    if stdout_encodes W then (Ok tt, st) else (Raise UnicodeEncodeError, st).

Definition load_hpi_and_fit (csv_path : string) (arima_order : Z * Z * Z)
  : M bool :=
  s <~ lift (read_series csv_path) ;;
  set_series s ;;;
  (* quarterly frequency *)
  try_ (s <~ the_series ;;
        idx <~ lift (to_quarter_ends (map fst s)) ;;
        set_series (combine idx (map snd s)))
       (fun _ => s <~ the_series ;; set_series (sort_rows (argsort W) s)) ;;;
  (if _HAS_ARIMA W then
     try_ (s <~ the_series ;;
           m <~ lift (called "ARIMA.fit" (arima_fit W s arima_order)) ;;
           set_model (Some m))
          (fun _ => set_model None ;;; print_unicode)
   else set_model None ;;; print_unicode) ;;;
  print_unicode ;;;
  ret true.

(** ** [forecast_hpi] *)

Definition forecast_hpi (steps : Z) : M forecast :=
  hpi <~ get_series ;;
  match hpi with
  | None => raise RuntimeError
  | Some s =>
      fit <~ get_model ;;
      fc <~ match fit with
            | Some m =>
                res <~ lift (called "get_forecast" (get_forecast W m steps)) ;;
                ret (fst res, Some (snd res))
            | None =>
                last <~ lift (iloc_last s) ;;
                ret (unindexed (repeat last (Z.to_nat steps)), None)
            end ;;
      last_date <~ lift (index_last s) ;;
      forecast_index <~
        try_ (next_q_end <~ lift (plus QuarterEnd 1 last_date) ;;
              lift (date_range next_q_end steps QuarterEnd))
             (fun _ =>
                start <~ lift (plus MonthEnd 1 last_date) ;;
                lift (date_range start steps MonthEnd)) ;;
      forecast <~ lift (set_index (fst fc) forecast_index) ;;
      let conf_int :=
        option_map (fun ci => match set_index ci forecast_index with
                              | Ok ci' => ci'
                              | Raise _ => ci
                              end) (snd fc) in
      ret (forecast, conf_int)
  end.

(** ** [get_market_forecast_summary] *)

Definition market_risk_label (growth_rate volatility : pyfloat) : string :=
  if fgt growth_rate (Fin 0.05) && flt volatility (Fin 0.02) then "Low"
  else if fgt growth_rate (Fin (-0.02)) then "Moderate"
  else "High".

(** The volatility of lines 153-154. *)
Definition historical_volatility (s : series pyfloat) : pyfloat :=
  let returns := dropna (pct_change (map snd s)) in
  if (0 <? List.length returns)%nat then std (sqrt W) returns else Fin 0.

(** The body of the [try] of lines 147-163. *)
Definition summary_body (steps : Z) : M summary :=
  fc <~ forecast_hpi steps ;;
  s <~ the_series ;;
  last_hist <~ lift (iloc_last s) ;;
  last_fore <~ lift (iloc_last (fst fc)) ;;
  growth_rate <~
    lift (if fne last_hist (Fin 0)
          then truediv (fsub last_fore last_hist) last_hist
          else Ok (Fin 0)) ;;
  s <~ the_series ;;
  let volatility := historical_volatility s in
  ret {| growth_rate := growth_rate;
         volatility := volatility;
         risk_label := market_risk_label growth_rate volatility;
         forecast_series := Some (fst fc) |}.

Definition get_market_forecast_summary (steps : Z) : M summary :=
  hpi <~ get_series ;;
  match hpi with
  | None => ret default_summary
  | Some _ => try_ (summary_body steps) (fun _ => ret default_summary)
  end.

End Engine.

Arguments _hpi_series {W} s.
Arguments _model_fit {W} s.

End ts_forecast.

(* ================================================================== *)
(** * Properties of [risk_analysis.py] *)
(* ================================================================== *)

Module risk_props.

Import risk_analysis.
Local Open Scope Q_scope.
Local Open Scope string_scope.

Lemma analyze_risk_unfold (cp g v lab s lf : pyval) :
  analyze_risk cp g v lab s lf =
  (g' <- float g ;;
   v' <- float v ;;
   lf' <- float lf ;;
   sent <- normalize_label lab ;;
   s' <- float (or_else s (VFloat (Fin 50))) ;;
   Ok (assessment g' v' lf' sent s' (price_of cp) lab)).
Proof.
  unfold analyze_risk, price_of.
  destruct (float g) as [g'|]; cbn [bind]; [|reflexivity].
  destruct (float v) as [v'|]; cbn [bind]; [|reflexivity].
  destruct (float lf) as [lf'|]; cbn [bind]; [|reflexivity].
  destruct (normalize_label lab) as [sent|]; cbn [bind]; [|reflexivity].
  destruct (float (or_else s _)) as [s'|]; cbn [bind]; [|reflexivity].
  destruct (float (or_else cp _)) as [c|]; cbn [bind try_except];
    unfold assessment, tier, numeric_level, sentiment_level;
    fold (market_risk g' v' lf'); fold (sentiment_risk s');
    match goal with |- context [Np.clip (fmul (fdiv ?c _) _) _ _] =>
      fold (price_risk c) end;
    match goal with |- context [fadd (fadd (fmul ?m _) (fmul ?s0 _)) (fmul ?p _)] =>
      fold (composite_raw m s0 p); fold (composite m s0 p) end;
    repeat match goal with |- context [if flt ?a ?b then _ else _] =>
      destruct (flt a b) end;
    reflexivity.
Qed.

(** ** Rational comparisons and clipping *)

Lemma Qltb_lt (x y : Q) : Qltb x y = true <-> x < y.
Proof.
  unfold Qltb. rewrite negb_true_iff. split; intros H.
  - apply Qnot_le_lt. intros C. apply Qle_bool_iff in C. congruence.
  - destruct (Qle_bool y x) eqn:E; [|reflexivity].
    apply Qle_bool_iff in E. lra.
Qed.

Lemma Qltb_ge (x y : Q) : Qltb x y = false <-> y <= x.
Proof.
  unfold Qltb. rewrite negb_false_iff. apply Qle_bool_iff.
Qed.

Lemma Qis0_true (x : Q) : Qis0 x = true <-> x == 0.
Proof. apply Qeq_bool_iff. Qed.

Lemma Qis0_false (x : Q) : Qis0 x = false <-> ~ x == 0.
Proof.
  rewrite <- Qis0_true. destruct (Qis0 x); split; congruence.
Qed.

(** ** Overflow *)

Lemma fin_Fin (q b : Q) :
  Qabs q <= b -> b < overflow_threshold -> fin q = Fin q.
Proof.
  intros Hq Hb. unfold fin, overflows.
  destruct (Qle_bool overflow_threshold (Qabs q)) eqn:E; [|reflexivity].
  apply Qle_bool_iff in E. lra.
Qed.

Lemma fin_not_NaN (q : Q) : fin q <> NaN.
Proof. unfold fin. destruct (overflows q); discriminate. Qed.

Lemma Qabs_le (q b : Q) : Qabs q <= b <-> - b <= q /\ q <= b.
Proof. apply Qabs_Qle_condition. Qed.

Lemma Qabs_mult_le (a k A K : Q) :
  Qabs a <= A -> Qabs k <= K -> Qabs (a * k) <= A * K.
Proof.
  intros Ha Hk. rewrite Qabs_Qmult.
  pose proof (Qabs_nonneg a). pose proof (Qabs_nonneg k).
  apply Qle_trans with (A * Qabs k).
  - apply Qmult_le_compat_r; assumption.
  - rewrite (Qmult_comm A (Qabs k)), (Qmult_comm A K).
    apply Qmult_le_compat_r; [assumption | lra].
Qed.

(** A bound far from overflow, and the magnitudes below it. *)
Definition moderate_bound : Q := Eval vm_compute in inject_Z (10 ^ 100).

Definition moderate (q : Q) : Prop := Qabs q <= moderate_bound.

Lemma moderate_bound_large : 1000 <= moderate_bound.
Proof. vm_compute. discriminate. Qed.

Lemma moderate_square_small :
  1000 * moderate_bound * (2 * moderate_bound) < overflow_threshold.
Proof. vm_compute. reflexivity. Qed.

Lemma moderate_small (c : Q) :
  0 <= c -> c <= 1000 -> c * moderate_bound < overflow_threshold.
Proof.
  intros H0 H1. pose proof moderate_bound_large as B.
  pose proof moderate_square_small as S.
  apply Qle_lt_trans with (1000 * moderate_bound * (2 * moderate_bound));
    [|exact S].
  apply Qle_trans with (1000 * moderate_bound).
  - apply Qmult_le_compat_r; lra.
  - rewrite <- (Qmult_1_r (1000 * moderate_bound)) at 1.
    rewrite (Qmult_comm (1000 * moderate_bound) 1),
            (Qmult_comm (1000 * moderate_bound) (2 * moderate_bound)).
    apply Qmult_le_compat_r; lra.
Qed.

(** [np.clip] on finite values. *)
Definition qclip (x lo hi : Q) : Q :=
  let m := if Qltb x lo then lo else x in
  if Qltb hi m then hi else m.

Lemma clip_Fin (x lo hi : Q) :
  Np.clip (Fin x) (Fin lo) (Fin hi) = Fin (qclip x lo hi).
Proof.
  unfold Np.clip, Np.maximum, Np.minimum, qclip, flt.
  destruct (Qltb x lo); cbn; destruct (Qltb hi _); reflexivity.
Qed.

Lemma qclip_id (x lo hi : Q) : lo <= x -> x <= hi -> qclip x lo hi = x.
Proof.
  intros Hlo Hhi. unfold qclip.
  destruct (Qltb x lo) eqn:E1.
  - apply Qltb_lt in E1. lra.
  - destruct (Qltb hi x) eqn:E2; [|reflexivity].
    apply Qltb_lt in E2. lra.
Qed.

Lemma qclip_bounds (x lo hi : Q) :
  lo <= hi -> lo <= qclip x lo hi /\ qclip x lo hi <= hi.
Proof.
  intros H. unfold qclip.
  destruct (Qltb x lo) eqn:E1; cbn zeta;
    [apply Qltb_lt in E1 | apply Qltb_ge in E1];
    destruct (Qltb hi _) eqn:E2;
    [apply Qltb_lt in E2 | apply Qltb_ge in E2
    |apply Qltb_lt in E2 | apply Qltb_ge in E2]; lra.
Qed.

Lemma qclip_mono (x y lo hi : Q) :
  x <= y -> qclip x lo hi <= qclip y lo hi.
Proof.
  intros H. unfold qclip.
  destruct (Qltb x lo) eqn:Ex; [apply Qltb_lt in Ex | apply Qltb_ge in Ex];
    destruct (Qltb y lo) eqn:Ey; [apply Qltb_lt in Ey | apply Qltb_ge in Ey
                                  |apply Qltb_lt in Ey | apply Qltb_ge in Ey];
    cbn zeta;
    repeat match goal with
    | |- context [Qltb ?a ?b] =>
        let E := fresh "E" in
        destruct (Qltb a b) eqn:E; [apply Qltb_lt in E | apply Qltb_ge in E]
    end; lra.
Qed.

(** ** Rounding is monotone *)

Lemma round_half_even_range (q : Q) :
  (Qfloor q <= round_half_even q <= Qfloor q + 1)%Z.
Proof.
  unfold round_half_even.
  destruct (Qcompare _ _); [destruct (Z.even _)| |]; lia.
Qed.

Lemma round_half_even_mono (x y : Q) :
  x <= y -> (round_half_even x <= round_half_even y)%Z.
Proof.
  intros H.
  pose proof (Qfloor_resp_le _ _ H) as Hf.
  destruct (Z.eq_dec (Qfloor x) (Qfloor y)) as [E|N].
  - unfold round_half_even. rewrite <- E.
    destruct (Qcompare (x - inject_Z (Qfloor x)) (1 # 2)) eqn:Cx;
      destruct (Qcompare (y - inject_Z (Qfloor x)) (1 # 2)) eqn:Cy;
      try (destruct (Z.even (Qfloor x))); try lia;
      exfalso;
      repeat match goal with
      | C : Qcompare _ _ = Eq |- _ => apply Qeq_alt in C
      | C : Qcompare _ _ = Lt |- _ => apply Qlt_alt in C
      | C : Qcompare _ _ = Gt |- _ => apply Qgt_alt in C
      end; lra.
  - pose proof (round_half_even_range x). pose proof (round_half_even_range y).
    lia.
Qed.

Definition qround (q : Q) (ndigits : nat) : Q :=
  inject_Z (round_half_even (q * inject_Z (10 ^ Z.of_nat ndigits)))
  / inject_Z (10 ^ Z.of_nat ndigits).

Lemma round_Fin (q : Q) (n : nat) : round (Fin q) n = Fin (qround q n).
Proof. reflexivity. Qed.

Lemma qround2_mono (x y : Q) : x <= y -> qround x 2 <= qround y 2.
Proof.
  intros H. unfold qround.
  change (inject_Z (10 ^ Z.of_nat 2)) with 100.
  assert (Hr : (round_half_even (x * 100) <= round_half_even (y * 100))%Z)
    by (apply round_half_even_mono; lra).
  rewrite Zle_Qle in Hr.
  apply Qmult_le_compat_r; [exact Hr|].
  apply Qinv_le_0_compat. lra.
Qed.

(** ** The parts of the result on finite inputs *)

(** [fin q] is [Fin q] when [q] is linear in moderate values, with small
    coefficients. *)
Ltac fin_linear :=
  match goal with
  | |- context [fin ?q] =>
      rewrite (fin_Fin q (1000 * moderate_bound));
      [ | apply Qabs_le; split; lra | apply moderate_small; lra ]
  end.

Lemma market_risk_Fin (g v lf : Q) :
  moderate g -> moderate v -> moderate lf ->
  market_risk (Fin g) (Fin v) (Fin lf) =
  Fin (qclip ((v * 100 * 1.5 - g * 100 * 0.8) * (1.2 - lf)) 0 100).
Proof.
  unfold moderate. intros Hg Hv Hl.
  pose proof moderate_bound_large as B.
  pose proof Hg as Hg'. pose proof Hv as Hv'. pose proof Hl as Hl'.
  apply Qabs_le in Hg', Hv', Hl'.
  unfold market_risk.
  repeat (cbn [fmul fsub fadd fneg]; fin_linear). cbn [fmul fsub fadd fneg].
  rewrite (fin_Fin _ (1000 * moderate_bound * (2 * moderate_bound))).
  - apply clip_Fin.
  - apply Qabs_mult_le; apply Qabs_le; split; lra.
  - exact moderate_square_small.
Qed.

Lemma sentiment_risk_Fin (s : Q) :
  moderate s -> sentiment_risk (Fin s) = Fin (qclip (100 - s) 0 100).
Proof.
  unfold moderate. intros Hs. pose proof moderate_bound_large as B.
  apply Qabs_le in Hs.
  unfold sentiment_risk. cbn [fsub fadd fneg]. fin_linear. apply clip_Fin.
Qed.

Lemma price_risk_Fin (c : Q) :
  moderate c -> price_risk (Fin c) = Fin (qclip (c / 200 * 100) 0 100).
Proof.
  unfold moderate. intros Hc. pose proof moderate_bound_large as B.
  apply Qabs_le in Hc.
  unfold price_risk, fdiv. change (Qis0 200) with false.
  assert (E : c / 200 == c * (1 # 200)) by (field; discriminate).
  rewrite (fin_Fin (c / 200) (1000 * moderate_bound));
    [ | rewrite E; apply Qabs_le; split; lra | apply moderate_small; lra ].
  cbn [fmul].
  rewrite (fin_Fin (c / 200 * 100) (1000 * moderate_bound));
    [ | rewrite E; apply Qabs_le; split; lra | apply moderate_small; lra ].
  apply clip_Fin.
Qed.

Lemma composite_raw_Fin (m s p : Q) :
  0 <= m <= 100 -> 0 <= s <= 100 -> 0 <= p <= 100 ->
  composite_raw (Fin m) (Fin s) (Fin p)
  = Fin (m * 0.70 + s * 0.20 + p * 0.10).
Proof.
  intros Hm Hs Hp. pose proof moderate_bound_large as B.
  unfold composite_raw, W_MARKET, W_SENTIMENT, W_PRICE.
  repeat (cbn [fmul fadd]; fin_linear). reflexivity.
Qed.

Lemma composite_Fin (m s p : Q) :
  0 <= m <= 100 -> 0 <= s <= 100 -> 0 <= p <= 100 ->
  composite (Fin m) (Fin s) (Fin p) =
  Fin (qclip (qround (m * 0.70 + s * 0.20 + p * 0.10) 2) 0 100).
Proof.
  intros Hm Hs Hp. unfold composite.
  rewrite composite_raw_Fin, round_Fin by assumption. apply clip_Fin.
Qed.

Lemma composite_mono (m m' s s' p p' : Q) :
  0 <= m -> m <= m' -> m' <= 100 ->
  0 <= s -> s <= s' -> s' <= 100 ->
  0 <= p -> p <= p' -> p' <= 100 ->
  fle (composite (Fin m) (Fin s) (Fin p))
      (composite (Fin m') (Fin s') (Fin p')) = true.
Proof.
  intros. rewrite !composite_Fin by (split; lra). cbn [fle].
  apply Qle_bool_iff, qclip_mono, qround2_mono. lra.
Qed.

(** ** Conversions of the arguments *)

Lemma normalize_label_str (s : string) :
  exists sent, normalize_label (VStr s) = Ok sent.
Proof.
  unfold normalize_label, or_else. destruct (truthy (VStr s)); eauto.
Qed.

Lemma normalize_label_falsy (lab : pyval) :
  lab = VNone \/ lab = VStr EmptyString -> normalize_label lab = Ok "neutral".
Proof. intros [-> | ->]; reflexivity. Qed.

Lemma sentiment_score_nonzero (s : Q) :
  ~ s == 0 -> float (or_else (num s) (VFloat (Fin 50))) = Ok (Fin s).
Proof.
  intros H. apply Qis0_false in H.
  unfold or_else, num, truthy, fne, feqb. fold (Qis0 s). rewrite H.
  reflexivity.
Qed.

Lemma sentiment_score_falsy (s : pyval) :
  truthy s = false -> float (or_else s (VFloat (Fin 50))) = Ok (Fin 50).
Proof. intros H. unfold or_else. rewrite H. reflexivity. Qed.

Lemma price_of_num (c : Q) : exists c', price_of (num c) = Fin c' /\ c' == c.
Proof.
  unfold price_of, or_else, num, truthy, fne, feqb. fold (Qis0 c).
  destruct (Qis0 c) eqn:E; cbn.
  - apply Qis0_true in E. exists 0. split; [reflexivity | lra].
  - exists c. split; [reflexivity | lra].
Qed.

(** A price whose conversion raises is taken as [0.0]. *)
Lemma price_of_malformed (cp : pyval) (e : exn) :
  float (or_else cp (VFloat (Fin 0))) = Raise e -> price_of cp = Fin 0.
Proof. unfold price_of. intros ->. reflexivity. Qed.

(** ** Scenario B *)

Definition scenario_B : result risk_assessment :=
  analyze_risk (num 150) (num (-0.03)) (num 0.04)
               (VStr "Negative") (num 25) (num 0.9).

(** C1, as stated, fails: on the inputs of Scenario B the composite score
    is not at least 60 with level "High" followed by "Sell". *)
Lemma scenario_B_is_not_high :
  ~ (exists r p,
        scenario_B = Ok r /\
        fge (score r) (Fin 60) = true /\ level r = "High" /\
        get_prescription (VFloat (score r)) (num (-0.03)) = Ok p /\
        action p = "Sell").
Proof.
  intros (r & p & Hr & Hge & _).
  vm_compute in Hr. injection Hr as <-.
  vm_compute in Hge. discriminate Hge.
Qed.

(** C1, amended: on the inputs of Scenario B, [analyze_risk] returns the
    composite score 24.26, which is below 30, and level "Low";
    [get_prescription] on that score and growth rate -0.03 returns "Sell". *)
Theorem scenario_B_low_then_sell :
  exists r p,
    scenario_B = Ok r /\
    score r = Fin 24.26 /\ flt (score r) (Fin 30) = true /\
    level r = "Low" /\
    get_prescription (VFloat (score r)) (num (-0.03)) = Ok p /\
    action p = "Sell".
Proof.
  unfold scenario_B. eexists. eexists.
  split; [vm_compute; reflexivity|].
  split; [reflexivity|].
  split; [reflexivity|].
  split; [reflexivity|].
  split; [vm_compute; reflexivity | reflexivity].
Qed.

(** ** The sentiment sub-score *)

(** C2 at its failing input: a sentiment score of 0 is replaced by 50.0
    before the sub-score is taken, which is then 50 and not 100 - 0. *)
Theorem zero_sentiment_score_scores_neutral :
  exists r,
    analyze_risk (num 150) (num (-0.03)) (num 0.04)
                 (VStr "Negative") (num 0) (num 0.9) = Ok r /\
    sentiment_numeric_risk (debug r) = Fin 50 /\
    ~ same (sentiment_numeric_risk (debug r)) (fsub (Fin 100) (Fin 0)).
Proof.
  rewrite analyze_risk_unfold.
  eexists. split; [vm_compute; reflexivity|].
  split; [reflexivity|].
  cbn. intros H. discriminate H.
Qed.

(** Away from 0 the sub-score is [100 - sentiment_score], for every score
    in the range and whatever the other arguments. *)
Lemma sentiment_subscore_nonzero (cp g v lab lf : pyval) (s : Q) r :
  0 < s -> s <= 100 ->
  analyze_risk cp g v lab (num s) lf = Ok r ->
  sentiment_numeric_risk (debug r) = Fin (100 - s).
Proof.
  intros Hpos Hle. rewrite analyze_risk_unfold.
  rewrite sentiment_score_nonzero by lra.
  destruct (float g); cbn [bind]; [|discriminate].
  destruct (float v); cbn [bind]; [|discriminate].
  destruct (float lf); cbn [bind]; [|discriminate].
  destruct (normalize_label lab); cbn [bind]; [|discriminate].
  intros [= <-]. cbn [debug assessment sentiment_numeric_risk].
  rewrite sentiment_risk_Fin.
  - f_equal. apply qclip_id; lra.
  - pose proof moderate_bound_large. apply Qabs_le. split; lra.
Qed.

(** ** Falsy sentiment inputs *)

(** The assessment with another label echoed in its [debug] part. *)
Definition relabel (lab : pyval) (r : risk_assessment) : risk_assessment :=
  {| score := score r;
     level := level r;
     category := category r;
     message := message r;
     debug := {| market_risk_score := market_risk_score (debug r);
                 market_risk_level := market_risk_level (debug r);
                 sentiment_label := lab;
                 sentiment_score := sentiment_score (debug r);
                 sentiment_numeric_risk := sentiment_numeric_risk (debug r);
                 sentiment_risk_level := sentiment_risk_level (debug r);
                 price_risk_score := price_risk_score (debug r);
                 weights := weights (debug r);
                 final_raw := final_raw (debug r) |} |}.

Definition zero_or_none (v : pyval) : Prop :=
  match v with
  | VNone => True
  | VInt z => z = 0%Z
  | VFloat (Fin q) => q == 0
  | _ => False
  end.

Lemma zero_or_none_falsy (v : pyval) : zero_or_none v -> truthy v = false.
Proof.
  destruct v as [| b | z | [q | b |] | s];
    unfold zero_or_none, truthy, fne, feqb; try contradiction.
  - reflexivity.
  - intros ->. reflexivity.
  - intros H. apply Qeq_bool_iff in H. rewrite H. reflexivity.
Qed.

(** C10: a sentiment label that is [None] or empty is treated as "Neutral"
    (the result is the one for "Neutral", up to the label echoed in the
    debug part), and a sentiment score that is 0 or [None] is replaced by
    50.0, so that the sentiment sub-score is 50 and not 100. *)
Theorem falsy_sentiment_defaults (cp g v lab s lf : pyval) (r : risk_assessment) :
  analyze_risk cp g v lab s lf = Ok r ->
  (lab = VNone \/ lab = VStr EmptyString ->
     analyze_risk cp g v (VStr "Neutral") s lf
     = Ok (relabel (VStr "Neutral") r)) /\
  (zero_or_none s ->
     sentiment_score (debug r) = Fin 50 /\
     sentiment_numeric_risk (debug r) = Fin 50 /\
     ~ same (sentiment_numeric_risk (debug r)) (Fin 100)).
Proof.
  rewrite !analyze_risk_unfold.
  destruct (float g) as [g'|]; cbn [bind]; [|discriminate].
  destruct (float v) as [v'|]; cbn [bind]; [|discriminate].
  destruct (float lf) as [lf'|]; cbn [bind]; [|discriminate].
  intros H. split.
  - intros Hlab. rewrite (normalize_label_falsy lab Hlab) in H.
    change (normalize_label (VStr "Neutral")) with (@Ok string "neutral").
    cbn [bind] in *.
    destruct (float (or_else s _)) as [s'|]; cbn [bind] in *; [|discriminate].
    injection H as <-. reflexivity.
  - intros Hs. apply zero_or_none_falsy in Hs.
    rewrite (sentiment_score_falsy _ Hs) in H.
    destruct (normalize_label lab); cbn [bind] in H; [|discriminate].
    injection H as <-. cbn.
    repeat split; try reflexivity. intros C. discriminate C.
Qed.

Lemma falsy_sentiment_defaults_witness :
  exists r,
    analyze_risk (num 150) (num (-0.03)) (num 0.04) VNone (num 0) (num 0.9)
    = Ok r /\
    analyze_risk (num 150) (num (-0.03)) (num 0.04) (VStr "Neutral") (num 0)
                 (num 0.9) = Ok (relabel (VStr "Neutral") r) /\
    sentiment_numeric_risk (debug r) = Fin 50.
Proof.
  eexists. split; [vm_compute; reflexivity|].
  match goal with |- analyze_risk ?cp ?g ?v _ ?s ?lf = Ok (relabel _ ?r) /\ _ =>
    assert (H : analyze_risk cp g v VNone s lf = Ok r)
      by (vm_compute; reflexivity);
    destruct (falsy_sentiment_defaults cp g v VNone s lf r H) as [Hl Hs]
  end.
  split.
  - apply Hl. left. reflexivity.
  - apply Hs. cbn. reflexivity.
Defined.

(** ** Totality *)

Definition opt_str (o : option string) : pyval :=
  match o with Some s => VStr s | None => VNone end.

Definition opt_float (o : option pyfloat) : pyval :=
  match o with Some f => VFloat f | None => VNone end.

(** C3, as stated, fails: a non-numeric growth rate makes [analyze_risk]
    raise, and a non-numeric risk score makes [get_prescription] raise. *)
Lemma malformed_growth_rate_raises :
  ~ (returns (analyze_risk (num 150) (VStr "abc") (num 0.04)
                           (VStr "Negative") (num 25) (num 0.9)) /\
     returns (get_prescription (VStr "abc") (num 0.05))).
Proof.
  intros [[r H] _]. vm_compute in H. discriminate H.
Qed.

Lemma get_prescription_floats (risk g : pyfloat) :
  returns (get_prescription (VFloat risk) (VFloat g)).
Proof.
  unfold get_prescription, returns. cbn [mul_float lt_int bind].
  destruct (_ && _); [eauto|].
  destruct (_ && _); [eauto|].
  destruct (flt _ _); eauto.
Qed.

(** C3, amended: [analyze_risk] returns a result whenever growth rate,
    volatility and location factor are floats, the sentiment score is a
    float or [None] and the label a string or [None], for every current
    price: a price that does not convert is taken as 0.0 and a missing
    sentiment score as 50.0.  [get_prescription] returns whenever both its
    arguments are floats. *)
Theorem total_on_documented_types :
  (forall (cp : pyval) (g v lf : pyfloat)
          (lab : option string) (s : option pyfloat),
      exists r,
        analyze_risk cp (VFloat g) (VFloat v) (opt_str lab) (opt_float s)
                     (VFloat lf) = Ok r /\
        (raises (float (or_else cp (VFloat (Fin 0)))) ->
           analyze_risk (num 0) (VFloat g) (VFloat v) (opt_str lab)
                        (opt_float s) (VFloat lf) = Ok r) /\
        (s = None -> sentiment_score (debug r) = Fin 50)) /\
  (forall risk g : pyfloat,
      returns (get_prescription (VFloat risk) (VFloat g))).
Proof.
  split; [|apply get_prescription_floats].
  intros cp g v lf lab s. rewrite !analyze_risk_unfold. cbn [float bind].
  assert (Hl : exists sent, normalize_label (opt_str lab) = Ok sent).
  { destruct lab as [l|]; [apply normalize_label_str | now exists "neutral"]. }
  destruct Hl as [sent ->]. cbn [bind].
  assert (Hs : exists s', float (or_else (opt_float s) (VFloat (Fin 50))) = Ok s'
                          /\ (s = None -> s' = Fin 50)).
  { destruct s as [f|]; cbn [opt_float].
    - unfold or_else. destruct (truthy (VFloat f)); cbn [float]; eexists;
        (split; [reflexivity | discriminate]).
    - exists (Fin 50). split; reflexivity. }
  destruct Hs as (s' & -> & Hs'). cbn [bind].
  eexists. split; [reflexivity|]. split.
  - intros [e He]. rewrite (price_of_malformed cp e He). reflexivity.
  - exact Hs'.
Qed.

Lemma total_on_documented_types_witness :
  exists r,
    analyze_risk (VStr "n/a") (VFloat (Fin (-0.03))) (VFloat (Fin 0.04))
                 (opt_str None) (opt_float None) (VFloat (Fin 0.9)) = Ok r /\
    analyze_risk (num 0) (VFloat (Fin (-0.03))) (VFloat (Fin 0.04))
                 (opt_str None) (opt_float None) (VFloat (Fin 0.9)) = Ok r /\
    sentiment_score (debug r) = Fin 50.
Proof.
  destruct (proj1 total_on_documented_types (VStr "n/a") (Fin (-0.03))
              (Fin 0.04) (Fin 0.9) None None) as (r & Hr & Hp & Hs).
  exists r. split; [exact Hr|]. split.
  - apply Hp. exists ValueError. vm_compute. reflexivity.
  - apply Hs. reflexivity.
Defined.

(** ** Monotonicity of the composite score *)

(** The score on finite float arguments ([NaN] if the call raised, which
    it does not). *)
Definition score_at (cp g v : Q) (lab : string) (s lf : Q) : pyfloat :=
  match analyze_risk (num cp) (num g) (num v) (VStr lab) (num s) (num lf) with
  | Ok r => score r
  | Raise _ => NaN
  end.

Lemma score_at_eq (cp g v : Q) (lab : string) (s lf : Q) :
  score_at cp g v lab s lf =
  composite (market_risk (Fin g) (Fin v) (Fin lf))
            (sentiment_risk (Fin (if Qis0 s then 50 else s)))
            (price_risk (price_of (num cp))).
Proof.
  unfold score_at. rewrite analyze_risk_unfold. unfold num at 2 3 4 5.
  cbn [float bind].
  destruct (normalize_label_str lab) as [sent ->]. cbn [bind].
  unfold or_else, truthy, fne, feqb. fold (Qis0 s).
  destruct (Qis0 s); reflexivity.
Qed.

(** C4, as stated, fails: with location factor 2 and growth rate 0.5, raising
    the volatility from 0 to 0.2 lowers the score from 32.4 to 15.6. *)
Lemma score_falls_with_volatility_at_high_location_factor :
  ~ (0 <= 0.2 ->
     fle (score_at 0 0.5 0 "Neutral" 50 2)
         (score_at 0 0.5 0.2 "Neutral" 50 2) = true).
Proof.
  intros H. assert (H0 : 0 <= 0.2) by lra.
  specialize (H H0). vm_compute in H. discriminate H.
Qed.

(** The sub-scores on moderate arguments: finite, between 0 and 100. *)
Lemma subscores_Fin (cp g v s lf : Q) :
  moderate cp -> moderate g -> moderate v -> moderate s -> moderate lf ->
  exists m sr p,
    market_risk (Fin g) (Fin v) (Fin lf) = Fin m /\
    sentiment_risk (Fin (if Qis0 s then 50 else s)) = Fin sr /\
    price_risk (price_of (num cp)) = Fin p /\
    m = qclip ((v * 100 * 1.5 - g * 100 * 0.8) * (1.2 - lf)) 0 100 /\
    sr = qclip (100 - (if Qis0 s then 50 else s)) 0 100 /\
    (exists c, c == cp /\ p = qclip (c / 200 * 100) 0 100) /\
    (0 <= m <= 100) /\ (0 <= sr <= 100) /\ (0 <= p <= 100).
Proof.
  intros Hcp Hg Hv Hs Hlf.
  destruct (price_of_num cp) as (c & Hc & Ec).
  assert (Mc : moderate c) by (unfold moderate in *; now rewrite Ec).
  assert (Ms : moderate (if Qis0 s then 50 else s)).
  { destruct (Qis0 s); [|exact Hs].
    pose proof moderate_bound_large. apply Qabs_le. split; lra. }
  do 3 eexists.
  split; [apply market_risk_Fin; assumption|].
  split; [apply sentiment_risk_Fin; assumption|].
  split; [rewrite Hc; apply price_risk_Fin; assumption|].
  split; [reflexivity|]. split; [reflexivity|].
  split; [exists c; split; [exact Ec | reflexivity]|].
  repeat split; apply qclip_bounds; lra.
Qed.

(** C4, amended: on arguments of magnitude at most [10^100] the composite
    score is non-decreasing in volatility and non-increasing in growth rate
    when the location factor is at most 1.2, non-decreasing in the current
    price for every location factor, and non-increasing in the sentiment
    score over non-zero sentiment scores. *)
Theorem composite_score_monotone (lab : string) (cp g v s lf : Q) :
  moderate cp -> moderate g -> moderate v -> moderate s -> moderate lf ->
  (forall v', moderate v' -> lf <= 1.2 -> v <= v' ->
     fle (score_at cp g v lab s lf) (score_at cp g v' lab s lf) = true) /\
  (forall cp', moderate cp' -> cp <= cp' ->
     fle (score_at cp g v lab s lf) (score_at cp' g v lab s lf) = true) /\
  (forall g', moderate g' -> lf <= 1.2 -> g <= g' ->
     fle (score_at cp g' v lab s lf) (score_at cp g v lab s lf) = true) /\
  (forall s', moderate s' -> ~ s == 0 -> ~ s' == 0 -> s <= s' ->
     fle (score_at cp g v lab s' lf) (score_at cp g v lab s lf) = true).
Proof.
  intros Hcp Hg Hv Hs Hlf.
  destruct (subscores_Fin cp g v s lf Hcp Hg Hv Hs Hlf)
    as (m & sr & p & Em & Es & Ep & Dm & Ds & (c & Ec & Dp) & Bm & Bs & Bp).
  rewrite score_at_eq, Em, Es, Ep.
  split; [|split; [|split]].
  - intros v' Hv' Hl Hle.
    destruct (subscores_Fin cp g v' s lf Hcp Hg Hv' Hs Hlf)
      as (m' & sr' & p' & Em' & Es' & Ep' & Dm' & _ & _ & Bm' & _ & _).
    rewrite score_at_eq, Em', Es, Ep.
    apply composite_mono; try lra.
    subst m m'. apply qclip_mono. apply Qmult_le_compat_r; lra.
  - intros cp' Hcp' Hle.
    destruct (subscores_Fin cp' g v s lf Hcp' Hg Hv Hs Hlf)
      as (m' & sr' & p' & _ & _ & Ep' & _ & _ & (c' & Ec' & Dp') & _ & _ & Bp').
    rewrite score_at_eq, Em, Es, Ep'.
    apply composite_mono; try lra.
    subst p p'. apply qclip_mono.
    apply Qmult_le_compat_r; [|lra].
    apply Qmult_le_compat_r; [lra|]. apply Qinv_le_0_compat. lra.
  - intros g' Hg' Hl Hle.
    destruct (subscores_Fin cp g' v s lf Hcp Hg' Hv Hs Hlf)
      as (m' & sr' & p' & Em' & Es' & Ep' & Dm' & _ & _ & Bm' & _ & _).
    rewrite score_at_eq, Em', Es, Ep.
    apply composite_mono; try lra.
    subst m m'. apply qclip_mono. apply Qmult_le_compat_r; lra.
  - intros s' Hs' N N' Hle.
    destruct (subscores_Fin cp g v s' lf Hcp Hg Hv Hs' Hlf)
      as (m' & sr' & p' & _ & Es' & _ & _ & Ds' & _ & _ & Bs' & _).
    rewrite score_at_eq, Em, Es', Ep.
    apply composite_mono; try lra.
    subst sr sr'. apply Qis0_false in N, N'. rewrite N, N'.
    apply qclip_mono. lra.
Qed.

Lemma composite_score_monotone_witness :
  fle (score_at 150 (-0.03) 0.04 "Negative" 25 0.9)
      (score_at 150 (-0.03) 0.08 "Negative" 25 0.9) = true /\
  fle (score_at 150 (-0.03) 0.04 "Negative" 25 0.9)
      (score_at 180 (-0.03) 0.04 "Negative" 25 0.9) = true /\
  fle (score_at 150 0.02 0.04 "Negative" 25 0.9)
      (score_at 150 (-0.03) 0.04 "Negative" 25 0.9) = true /\
  fle (score_at 150 (-0.03) 0.04 "Negative" 60 0.9)
      (score_at 150 (-0.03) 0.04 "Negative" 25 0.9) = true.
Proof.
  assert (M : forall q, Qabs q <= 1000 -> moderate q).
  { intros q H. unfold moderate. pose proof moderate_bound_large. lra. }
  destruct (composite_score_monotone "Negative" 150 (-0.03) 0.04 25 0.9)
    as (Hv & Hc & Hg & Hs); try (apply M; vm_compute; discriminate).
  split; [|split; [|split]].
  - apply Hv; [apply M; vm_compute; discriminate | lra | lra].
  - apply Hc; [apply M; vm_compute; discriminate | lra].
  - apply Hg; [apply M; vm_compute; discriminate | lra | lra].
  - apply Hs; [apply M; vm_compute; discriminate | lra | lra | lra].
Defined.

(** Without the bound the amended statement fails too: with growth rate
    and volatility of [10^308] both percentages overflow, their difference
    is NaN, and so is the score, which is not above the score 17.5 at
    volatility 0. *)
Lemma overflow_breaks_monotonicity :
  same (score_at 150 (inject_Z (10 ^ 308)) 0 "Neutral" 50 0.9) (Fin 17.5) /\
  score_at 150 (inject_Z (10 ^ 308)) (inject_Z (10 ^ 308)) "Neutral" 50 0.9
  = NaN.
Proof. split; vm_compute; reflexivity. Qed.

End risk_props.

(* ================================================================== *)
(** * Properties of [ts_forecast.py] *)
(* ================================================================== *)

Module forecast_props.

Import ts_forecast.
Local Open Scope Z_scope.

(** ** Quarter ends and month ends *)

Lemma quarter_of_quarter_end (q : Z) : quarter_of (quarter_end q) = q.
Proof.
  unfold quarter_of, quarter_end. cbn [year month].
  replace (3 * (q mod 4) + 3 - 1) with (2 + (q mod 4) * 3) by lia.
  rewrite Z.div_add by lia. change (2 / 3) with 0.
  pose proof (Z.div_mod q 4). lia.
Qed.

Lemma quarter_end_on_offset (q : Z) :
  on_offset QuarterEnd (quarter_end q) = true.
Proof.
  unfold on_offset, quarter_end. cbn [year month day].
  rewrite Z.eqb_refl. cbn [andb]. apply Z.eqb_eq.
  replace (3 * (q mod 4) + 3) with ((q mod 4 + 1) * 3) by lia.
  apply Z.mod_mul. lia.
Qed.

Lemma quarter_end_on_month_offset (q : Z) :
  on_offset MonthEnd (quarter_end q) = true.
Proof.
  unfold on_offset, quarter_end. cbn [year month day].
  now rewrite Z.eqb_refl.
Qed.

Lemma shift_quarter_end (n q : Z) :
  shift QuarterEnd n (quarter_end q) = quarter_end (q + n).
Proof.
  unfold shift. rewrite quarter_end_on_offset, quarter_of_quarter_end.
  rewrite Z.sub_0_r. reflexivity.
Qed.

Lemma range_from_quarter_end (n : nat) (q : Z) :
  range_from QuarterEnd (quarter_end q) n
  = map (fun i => quarter_end (q + Z.of_nat i)) (seq 0 n).
Proof.
  revert q. induction n as [|n IH]; intros q; [reflexivity|].
  cbn [range_from seq map]. rewrite shift_quarter_end, IH.
  rewrite Z.add_0_r. f_equal.
  rewrite <- seq_shift, map_map. apply map_ext. intros i.
  f_equal. lia.
Qed.

Lemma quarter_end_lt (q q' : Z) :
  q < q' -> ts_ltb (quarter_end q) (quarter_end q') = true.
Proof.
  intros H. unfold ts_ltb, ts_compare, quarter_end. cbn [year month day time].
  pose proof (Z.div_mod q 4). pose proof (Z.div_mod q' 4).
  pose proof (Z.mod_pos_bound q 4). pose proof (Z.mod_pos_bound q' 4).
  destruct (Z.compare_spec (q / 4) (q' / 4)) as [E|L|G]; [| reflexivity | lia].
  destruct (Z.compare_spec (3 * (q mod 4) + 3) (3 * (q' mod 4) + 3));
    [lia | reflexivity | lia].
Qed.

(** Snapping to the quarter end is idempotent: its results are exactly the
    quarter-end timestamps. *)
Lemma to_quarter_end_idem (t : timestamp) :
  to_quarter_end (to_quarter_end t) = to_quarter_end t.
Proof. unfold to_quarter_end. now rewrite quarter_of_quarter_end. Qed.

Lemma month_index_month_end (m tm : Z) : month_index (month_end m tm) = m.
Proof.
  unfold month_index, month_end. cbn [year month].
  pose proof (Z.div_mod m 12). lia.
Qed.

Lemma month_end_on_offset (m tm : Z) :
  on_offset MonthEnd (month_end m tm) = true.
Proof.
  unfold on_offset, month_end. cbn [year month day]. now rewrite Z.eqb_refl.
Qed.

Lemma shift_month_end (n m tm : Z) :
  shift MonthEnd n (month_end m tm) = month_end (m + n) tm.
Proof.
  unfold shift. rewrite month_end_on_offset, month_index_month_end.
  rewrite Z.sub_0_r. reflexivity.
Qed.

Lemma month_index_quarter_end (q : Z) :
  month_index (quarter_end q) = 3 * q + 2.
Proof.
  unfold month_index, quarter_end. cbn [year month].
  pose proof (Z.div_mod q 4). lia.
Qed.

Lemma quarter_end_month_end (q : Z) :
  quarter_end q = month_end (3 * q + 2) 0.
Proof.
  unfold quarter_end, month_end.
  assert (Y : (3 * q + 2) / 12 = q / 4) by (Z.div_mod_to_equations; lia).
  assert (M : (3 * q + 2) mod 12 + 1 = 3 * (q mod 4) + 3)
    by (Z.div_mod_to_equations; lia).
  now rewrite Y, M.
Qed.

Lemma range_from_month_end (n : nat) (m tm : Z) :
  range_from MonthEnd (month_end m tm) n
  = map (fun i => month_end (m + Z.of_nat i) tm) (seq 0 n).
Proof.
  revert m. induction n as [|n IH]; intros m; [reflexivity|].
  cbn [range_from seq map]. rewrite shift_month_end, IH.
  rewrite Z.add_0_r. f_equal.
  rewrite <- seq_shift, map_map. apply map_ext. intros i.
  f_equal. lia.
Qed.

Lemma length_range_from (f : freq) (t : timestamp) (n : nat) :
  List.length (range_from f t n) = n.
Proof.
  revert t. induction n as [|n IH]; intros t; [reflexivity|].
  cbn [range_from List.length]. now rewrite IH.
Qed.

(** ** The bounds *)

(** The quarters and the months whose last day, at midnight, a timestamp
    can hold: from the third quarter of 1677 to the first of 2262, from
    September 1677 to March 2262. *)
Definition min_quarter : Z := 6710.
Definition max_quarter : Z := 9048.
Definition min_month : Z := 20132.
Definition max_month : Z := 27146.

Lemma days_in_month_range (y m : Z) : 28 <= days_in_month y m <= 31.
Proof.
  unfold days_in_month.
  destruct (m =? 2); [destruct (is_leap y); lia|].
  destruct (_ || _); lia.
Qed.

Lemma in_bounds_month_end (m : Z) :
  in_bounds (month_end m 0) = (min_month <=? m) && (m <=? max_month).
Proof.
  unfold in_bounds, ts_leb, ts_compare, month_end, min_timestamp,
    max_timestamp, min_month, max_month.
  cbn [year month day time].
  pose proof (days_in_month_range (m / 12) (m mod 12 + 1)) as D.
  pose proof (Z.div_mod m 12). pose proof (Z.mod_pos_bound m 12).
  destruct (Z.leb_spec 20132 m); destruct (Z.leb_spec m 27146); cbn [andb];
    repeat match goal with
    | |- context [?a ?= ?b] => destruct (Z.compare_spec a b); try lia
    end; reflexivity.
Qed.

Lemma in_bounds_quarter_end (q : Z) :
  in_bounds (quarter_end q) = (min_quarter <=? q) && (q <=? max_quarter).
Proof.
  rewrite quarter_end_month_end, in_bounds_month_end.
  unfold min_quarter, max_quarter, min_month, max_month.
  destruct (Z.leb_spec 20132 (3 * q + 2)); destruct (Z.leb_spec 6710 q);
    try lia;
    destruct (Z.leb_spec (3 * q + 2) 27146); destruct (Z.leb_spec q 9048);
    try lia; reflexivity.
Qed.

Lemma plus_quarter_end (n q : Z) :
  plus QuarterEnd n (quarter_end q) =
  if (min_quarter <=? q + n) && (q + n <=? max_quarter)
  then Ok (quarter_end (q + n)) else Raise OutOfBoundsDatetime.
Proof.
  unfold plus, checked. now rewrite shift_quarter_end, in_bounds_quarter_end.
Qed.

Lemma plus_month_end (n m : Z) :
  plus MonthEnd n (month_end m 0) =
  if (min_month <=? m + n) && (m + n <=? max_month)
  then Ok (month_end (m + n) 0) else Raise OutOfBoundsDatetime.
Proof.
  unfold plus, checked. now rewrite shift_month_end, in_bounds_month_end.
Qed.

(** [date_range] from a quarter end and from a month end. *)
Lemma date_range_quarter_end (q steps : Z) :
  date_range (quarter_end q) steps QuarterEnd =
  if (min_quarter <=? q + (steps - 1)) && (q + (steps - 1) <=? max_quarter)
  then Ok (map (fun i => quarter_end (q + Z.of_nat i)) (seq 0 (Z.to_nat steps)))
  else Raise OutOfBoundsDatetime.
Proof.
  unfold date_range. rewrite quarter_end_on_offset. cbn [bind].
  rewrite plus_quarter_end. destruct (_ && _); [|reflexivity].
  cbn [bind]. now rewrite range_from_quarter_end.
Qed.

Lemma date_range_month_end (m steps : Z) :
  date_range (month_end m 0) steps MonthEnd =
  if (min_month <=? m + (steps - 1)) && (m + (steps - 1) <=? max_month)
  then Ok (map (fun i => month_end (m + Z.of_nat i) 0) (seq 0 (Z.to_nat steps)))
  else Raise OutOfBoundsDatetime.
Proof.
  unfold date_range. rewrite month_end_on_offset. cbn [bind].
  rewrite plus_month_end. destruct (_ && _); [|reflexivity].
  cbn [bind]. now rewrite range_from_month_end.
Qed.

(** The index [forecast_hpi] builds (lines 116-123), for a last date [t]. *)
Definition forecast_index (t : timestamp) (steps : Z)
  : result (list timestamp) :=
  try_except
    (next_q_end <- plus QuarterEnd 1 t ;;
     date_range next_q_end steps QuarterEnd)
    (fun _ =>
       start <- plus MonthEnd 1 t ;; date_range start steps MonthEnd).

Definition quarter_ends (q : Z) (n : nat) : list timestamp :=
  map (fun i => quarter_end (q + 1 + Z.of_nat i)) (seq 0 n).

Definition month_ends (m : Z) (n : nat) : list timestamp :=
  map (fun i => month_end (m + 1 + Z.of_nat i) 0) (seq 0 n).

(** From a quarter end before the last one: the quarter ends that follow
    if the last of them is within the bounds, the month ends that follow
    if the last of these is, and an error otherwise. *)
Lemma forecast_index_quarter_end (q steps : Z) :
  min_quarter <= q -> q < max_quarter ->
  forecast_index (quarter_end q) steps =
  if (min_quarter <=? q + steps) && (q + steps <=? max_quarter)
  then Ok (quarter_ends q (Z.to_nat steps))
  else if (min_month <=? 3 * q + 2 + steps) && (3 * q + 2 + steps <=? max_month)
  then Ok (month_ends (3 * q + 2) (Z.to_nat steps))
  else Raise OutOfBoundsDatetime.
Proof.
  intros Hlo Hhi. unfold forecast_index.
  rewrite plus_quarter_end.
  replace ((min_quarter <=? q + 1) && (q + 1 <=? max_quarter)) with true
    by (symmetry; apply andb_true_iff; split; apply Z.leb_le; lia).
  cbn [bind]. rewrite date_range_quarter_end.
  replace (q + 1 + (steps - 1)) with (q + steps) by lia.
  destruct ((min_quarter <=? q + steps) && (q + steps <=? max_quarter));
    [reflexivity|].
  cbn [try_except].
  rewrite quarter_end_month_end at 1. rewrite plus_month_end.
  replace ((min_month <=? 3 * q + 2 + 1) && (3 * q + 2 + 1 <=? max_month))
    with true
    by (symmetry; apply andb_true_iff; unfold min_quarter, max_quarter,
          min_month, max_month in *; split; apply Z.leb_le; lia).
  cbn [bind]. rewrite date_range_month_end.
  replace (3 * q + 2 + 1 + (steps - 1)) with (3 * q + 2 + steps) by lia.
  reflexivity.
Qed.

(** ** Series *)

Lemma iloc_last_snoc {A} (s : series A) (t : timestamp) (x : A) :
  iloc_last (s ++ [(t, x)]) = Ok x /\ index_last (s ++ [(t, x)]) = Ok t.
Proof. unfold iloc_last, index_last. rewrite rev_app_distr. now cbn. Qed.

Lemma nonempty_last {A} (s : series A) :
  s <> [] -> exists s' t x, s = s' ++ [(t, x)].
Proof.
  intros H. destruct (exists_last H) as (s' & [t x] & ->). now exists s', t, x.
Qed.

Lemma index_last_snoc {A} (s : series A) (t : timestamp) :
  index_last s = Ok t -> exists s' x, s = s' ++ [(t, x)].
Proof.
  intros H. destruct s as [|r s0]; [discriminate H|].
  destruct (nonempty_last (r :: s0)) as (s' & t' & x & E); [discriminate|].
  rewrite E in *. destruct (iloc_last_snoc s' t' x) as [_ E'].
  rewrite E' in H. injection H as ->. now exists s', x.
Qed.

Lemma iloc_last_empty {A} : @iloc_last A [] = Raise IndexError.
Proof. reflexivity. Qed.

Lemma last_raises {A} (s : series A) (e : exn) :
  (iloc_last s = Raise e -> e = IndexError) /\
  (index_last s = Raise e -> e = IndexError).
Proof.
  unfold iloc_last, index_last.
  destruct (rev s) as [|[t x] l]; split; congruence.
Qed.

Lemma nth_error_combine_range {A B} (f : nat -> A) (x : B) (n a i : nat) :
  (i < n)%nat ->
  nth_error (combine (map f (seq a n)) (repeat x n)) i = Some (f (a + i)%nat, x).
Proof.
  revert a i. induction n as [|n IH]; intros a i Hi; [lia|].
  destruct i as [|i]; cbn.
  - now rewrite Nat.add_0_r.
  - rewrite IH by lia. replace (S a + i)%nat with (a + S i)%nat by lia.
    reflexivity.
Qed.

Lemma combine_range_snoc {A B} (f : nat -> A) (x : B) (k a : nat) :
  combine (map f (seq a (S k))) (repeat x (S k))
  = combine (map f (seq a k)) (repeat x k) ++ [(f (a + k)%nat, x)].
Proof.
  revert a. induction k as [|k IH]; intros a.
  - cbn. now rewrite Nat.add_0_r.
  - change (seq a (S (S k))) with (a :: seq (S a) (S k)).
    change (repeat x (S (S k))) with (x :: repeat x (S k)).
    cbn [map combine]. rewrite IH. cbn [seq map repeat combine app].
    replace (S a + k)%nat with (a + S k)%nat by lia. reflexivity.
Qed.

Lemma set_index_unindexed {A} (xs : list A) (idx : list timestamp) :
  List.length xs = List.length idx ->
  set_index (unindexed xs) idx = Ok (combine idx xs).
Proof.
  intros H. unfold set_index, unindexed.
  rewrite length_map, H, Nat.eqb_refl, map_map. cbn [snd].
  now rewrite map_id.
Qed.

(** ** The order of timestamps *)

(** The order of timestamps, spelled out. *)
Definition ts_le (a b : timestamp) : Prop :=
  year a < year b \/
  (year a = year b /\
   (month a < month b \/
    (month a = month b /\
     (day a < day b \/ (day a = day b /\ time a <= time b))))).

Lemma ts_leb_le (a b : timestamp) : ts_leb a b = true <-> ts_le a b.
Proof.
  unfold ts_leb, ts_compare, ts_le.
  destruct (Z.compare_spec (year a) (year b));
    [|split; [lia | reflexivity] | split; [discriminate | lia]].
  destruct (Z.compare_spec (month a) (month b));
    [|split; [lia | reflexivity] | split; [discriminate | lia]].
  destruct (Z.compare_spec (day a) (day b));
    [|split; [lia | reflexivity] | split; [discriminate | lia]].
  destruct (Z.compare_spec (time a) (time b));
    (split; [intros; lia | intros; (reflexivity || lia)]).
Qed.

Lemma ts_ltb_false (a b : timestamp) : ts_ltb a b = false -> ts_le b a.
Proof.
  unfold ts_ltb, ts_compare, ts_le.
  destruct (Z.compare_spec (year a) (year b)); [|discriminate | lia].
  destruct (Z.compare_spec (month a) (month b)); [|discriminate | lia].
  destruct (Z.compare_spec (day a) (day b)); [|discriminate | lia].
  destruct (Z.compare_spec (time a) (time b)); [lia | discriminate | lia].
Qed.

Lemma ts_ltb_le (a b : timestamp) : ts_ltb a b = true -> ts_le a b.
Proof.
  intros H. apply ts_leb_le. unfold ts_ltb, ts_leb in *.
  now destruct (ts_compare a b).
Qed.

Lemma ts_le_not_ltb (a b : timestamp) : ts_le a b -> ts_ltb b a = false.
Proof.
  unfold ts_le, ts_ltb, ts_compare. intros H.
  destruct (Z.compare_spec (year b) (year a)); [|lia | reflexivity].
  destruct (Z.compare_spec (month b) (month a)); [|lia | reflexivity].
  destruct (Z.compare_spec (day b) (day a)); [|lia | reflexivity].
  destruct (Z.compare_spec (time b) (time a)); [reflexivity | lia | reflexivity].
Qed.

Lemma ts_le_trans (a b c : timestamp) : ts_le a b -> ts_le b c -> ts_le a c.
Proof. unfold ts_le. lia. Qed.

Lemma ts_le_refl (a : timestamp) : ts_le a a.
Proof. unfold ts_le. lia. Qed.

(** Rows in the order of their timestamps. *)
Definition in_order {A} (a b : timestamp * A) : Prop := ts_le (fst a) (fst b).

(** A month of the calendar. *)
Definition month_ok (t : timestamp) : Prop := 1 <= month t <= 12.

Lemma is_date_month (t : timestamp) : is_date t = true -> month_ok t.
Proof.
  unfold is_date, month_ok. intros H.
  do 4 (apply andb_true_iff in H; destruct H as [H _]).
  apply andb_true_iff in H. destruct H as [H1 H2].
  apply Z.leb_le in H1, H2. lia.
Qed.

Lemma is_timestamp_month (t : timestamp) : is_timestamp t = true -> month_ok t.
Proof.
  unfold is_timestamp. intros H. apply andb_true_iff in H.
  apply is_date_month, H.
Qed.

Lemma quarter_of_mono (a b : timestamp) :
  month_ok a -> month_ok b -> ts_le a b -> quarter_of a <= quarter_of b.
Proof.
  unfold month_ok, ts_le, quarter_of. intros Ha Hb H.
  Z.div_mod_to_equations. lia.
Qed.

Lemma quarter_end_mono (q q' : Z) :
  q <= q' -> ts_le (quarter_end q) (quarter_end q').
Proof.
  intros H. destruct (Z.eq_dec q q') as [->|N]; [apply ts_le_refl|].
  apply ts_ltb_le, quarter_end_lt. lia.
Qed.

Lemma quarter_end_is_date (q : Z) : is_date (quarter_end q) = true.
Proof.
  unfold is_date, quarter_end. cbn [year month day time].
  pose proof (days_in_month_range (q / 4) (3 * (q mod 4) + 3)).
  pose proof (Z.mod_pos_bound q 4).
  repeat (apply andb_true_iff; split);
    try apply Z.leb_le; try apply Z.ltb_lt; lia.
Qed.

(** The quarter of a timestamp is at least the first one; its end is
    within the bounds exactly when it is at most the last one. *)
Lemma is_timestamp_quarter (t : timestamp) :
  is_timestamp t = true -> min_quarter <= quarter_of t.
Proof.
  intros H. pose proof (is_timestamp_month t H) as M.
  unfold is_timestamp in H. apply andb_true_iff in H. destruct H as [_ H].
  unfold in_bounds in H. apply andb_true_iff in H. destruct H as [H _].
  apply ts_leb_le in H. unfold ts_le, min_timestamp in H.
  cbn [year month day time] in H.
  unfold month_ok in M. unfold min_quarter, quarter_of.
  Z.div_mod_to_equations. lia.
Qed.

Lemma to_quarter_end_checked (t : timestamp) :
  is_timestamp t = true ->
  checked (to_quarter_end t) =
  if quarter_of t <=? max_quarter then Ok (to_quarter_end t)
  else Raise OutOfBoundsDatetime.
Proof.
  intros H. pose proof (is_timestamp_quarter t H) as L.
  unfold checked, to_quarter_end. rewrite in_bounds_quarter_end.
  now replace (min_quarter <=? quarter_of t) with true
    by (symmetry; apply Z.leb_le; exact L).
Qed.

(** ** Sorting *)

Lemma insert_row_In {A} (r x : timestamp * A) (rs : list (timestamp * A)) :
  In r (insert_row x rs) <-> r = x \/ In r rs.
Proof.
  induction rs as [|r' rs IH]; cbn [insert_row].
  - cbn. intuition congruence.
  - destruct (ts_ltb (fst x) (fst r')); cbn [In]; [intuition congruence|].
    rewrite IH. intuition congruence.
Qed.

Lemma stable_sort_In {A} (r : timestamp * A) (rs : list (timestamp * A)) :
  In r (stable_sort rs) <-> In r rs.
Proof.
  unfold stable_sort.
  assert (G : forall acc,
            In r (fold_left (fun acc r => insert_row r acc) rs acc)
            <-> In r acc \/ In r rs).
  { induction rs as [|x rs IH]; intros acc; cbn [fold_left In].
    - tauto.
    - rewrite IH, insert_row_In. intuition congruence. }
  rewrite G. cbn. tauto.
Qed.

Lemma insert_row_Forall {A} (P : timestamp * A -> Prop)
    (r : timestamp * A) (rs : list (timestamp * A)) :
  P r -> Forall P rs -> Forall P (insert_row r rs).
Proof.
  intros Hr H. apply Forall_forall. intros x Hx.
  apply insert_row_In in Hx. destruct Hx as [-> | Hx]; [exact Hr|].
  rewrite Forall_forall in H. now apply H.
Qed.

Lemma insert_row_sorted {A} (r : timestamp * A) (rs : list (timestamp * A)) :
  StronglySorted in_order rs -> StronglySorted in_order (insert_row r rs).
Proof.
  induction rs as [|r' rs IH]; intros H; cbn [insert_row].
  - repeat constructor.
  - inversion H as [|? ? Hs Hf]; subst.
    destruct (ts_ltb (fst r) (fst r')) eqn:E.
    + constructor; [exact H|].
      apply ts_ltb_le in E. constructor; [exact E|].
      eapply Forall_impl; [|exact Hf].
      intros x Hx. unfold in_order in *. eapply ts_le_trans; eassumption.
    + constructor; [now apply IH|].
      apply insert_row_Forall; [|exact Hf].
      now apply ts_ltb_false.
Qed.

Lemma stable_sort_sorted {A} (rs : list (timestamp * A)) :
  StronglySorted in_order (stable_sort rs).
Proof.
  unfold stable_sort.
  assert (G : forall acc, StronglySorted in_order acc ->
                StronglySorted in_order
                  (fold_left (fun acc r => insert_row r acc) rs acc)).
  { induction rs as [|r rs IH]; intros acc H; [exact H|].
    cbn [fold_left]. apply IH. now apply insert_row_sorted. }
  apply G. constructor.
Qed.

Lemma sorted_strongly {A} (rs : list (timestamp * A)) :
  sorted (map fst rs) = true -> StronglySorted in_order rs.
Proof.
  induction rs as [|a rs IH]; intros H; [constructor|].
  cbn [map sorted] in H.
  destruct rs as [|b rs]; [repeat constructor|].
  cbn [map] in H. apply andb_true_iff in H. destruct H as [Hab Hs].
  specialize (IH Hs). constructor; [exact IH|].
  inversion IH as [|? ? _ Hf]; subst.
  apply ts_leb_le in Hab. constructor; [exact Hab|].
  eapply Forall_impl; [|exact Hf].
  intros x Hx. unfold in_order in *. eapply ts_le_trans; eassumption.
Qed.

Lemma take_In {A} (l : list A) (p : list nat) (x : A) :
  In x (take l p) <-> exists i, In i p /\ nth_error l i = Some x.
Proof.
  unfold take. rewrite in_flat_map. split; intros (i & Hi & H); exists i;
    (split; [exact Hi|]).
  - destruct (nth_error l i) as [y|]; [|contradiction].
    destruct H as [-> | []]. reflexivity.
  - rewrite H. now left.
Qed.

Lemma is_permutation_In (p : list nat) (n i : nat) :
  is_permutation p n = true -> (i < n)%nat -> In i p.
Proof.
  unfold is_permutation. intros H Hi.
  apply andb_true_iff in H. destruct H as [_ H].
  rewrite forallb_forall in H.
  specialize (H i). rewrite in_seq in H.
  assert (E : existsb (Nat.eqb i) p = true) by (apply H; lia).
  apply existsb_exists in E. destruct E as (j & Hj & E).
  apply Nat.eqb_eq in E. now subst.
Qed.

Lemma sort_rows_In {A} (argsort : list timestamp -> list nat)
    (r : timestamp * A) (rs : list (timestamp * A)) :
  In r (sort_rows argsort rs) <-> In r rs.
Proof.
  unfold sort_rows.
  destruct (is_permutation _ _ && _) eqn:E; [|apply stable_sort_In].
  apply andb_true_iff in E. destruct E as [P _].
  rewrite take_In. split.
  - intros (i & _ & H). eapply nth_error_In, H.
  - intros H. apply In_nth_error in H. destruct H as [i H]. exists i.
    split; [|exact H].
    apply (is_permutation_In _ _ _ P). apply nth_error_Some. congruence.
Qed.

Lemma sort_rows_sorted {A} (argsort : list timestamp -> list nat)
    (rs : list (timestamp * A)) :
  StronglySorted in_order (sort_rows argsort rs).
Proof.
  unfold sort_rows.
  destruct (is_permutation _ _ && _) eqn:E; [|apply stable_sort_sorted].
  apply andb_true_iff in E. destruct E as [_ S].
  now apply sorted_strongly.
Qed.

Lemma sort_rows_Forall {A} (argsort : list timestamp -> list nat)
    (P : timestamp * A -> Prop) (rs : list (timestamp * A)) :
  Forall P rs -> Forall P (sort_rows argsort rs).
Proof.
  intros H. apply Forall_forall. intros r Hr.
  apply sort_rows_In in Hr. rewrite Forall_forall in H. now apply H.
Qed.

Lemma combine_sorted {A} (idx : list timestamp) (vals : list A) :
  StronglySorted ts_le idx -> StronglySorted in_order (combine idx vals).
Proof.
  revert vals. induction idx as [|t idx IH]; intros vals H; [constructor|].
  destruct vals as [|x vals]; [constructor|].
  inversion H as [|? ? Hs Hf]; subst. cbn [combine].
  constructor; [now apply IH|].
  apply Forall_forall. intros [t' x'] Hin.
  apply in_combine_l in Hin. rewrite Forall_forall in Hf.
  exact (Hf t' Hin).
Qed.

Lemma map_fst_sorted {A} (rs : list (timestamp * A)) :
  StronglySorted in_order rs -> StronglySorted ts_le (map fst rs).
Proof.
  induction 1 as [|r rs Hs IH Hf]; cbn [map]; constructor; [exact IH|].
  apply Forall_forall. intros t Hin. apply in_map_iff in Hin.
  destruct Hin as (r' & <- & Hin). rewrite Forall_forall in Hf.
  exact (Hf r' Hin).
Qed.

Lemma combine_Forall_fst {A} (P : timestamp -> Prop)
    (idx : list timestamp) (vals : list A) :
  Forall P idx -> Forall (fun r => P (fst r)) (combine idx vals).
Proof.
  intros H. apply Forall_forall. intros [t x] Hin.
  apply in_combine_l in Hin. rewrite Forall_forall in H. exact (H t Hin).
Qed.

Lemma sorted_before_last {A} (s : list (timestamp * A)) (a : timestamp * A) :
  StronglySorted in_order (s ++ [a]) -> Forall (fun r => in_order r a) s.
Proof.
  induction s as [|r s IH]; intros H; [constructor|].
  cbn [app] in H. inversion H as [|? ? Hs Hf]; subst.
  constructor; [|now apply IH].
  rewrite Forall_forall in Hf. apply Hf. apply in_or_app. right. now left.
Qed.

(** ** Parsed dates are timestamps *)

Lemma first_of_month_timestamp (y m : Z) :
  1969 <= y <= 2068 -> 1 <= m <= 12 ->
  is_timestamp {| year := y; month := m; day := 1; time := 0 |} = true.
Proof.
  intros Y Hm. pose proof (days_in_month_range y m) as Dm.
  unfold is_timestamp, is_date, in_bounds. cbn [year month day time].
  repeat (apply andb_true_iff; split);
    try (apply Z.leb_le; lia); try (apply Z.ltb_lt; lia);
    apply ts_leb_le; unfold ts_le, min_timestamp, max_timestamp;
    cbn [year month day time]; lia.
Qed.

Lemma parse_b_y_timestamp (c : string) (t : timestamp) :
  parse_b_y c = Some t -> is_timestamp t = true.
Proof.
  unfold parse_b_y.
  destruct (chars c) as [|a1 [|a2 [|a3 [|a4 [|a5 [|a6 [|a7 l]]]]]]];
    try discriminate.
  destruct (_ && _) eqn:D; [|discriminate].
  apply andb_true_iff in D. destruct D as [D D6].
  apply andb_true_iff in D. destruct D as [_ D5].
  assert (R : forall c, is_digit c = true -> 0 <= digit_val c <= 9).
  { intros ch H. unfold is_digit, digit_val in *.
    apply andb_true_iff in H. destruct H as [H1 H2].
    apply Nat.leb_le in H1, H2. lia. }
  pose proof (R a5 D5) as R5. pose proof (R a6 D6) as R6.
  destruct (month_of_abbrev _) as [m|] eqn:M; [|discriminate].
  assert (Hm : 1 <= m <= 12).
  { unfold month_of_abbrev in M.
    repeat match type of M with
    | (if ?b then _ else _) = _ => destruct b
    end; try discriminate; injection M as <-; lia. }
  intros E.
  apply (f_equal (fun o => match o with
                           | Some x => is_timestamp x
                           | None => true
                           end)) in E.
  rewrite <- E. apply first_of_month_timestamp; [|exact Hm].
  destruct (Z.leb_spec (10 * digit_val a5 + digit_val a6) 68); lia.
Qed.

Lemma to_quarter_ends_Ok (idx qs : list timestamp) :
  to_quarter_ends idx = Ok qs ->
  qs = map to_quarter_end idx /\
  Forall (fun t => in_bounds (to_quarter_end t) = true) idx.
Proof.
  revert qs. induction idx as [|t idx IH]; intros qs; cbn [to_quarter_ends].
  - intros [= <-]. split; [reflexivity | constructor].
  - unfold checked. destruct (in_bounds (to_quarter_end t)) eqn:B;
      cbn [bind]; [|discriminate].
    destruct (to_quarter_ends idx) as [qs'|e]; cbn [bind]; [|discriminate].
    intros [= <-]. destruct (IH qs' eq_refl) as [-> F].
    split; [reflexivity | now constructor].
Qed.

Lemma to_quarter_ends_Raise (idx : list timestamp) (e : exn) :
  to_quarter_ends idx = Raise e ->
  exists t, In t idx /\ in_bounds (to_quarter_end t) = false.
Proof.
  revert e. induction idx as [|t idx IH]; intros e; cbn [to_quarter_ends];
    [discriminate|].
  unfold checked. destruct (in_bounds (to_quarter_end t)) eqn:B; cbn [bind].
  - destruct (to_quarter_ends idx) as [qs'|e']; cbn [bind]; [discriminate|].
    intros _. destruct (IH e' eq_refl) as (t' & Hin & Hb).
    exists t'. split; [now right | exact Hb].
  - intros _. exists t. split; [now left | exact B].
Qed.

(** ** The statements as functions of the state *)

Section Engine.

Variable W : world.

(** The series after lines 70-77: with its index at the quarter ends, or,
    when a quarter ends beyond the bounds, sorted again as it is. *)
Definition cached (s : series pyfloat) : series pyfloat :=
  match to_quarter_ends (map fst s) with
  | Ok idx => combine idx (map snd s)
  | Raise _ => sort_rows (argsort W) s
  end.

(** The index after line 74, when the assignment succeeds. *)
Definition snap (s : series pyfloat) : series pyfloat :=
  map (fun r => (to_quarter_end (fst r), snd r)) s.

(** The model after lines 80-90. *)
Definition fit_of (s : series pyfloat) (order : Z * Z * Z)
  : option (fitted W) :=
  if _HAS_ARIMA W then arima_fit W s order else None.

(** The outcome of a load that got as far as its prints: line 92 writes a
    check mark. *)
Definition printed : result bool :=
  if stdout_encodes W then Ok true else Raise UnicodeEncodeError.

Lemma load_hpi_and_fit_eq (path : string) (order : Z * Z * Z) (st : state W) :
  load_hpi_and_fit W path order st =
  match read_series W path with
  | Ok s => (printed, {| _hpi_series := Some (cached s);
                         _model_fit := fit_of (cached s) order |})
  | Raise e => (Raise e, st)
  end.
Proof.
  unfold load_hpi_and_fit, mbind, lift, fit_of, try_, the_series, set_series,
    set_model, ret, print_unicode, printed, cached.
  destruct (read_series W path) as [s|e]; [|reflexivity].
  cbn [_hpi_series _model_fit].
  destruct (to_quarter_ends (map fst s)) as [idx|e]; cbn [_hpi_series];
    (destruct (_HAS_ARIMA W); cbn [_hpi_series called];
     [ match goal with |- context [arima_fit W ?x order] =>
         destruct (arima_fit W x order) end |];
     destruct (stdout_encodes W); reflexivity).
Qed.

Lemma snap_combine (ds : list timestamp) (xs : list pyfloat) :
  snap (combine ds xs) = combine (map to_quarter_end ds) xs.
Proof.
  revert xs. induction ds as [|t ds IH]; intros xs; [reflexivity|].
  destruct xs as [|x xs]; [reflexivity|].
  cbn [combine map snap fst snd]. f_equal. apply IH.
Qed.

Lemma combine_fst_snd {A B} (l : list (A * B)) :
  combine (map fst l) (map snd l) = l.
Proof.
  induction l as [|[a b] l IH]; [reflexivity|]. cbn. now rewrite IH.
Qed.

(** Within the bounds the cached series is the one read, snapped. *)
Lemma cached_snap (s : series pyfloat) :
  Forall (fun r => in_bounds (to_quarter_end (fst r)) = true) s ->
  cached s = snap s.
Proof.
  intros H. unfold cached.
  assert (E : to_quarter_ends (map fst s) = Ok (map to_quarter_end (map fst s))).
  { induction H as [|r s Hr _ IH]; [reflexivity|].
    cbn [map to_quarter_ends]. unfold checked. rewrite Hr. cbn [bind].
    now rewrite IH. }
  rewrite E. rewrite <- snap_combine. now rewrite combine_fst_snd.
Qed.

Lemma forecast_index_eq (t : timestamp) (steps : Z) (st : state W) :
  try_ W (mbind W (lift W (plus QuarterEnd 1 t))
            (fun next_q_end => lift W (date_range next_q_end steps QuarterEnd)))
       (fun _ => mbind W (lift W (plus MonthEnd 1 t))
                   (fun start => lift W (date_range start steps MonthEnd)))
       st
  = (forecast_index t steps, st).
Proof.
  unfold try_, mbind, lift, forecast_index, try_except.
  destruct (plus QuarterEnd 1 t) as [q|e]; cbn [bind].
  - destruct (date_range q steps QuarterEnd); [reflexivity|].
    destruct (plus MonthEnd 1 t); reflexivity.
  - destruct (plus MonthEnd 1 t); reflexivity.
Qed.

Lemma forecast_hpi_unloaded (steps : Z) (st : state W) :
  _hpi_series st = None -> forecast_hpi W steps st = (Raise RuntimeError, st).
Proof.
  intros H. unfold forecast_hpi, mbind, get_series. rewrite H. reflexivity.
Qed.

Lemma forecast_hpi_degraded (steps : Z) (st : state W) (s : series pyfloat) :
  _hpi_series st = Some s -> _model_fit st = None ->
  forecast_hpi W steps st =
  (last <- iloc_last s ;;
   last_date <- index_last s ;;
   idx <- forecast_index last_date steps ;;
   fc <- set_index (unindexed (repeat last (Z.to_nat steps))) idx ;;
   Ok (fc, None),
   st).
Proof.
  intros Hs Hm. unfold forecast_hpi, mbind at 1, get_series. rewrite Hs.
  unfold mbind at 1, get_model. rewrite Hm.
  unfold mbind at 1. unfold mbind at 1, lift at 1.
  destruct (iloc_last s) as [last|e]; [|reflexivity].
  cbn [ret bind]. unfold mbind at 1, lift at 1.
  destruct (index_last s) as [t|e]; [|reflexivity].
  cbn [bind]. unfold mbind at 1. rewrite forecast_index_eq.
  destruct (forecast_index t steps) as [idx|e]; [|reflexivity].
  cbn [bind fst snd option_map]. unfold mbind, lift.
  destruct (set_index _ idx); reflexivity.
Qed.

Lemma forecast_hpi_fitted (steps : Z) (st : state W) (s : series pyfloat)
    (m : fitted W) :
  _hpi_series st = Some s -> _model_fit st = Some m ->
  forecast_hpi W steps st =
  (res <- called "get_forecast" (get_forecast W m steps) ;;
   last_date <- index_last s ;;
   idx <- forecast_index last_date steps ;;
   fc <- set_index (fst res) idx ;;
   Ok (fc, Some (match set_index (snd res) idx with
                 | Ok ci => ci
                 | Raise _ => snd res
                 end)),
   st).
Proof.
  intros Hs Hm. unfold forecast_hpi, mbind at 1, get_series. rewrite Hs.
  unfold mbind at 1, get_model. rewrite Hm.
  unfold mbind at 1. unfold mbind at 1, lift at 1.
  destruct (called _ _) as [res|e]; [|reflexivity].
  cbn [ret bind]. unfold mbind at 1, lift at 1.
  destruct (index_last s) as [t|e]; [|reflexivity].
  cbn [bind]. unfold mbind at 1. rewrite forecast_index_eq.
  destruct (forecast_index t steps) as [idx|e]; [|reflexivity].
  cbn [bind fst snd option_map]. unfold mbind, lift.
  destruct (set_index (fst res) idx); reflexivity.
Qed.

(** [forecast_hpi] only reads the globals. *)
Lemma forecast_hpi_state (steps : Z) (st : state W) :
  snd (forecast_hpi W steps st) = st.
Proof.
  destruct (_hpi_series st) as [s|] eqn:Hs.
  - destruct (_model_fit st) as [m|] eqn:Hm.
    + now rewrite (forecast_hpi_fitted steps st s m Hs Hm).
    + now rewrite (forecast_hpi_degraded steps st s Hs Hm).
  - now rewrite forecast_hpi_unloaded.
Qed.

(** ** Histories of load calls *)

(** The outcomes of a sequence of [load_hpi_and_fit] calls and the state
    they leave. *)
Fixpoint loads (calls : list (string * (Z * Z * Z))) (st : state W)
  : list (result bool) * state W :=
  match calls with
  | [] => ([], st)
  | (path, order) :: calls' =>
      let (o, st') := load_hpi_and_fit W path order st in
      let (os, st'') := loads calls' st' in
      (o :: os, st'')
  end.

(** A state the module can be in: the one left by some calls, from the
    initial one. *)
Definition reachable (st : state W) : Prop :=
  exists calls, snd (loads calls (initial W)) = st.

Definition succeeded (o : result bool) : Prop := o = Ok true.

(** A call that cached a series: one that returned, or one whose print
    raised, which is after the series is cached. *)
Definition committed (o : result bool) : Prop :=
  o = Ok true \/ o = Raise UnicodeEncodeError.

(** ** What is cached *)

Lemma dated_rows_Forall (P : timestamp -> Prop)
    (ds : list (option timestamp)) (i : nat) :
  Forall (fun o => forall t, o = Some t -> P t) ds ->
  Forall (fun r : timestamp * nat => P (fst r)) (dated_rows i ds).
Proof.
  revert i. induction ds as [|[t|] ds IH]; intros i H; cbn [dated_rows];
    inversion H; subst; [constructor | constructor; auto | auto].
Qed.

Lemma parse_dates_timestamps (cells : list string) :
  Forall (fun o => forall t, o = Some t -> is_timestamp t = true)
         (parse_dates W cells).
Proof.
  unfold parse_dates.
  destruct (existsb _ _); apply Forall_forall; intros o Hin;
    apply in_map_iff in Hin; destruct Hin as (c & <- & _); intros t Ht.
  - unfold coerce in Ht. destruct (to_datetime_any W c) as [t'|];
      [|discriminate].
    destruct (is_timestamp t') eqn:E; [|discriminate].
    now injection Ht as <-.
  - exact (parse_b_y_timestamp c t Ht).
Qed.

(** A series as it is read: timestamps in order. *)
Definition chronological (s : series pyfloat) : Prop :=
  Forall (fun r => is_timestamp (fst r) = true) s /\
  StronglySorted in_order s.

Lemma read_series_chronological (path : string) (s : series pyfloat) :
  read_series W path = Ok s -> chronological s.
Proof.
  unfold read_series.
  destruct (negb (path_exists W _)); [discriminate|].
  destruct (called "read_csv" _) as [df|]; cbn [bind]; [|discriminate].
  destruct (detect_date_col df) as [dc|]; cbn [bind]; [|discriminate].
  destruct (column_of df dc) as [dates|]; cbn [bind]; [|discriminate].
  destruct (detect_hpi_col _) as [hc|]; cbn [bind]; [|discriminate].
  destruct (column_of _ hc) as [col|]; cbn [bind]; [|discriminate].
  destruct (astype_float col) as [vals|]; cbn [bind]; [|discriminate].
  intros [= <-].
  set (rows := sort_rows (argsort W) (dated_rows 0 _)).
  assert (Hs : StronglySorted in_order rows) by apply sort_rows_sorted.
  assert (Hm : Forall (fun r : timestamp * nat => is_timestamp (fst r) = true)
                      rows).
  { apply sort_rows_Forall.
    apply (dated_rows_Forall (fun t => is_timestamp t = true)).
    apply parse_dates_timestamps. }
  split.
  - apply (combine_Forall_fst (fun t => is_timestamp t = true)).
    apply Forall_forall. intros t Hin.
    apply in_map_iff in Hin. destruct Hin as (r & <- & Hin).
    rewrite Forall_forall in Hm. exact (Hm r Hin).
  - apply combine_sorted, map_fst_sorted, Hs.
Qed.

Lemma snap_sorted (s : series pyfloat) :
  Forall (fun r => month_ok (fst r)) s ->
  StronglySorted in_order s -> StronglySorted in_order (snap s).
Proof.
  intros Hm Hs. induction Hs as [|r rs Hs IH Hf]; cbn [snap map];
    [constructor|].
  inversion Hm as [|? ? Hr Hrs]; subst.
  constructor; [now apply IH|].
  apply Forall_forall. intros r' Hin. apply in_map_iff in Hin.
  destruct Hin as (r0 & <- & Hin). unfold in_order. cbn [fst].
  rewrite Forall_forall in Hf, Hrs.
  apply quarter_end_mono, quarter_of_mono; auto. exact (Hf r0 Hin).
Qed.

(** A cached series: timestamps in order, all of them quarter ends unless
    one of them lies in a quarter that ends beyond the bounds. *)
Definition well_kept (s : series pyfloat) : Prop :=
  chronological s /\
  (Forall (fun r => fst r = to_quarter_end (fst r)) s \/
   exists r, In r s /\ max_quarter < quarter_of (fst r)).

Lemma cached_well_kept (s : series pyfloat) :
  chronological s -> well_kept (cached s).
Proof.
  intros [Ht Hs].
  assert (Hm : Forall (fun r => month_ok (fst r)) s).
  { eapply Forall_impl; [|exact Ht]. intros r. apply is_timestamp_month. }
  unfold cached. destruct (to_quarter_ends (map fst s)) as [idx|e] eqn:E.
  - apply to_quarter_ends_Ok in E. destruct E as [-> B].
    rewrite <- snap_combine, combine_fst_snd.
    split; [split|].
    + apply Forall_forall. intros r Hr. unfold snap in Hr.
      apply in_map_iff in Hr. destruct Hr as (r0 & <- & Hr0). cbn [fst].
      rewrite Forall_forall in B.
      unfold is_timestamp, to_quarter_end. rewrite quarter_end_is_date.
      apply B. apply in_map_iff. now exists r0.
    + now apply snap_sorted.
    + left. apply Forall_forall. intros r Hr. unfold snap in Hr.
      apply in_map_iff in Hr. destruct Hr as (r0 & <- & _). cbn [fst].
      symmetry. apply to_quarter_end_idem.
  - apply to_quarter_ends_Raise in E. destruct E as (t & Hin & Hb).
    apply in_map_iff in Hin. destruct Hin as (r & <- & Hin).
    split; [split|].
    + now apply sort_rows_Forall.
    + apply sort_rows_sorted.
    + right. exists r. split; [now apply sort_rows_In|].
      rewrite Forall_forall in Ht. specialize (Ht r Hin).
      pose proof (to_quarter_end_checked (fst r) Ht) as C.
      unfold checked in C. rewrite Hb in C.
      destruct (Z.leb_spec (quarter_of (fst r)) max_quarter);
        [discriminate | assumption].
Qed.

Definition kept (st : state W) : Prop :=
  forall s, _hpi_series st = Some s -> well_kept s.

Lemma load_kept (path : string) (order : Z * Z * Z) (st : state W) :
  kept st -> kept (snd (load_hpi_and_fit W path order st)).
Proof.
  intros H. rewrite load_hpi_and_fit_eq.
  destruct (read_series W path) as [s|e] eqn:E; [|exact H].
  intros s' [= <-]. apply cached_well_kept.
  exact (read_series_chronological path s E).
Qed.

Lemma loads_kept (calls : list (string * (Z * Z * Z))) (st : state W) :
  kept st -> kept (snd (loads calls st)).
Proof.
  revert st. induction calls as [|[path order] calls IH]; intros st H;
    [exact H|].
  cbn [loads]. pose proof (load_kept path order st H) as H'.
  destruct (load_hpi_and_fit W path order st) as [o st'].
  specialize (IH st' H'). destruct (loads calls st') as [os st''].
  exact IH.
Qed.

Lemma reachable_kept (st : state W) : reachable st -> kept st.
Proof.
  intros [calls <-]. apply loads_kept. intros s H. discriminate H.
Qed.

(** The last date of a cached series is a quarter end within the bounds
    as soon as its quarter is not beyond the last one. *)
Lemma reachable_last_aligned (st : state W)
    (s : series pyfloat) (t : timestamp) (x : pyfloat) :
  reachable st -> _hpi_series st = Some (s ++ [(t, x)]) ->
  quarter_of t <= max_quarter ->
  t = quarter_end (quarter_of t) /\ min_quarter <= quarter_of t.
Proof.
  intros R Hs Hq. destruct (reachable_kept st R _ Hs) as [[Ht Ho] A].
  assert (Tt : is_timestamp t = true).
  { rewrite Forall_forall in Ht. apply (Ht (t, x)).
    apply in_or_app. right. now left. }
  split; [|now apply is_timestamp_quarter].
  destruct A as [A | (r & Hin & Hr)].
  - rewrite Forall_forall in A. apply (A (t, x)).
    apply in_or_app. right. now left.
  - exfalso.
    assert (Q : quarter_of (fst r) <= quarter_of t).
    { apply in_app_or in Hin. destruct Hin as [Hin | [<- | []]]; [|cbn; lia].
      apply sorted_before_last in Ho. rewrite Forall_forall in Ho, Ht.
      apply quarter_of_mono.
      - apply is_timestamp_month, Ht. apply in_or_app. now left.
      - now apply is_timestamp_month.
      - exact (Ho r Hin). }
    lia.
Qed.

Lemma loads_stay_loaded (calls : list (string * (Z * Z * Z))) (st : state W) :
  _hpi_series st <> None -> _hpi_series (snd (loads calls st)) <> None.
Proof.
  revert st. induction calls as [|[path order] calls IH]; intros st H;
    [exact H|].
  cbn [loads].
  assert (H' : _hpi_series (snd (load_hpi_and_fit W path order st)) <> None).
  { rewrite load_hpi_and_fit_eq.
    destruct (read_series W path); [discriminate | exact H]. }
  destruct (load_hpi_and_fit W path order st) as [o st'].
  specialize (IH st' H'). destruct (loads calls st') as [os st''].
  exact IH.
Qed.

Lemma printed_committed : committed printed.
Proof. unfold committed, printed. destruct (stdout_encodes W); auto. Qed.

(** Reading raises no [UnicodeEncodeError]: the prints come after it. *)
Lemma read_series_raises (path : string) (e : exn) :
  read_series W path = Raise e -> e <> UnicodeEncodeError.
Proof.
  unfold read_series.
  destruct (negb (path_exists W _)); [intros [= <-]; discriminate|].
  destruct (read_csv W _) as [df|]; cbn [called bind];
    [|intros [= <-]; discriminate].
  unfold detect_date_col.
  destruct (if has_column df "Quarter" then _ else _) as [dc|e0] eqn:D;
    cbn [bind].
  2:{ destruct (has_column df "Quarter"); [discriminate|].
      destruct (has_column df "Date"); [discriminate|].
      injection D as <-. intros [= <-]. discriminate. }
  unfold column_of at 1.
  destruct (get_column df dc); cbn [bind]; [|intros [= <-]; discriminate].
  unfold detect_hpi_col.
  match goal with |- context [bind ?x _] => destruct x as [hc|e0] eqn:H end;
    cbn [bind].
  2:{ repeat match type of H with
      | (if ?b then _ else _) = _ => destruct b; try discriminate
      | match ?l with _ => _ end = _ => destruct l; try discriminate
      end. injection H as <-. intros [= <-]. discriminate. }
  unfold column_of.
  match goal with |- context [get_column ?d hc] => destruct (get_column d hc) end;
    cbn [bind]; [|intros [= <-]; discriminate].
  match goal with |- context [astype_float ?c] =>
    destruct (astype_float c) as [vals|e0] eqn:A end; cbn [bind];
    [discriminate|].
  intros [= <-]. intros ->.
  match type of A with astype_float ?c = _ => destruct c as [xs|xs] end;
    [discriminate|]. cbn [astype_float] in A.
  revert A. clear. revert xs.
  assert (G : forall xs r, floats_of_cells xs = r ->
                           r <> Raise UnicodeEncodeError).
  { induction xs as [|[x|] xs IH]; intros r; cbn [floats_of_cells].
    - intros <-. discriminate.
    - unfold float. destruct (float_of_str x); cbn [bind];
        try (intros <-; discriminate);
        destruct (floats_of_cells xs) as [ys|e'] eqn:E; cbn [bind];
        intros <-; try discriminate; apply (IH _ eq_refl).
    - destruct (floats_of_cells xs) as [ys|e'] eqn:E; cbn [bind];
        intros <-; try discriminate; apply (IH _ eq_refl). }
  intros xs A. exact (G xs _ A eq_refl).
Qed.

(** Nothing is cached exactly when no call has cached a series. *)
Lemma loads_unloaded_iff (calls : list (string * (Z * Z * Z))) (st : state W) :
  _hpi_series st = None ->
  (_hpi_series (snd (loads calls st)) = None
   <-> Forall (fun o => ~ committed o) (fst (loads calls st))).
Proof.
  revert st. induction calls as [|[path order] calls IH]; intros st H.
  - cbn. split; [constructor | intros _; exact H].
  - cbn [loads]. pose proof (load_hpi_and_fit_eq path order st) as E.
    destruct (read_series W path) as [s|e] eqn:Er.
    + rewrite E.
      pose proof (loads_stay_loaded calls
                    {| _hpi_series := Some (cached s);
                       _model_fit := fit_of (cached s) order |}) as L.
      destruct (loads calls _) as [os st'']. cbn [fst snd] in *.
      split.
      * intros C. exfalso. apply L; [discriminate | exact C].
      * intros F. inversion F as [|o l Ho _]; subst.
        exfalso. apply Ho. apply printed_committed.
    + rewrite E. specialize (IH st H).
      destruct (loads calls st) as [os st'']. cbn [fst snd] in *.
      rewrite IH. split.
      * intros F. constructor; [|exact F].
        intros [C | C]; [discriminate C|].
        injection C as ->. now apply (read_series_raises path _ Er).
      * intros F. now inversion F.
Qed.

(** ** A failed load *)

(** The path of line 27. *)
Definition resolve (csv_path : string) : string :=
  if negb (isabs csv_path) then path_join (base W) csv_path else csv_path.

Lemma has_column_get (df : dataframe) (name : string) :
  has_column df name = true -> exists c, column_of df name = Ok c.
Proof.
  unfold has_column, column_of, get_column. intros H.
  apply existsb_exists in H. destruct H as (c & Hin & Hc).
  destruct (find _ df) as [c'|] eqn:F; [now exists (snd c')|].
  exfalso. pose proof (find_none _ _ F c Hin) as N. cbn in N. congruence.
Qed.

Lemma detect_date_col_get (df : dataframe) (name : string) :
  detect_date_col df = Ok name -> exists c, column_of df name = Ok c.
Proof.
  unfold detect_date_col.
  destruct (has_column df "Quarter") eqn:Q;
    [intros [= <-]; now apply has_column_get|].
  destruct (has_column df "Date") eqn:D;
    [intros [= <-]; now apply has_column_get | discriminate].
Qed.

Lemma has_column_take_rows (rows : list nat) (df : dataframe) (name : string) :
  has_column (map (fun c => (fst c, take_rows rows (snd c))) df) name
  = has_column df name.
Proof.
  unfold has_column. induction df as [|c df IH]; [reflexivity|].
  cbn [map existsb fst]. now rewrite IH.
Qed.

Lemma numeric_take_rows (rows : list nat) (df : dataframe) :
  forallb (fun c => negb (is_numeric_dtype (snd c))) df = true ->
  filter (fun c => is_numeric_dtype (snd c))
         (map (fun c => (fst c, take_rows rows (snd c))) df) = [].
Proof.
  induction df as [|[name c] df IH]; [reflexivity|].
  cbn [forallb map filter fst snd]. intros H.
  apply andb_true_iff in H. destruct H as [Hc Hdf].
  destruct c; cbn in *; [discriminate | now apply IH].
Qed.

(** C9: a load that raises before line 70 leaves the cached series and
    model as they were, and that is every raise but the
    [UnicodeEncodeError] of one of the prints, which come after the
    assignments.  It is the case when the file does not exist
    ([FileNotFoundError]), when the table has neither a "Quarter" nor a
    "Date" column ([KeyError]), and when it has no "ALL", no "HPI" and no
    numeric column ([KeyError]). *)
Theorem failed_load_commits_nothing
    (path : string) (order : Z * Z * Z) (st : state W) :
  (forall e st',
      load_hpi_and_fit W path order st = (Raise e, st') ->
      e <> UnicodeEncodeError -> st' = st) /\
  (path_exists W (resolve path) = false ->
   load_hpi_and_fit W path order st = (Raise FileNotFoundError, st)) /\
  (forall df,
      path_exists W (resolve path) = true ->
      read_csv W (resolve path) = Some df ->
      has_column df "Quarter" = false -> has_column df "Date" = false ->
      load_hpi_and_fit W path order st = (Raise KeyError, st)) /\
  (forall df date_col,
      path_exists W (resolve path) = true ->
      read_csv W (resolve path) = Some df ->
      detect_date_col df = Ok date_col ->
      has_column (drop_column df date_col) "ALL" = false ->
      has_column (drop_column df date_col) "HPI" = false ->
      forallb (fun c => negb (is_numeric_dtype (snd c)))
              (drop_column df date_col) = true ->
      load_hpi_and_fit W path order st = (Raise KeyError, st)).
Proof.
  rewrite load_hpi_and_fit_eq.
  split; [|unfold read_series; fold (resolve path); split; [|split]].
  - intros e st'. destruct (read_series W path).
    + unfold printed. destruct (stdout_encodes W); [discriminate|].
      intros [= <- _] N. now contradiction N.
    + now intros [= _ <-].
  - intros ->. reflexivity.
  - intros df -> -> Q D. cbn [negb called bind].
    unfold detect_date_col. rewrite Q, D. reflexivity.
  - intros df date_col -> -> Hd A H N. cbn [negb called bind].
    rewrite Hd. cbn [bind].
    destruct (detect_date_col_get df date_col Hd) as [c ->]. cbn [bind].
    unfold detect_hpi_col.
    rewrite !has_column_take_rows, A, H, numeric_take_rows by exact N.
    reflexivity.
Qed.

(** ** Forecasting *)

(** The naive forecast after a history that ends with [last] in the
    quarter [q]. *)
Definition naive_forecast (q : Z) (last : pyfloat) (steps : Z)
  : series pyfloat :=
  combine (quarter_ends q (Z.to_nat steps)) (repeat last (Z.to_nat steps)).

(** The index after a cached series that ends at [t], when the quarter of
    [t] is before the last one. *)
Lemma reachable_forecast_index (st : state W)
    (s : series pyfloat) (t : timestamp) (x : pyfloat) (steps : Z) :
  reachable st -> _hpi_series st = Some (s ++ [(t, x)]) ->
  quarter_of t < max_quarter ->
  forecast_index t steps =
  if (min_quarter <=? quarter_of t + steps)
     && (quarter_of t + steps <=? max_quarter)
  then Ok (quarter_ends (quarter_of t) (Z.to_nat steps))
  else if (min_month <=? 3 * quarter_of t + 2 + steps)
          && (3 * quarter_of t + 2 + steps <=? max_month)
  then Ok (month_ends (3 * quarter_of t + 2) (Z.to_nat steps))
  else Raise OutOfBoundsDatetime.
Proof.
  intros R Hs Hq.
  destruct (reachable_last_aligned st s t x R Hs) as [Ht Hlo]; [lia|].
  rewrite Ht at 1. now apply forecast_index_quarter_end.
Qed.

Lemma forecast_hpi_naive (steps : Z) (st : state W)
    (s : series pyfloat) (t : timestamp) (last : pyfloat) :
  reachable st ->
  _hpi_series st = Some (s ++ [(t, last)]) -> _model_fit st = None ->
  quarter_of t < max_quarter ->
  min_quarter <= quarter_of t + steps <= max_quarter ->
  forecast_hpi W steps st
  = (Ok (naive_forecast (quarter_of t) last steps, None), st).
Proof.
  intros R Hs Hm Hq Hsteps.
  rewrite (forecast_hpi_degraded steps st _ Hs Hm).
  destruct (iloc_last_snoc s t last) as [-> ->]. cbn [bind].
  rewrite (reachable_forecast_index st s t last steps R Hs Hq).
  replace ((min_quarter <=? quarter_of t + steps)
           && (quarter_of t + steps <=? max_quarter)) with true
    by (symmetry; apply andb_true_iff; split; apply Z.leb_le; lia).
  cbn [bind]. rewrite set_index_unindexed; [reflexivity|].
  unfold quarter_ends. now rewrite repeat_length, length_map, length_seq.
Qed.

(** C7, amended: in the Degraded state, for every loaded series that ends
    at [t] and every [steps >= 1] such that the last of the [steps]
    quarters after the quarter of [t] is not after the first quarter of
    2262, [forecast_hpi] returns exactly [steps] points, each with the last
    observed value, no confidence bounds, and the quarter ends of those
    [steps] quarters, in strictly increasing order. *)
Theorem degraded_forecast_repeats_last
    (st : state W) (s : series pyfloat) (t : timestamp) (steps : Z) :
  reachable st ->
  _hpi_series st = Some s -> index_last s = Ok t ->
  _model_fit st = None ->
  1 <= steps -> quarter_of t + steps <= max_quarter ->
  exists last fc,
    iloc_last s = Ok last /\
    forecast_hpi W steps st = (Ok (fc, None), st) /\
    Z.of_nat (List.length fc) = steps /\
    (forall i, (i < Z.to_nat steps)%nat ->
       nth_error fc i
       = Some (quarter_end (quarter_of t + 1 + Z.of_nat i), last)) /\
    (forall i j a b, (i < j)%nat ->
       nth_error fc i = Some a -> nth_error fc j = Some b ->
       ts_ltb (fst a) (fst b) = true).
Proof.
  intros R Hs Hi Hm Hsteps Hq.
  destruct (index_last_snoc s t Hi) as (s' & last & ->).
  destruct (reachable_last_aligned st s' t last R Hs) as [Ht Hlo]; [lia|].
  exists last. eexists.
  split; [apply iloc_last_snoc|].
  split; [apply (forecast_hpi_naive steps st s' t last R Hs Hm); lia|].
  unfold naive_forecast, quarter_ends.
  assert (Hnth : forall i, (i < Z.to_nat steps)%nat ->
            nth_error
              (combine (map (fun i => quarter_end (quarter_of t + 1 + Z.of_nat i))
                            (seq 0 (Z.to_nat steps)))
                       (repeat last (Z.to_nat steps))) i
            = Some (quarter_end (quarter_of t + 1 + Z.of_nat i), last)).
  { intros i Hi'.
    now rewrite (nth_error_combine_range
                   (fun i => quarter_end (quarter_of t + 1 + Z.of_nat i))
                   last (Z.to_nat steps) 0 i Hi'). }
  assert (Hlen : List.length
            (combine (map (fun i => quarter_end (quarter_of t + 1 + Z.of_nat i))
                          (seq 0 (Z.to_nat steps)))
                     (repeat last (Z.to_nat steps))) = Z.to_nat steps).
  { rewrite length_combine, length_map, length_seq, repeat_length. lia. }
  split; [rewrite Hlen; lia|]. split; [exact Hnth|].
  intros i j a b Hij Ha Hb.
  assert (Hj : (j < Z.to_nat steps)%nat).
  { rewrite <- Hlen. apply nth_error_Some. congruence. }
  rewrite Hnth in Ha, Hb by lia.
  injection Ha as <-. injection Hb as <-. cbn [fst].
  apply quarter_end_lt. lia.
Qed.

Lemma forecast_index_raises (t : timestamp) (steps : Z) (e : exn) :
  forecast_index t steps = Raise e -> e = OutOfBoundsDatetime.
Proof.
  assert (P : forall f n t0 e0, plus f n t0 = Raise e0 ->
                                e0 = OutOfBoundsDatetime).
  { intros f n t0 e0. unfold plus, checked.
    destruct (in_bounds _); [discriminate | now intros [= <-]]. }
  assert (D : forall f n t0 e0, date_range t0 n f = Raise e0 ->
                                e0 = OutOfBoundsDatetime).
  { intros f n t0 e0. unfold date_range.
    destruct (on_offset f t0); cbn [bind].
    - destruct (plus f (n - 1) t0) eqn:E; cbn [bind]; [discriminate|].
      intros [= <-]. exact (P _ _ _ _ E).
    - destruct (plus f 1 t0) as [t1|e1] eqn:E1; cbn [bind];
        [|intros [= <-]; exact (P _ _ _ _ E1)].
      destruct (plus f (n - 1) t1) eqn:E; cbn [bind]; [discriminate|].
      intros [= <-]. exact (P _ _ _ _ E). }
  unfold forecast_index, try_except.
  destruct (plus QuarterEnd 1 t) as [q|e1]; cbn [bind].
  - destruct (date_range q steps QuarterEnd); [discriminate|].
    destruct (plus MonthEnd 1 t) as [m|e2] eqn:E2; cbn [bind];
      [apply D | intros [= <-]; exact (P _ _ _ _ E2)].
  - destruct (plus MonthEnd 1 t) as [m|e2] eqn:E2; cbn [bind];
      [apply D | intros [= <-]; exact (P _ _ _ _ E2)].
Qed.

(** Once a series is cached, [forecast_hpi] does not raise the not-loaded
    error. *)
Lemma forecast_hpi_loaded_error (steps : Z) (st : state W) (s : series pyfloat) :
  _hpi_series st = Some s ->
  fst (forecast_hpi W steps st) <> Raise RuntimeError.
Proof.
  intros Hs H. destruct (_model_fit st) as [m|] eqn:Hm.
  - rewrite (forecast_hpi_fitted steps st s m Hs Hm) in H. cbn [fst] in H.
    destruct (get_forecast W m steps) as [res|]; cbn [called bind] in H;
      [|discriminate].
    destruct (index_last s) as [t|e] eqn:Ei; cbn [bind] in H.
    + destruct (forecast_index t steps) as [idx|e] eqn:Ef; cbn [bind] in H;
        [|apply forecast_index_raises in Ef; congruence].
      unfold set_index in H. destruct (_ =? _)%nat; discriminate.
    + apply (last_raises s e) in Ei. congruence.
  - rewrite (forecast_hpi_degraded steps st s Hs Hm) in H. cbn [fst] in H.
    destruct (iloc_last s) as [x|e] eqn:El; cbn [bind] in H;
      [|apply (last_raises s e) in El; congruence].
    destruct (index_last s) as [t|e] eqn:Ei; cbn [bind] in H;
      [|apply (last_raises s e) in Ei; congruence].
    destruct (forecast_index t steps) as [idx|e] eqn:Ef; cbn [bind] in H;
      [|apply forecast_index_raises in Ef; congruence].
    unfold set_index in H. destruct (_ =? _)%nat; discriminate.
Qed.

(** C6, amended: [forecast_hpi] raises the not-loaded [RuntimeError]
    exactly when no earlier load call has cached a series, that is, has
    returned or has raised in a print only.  For a loaded series that ends
    at [t], in a quarter before the first of 2262, and every [steps] such
    that the quarter [steps] after that of [t] is between the third of
    1677 and the first of 2262, it returns a forecast in the Degraded
    state, and in the Fitted state whenever the fitted model delivers
    [steps] points ([steps] may be negative: the forecast is then empty). *)
Theorem forecast_hpi_failure_modes
    (calls : list (string * (Z * Z * Z))) (steps : Z) :
  let st := snd (loads calls (initial W)) in
  (fst (forecast_hpi W steps st) = Raise RuntimeError
   <-> Forall (fun o => ~ committed o) (fst (loads calls (initial W)))) /\
  (forall s t, _hpi_series st = Some s -> index_last s = Ok t ->
     quarter_of t < max_quarter ->
     min_quarter <= quarter_of t + steps <= max_quarter ->
     (_model_fit st = None -> returns (fst (forecast_hpi W steps st))) /\
     (forall m f ci,
        _model_fit st = Some m ->
        get_forecast W m steps = Some (f, ci) ->
        List.length f = Z.to_nat steps ->
        returns (fst (forecast_hpi W steps st)))).
Proof.
  intros st.
  assert (R : reachable st) by (now exists calls).
  split.
  - rewrite <- (loads_unloaded_iff calls (initial W) eq_refl). fold st.
    split.
    + intros H. destruct (_hpi_series st) as [s|] eqn:Hs; [|reflexivity].
      exfalso. exact (forecast_hpi_loaded_error steps st s Hs H).
    + intros H. now rewrite forecast_hpi_unloaded.
  - intros s t Hs Hi Hq Hsteps.
    destruct (index_last_snoc s t Hi) as (s' & last & ->).
    split.
    + intros Hm.
      rewrite (forecast_hpi_naive steps st s' t last R Hs Hm Hq Hsteps).
      eexists. reflexivity.
    + intros m f ci Hm Hf Hlen.
      rewrite (forecast_hpi_fitted steps st _ m Hs Hm), Hf. cbn [fst called bind].
      rewrite Hi. cbn [bind].
      rewrite (reachable_forecast_index st s' t last steps R Hs Hq).
      replace ((min_quarter <=? quarter_of t + steps)
               && (quarter_of t + steps <=? max_quarter)) with true
        by (symmetry; apply andb_true_iff; split; apply Z.leb_le; lia).
      cbn [bind fst snd]. unfold set_index at 1, quarter_ends.
      rewrite Hlen, length_map, length_seq, Nat.eqb_refl. cbn [bind].
      eexists. reflexivity.
Qed.

(** ** The market summary *)

Lemma summary_body_eq (steps : Z) (st : state W) (s : series pyfloat) :
  _hpi_series st = Some s ->
  summary_body W steps st =
  (fc <- fst (forecast_hpi W steps st) ;;
   last_hist <- iloc_last s ;;
   last_fore <- iloc_last (fst fc) ;;
   g <- (if fne last_hist (Fin 0)
         then truediv (fsub last_fore last_hist) last_hist
         else Ok (Fin 0)) ;;
   Ok {| growth_rate := g;
         volatility := historical_volatility W s;
         risk_label := market_risk_label g (historical_volatility W s);
         forecast_series := Some (fst fc) |},
   st).
Proof.
  intros Hs. unfold summary_body, mbind at 1.
  pose proof (forecast_hpi_state steps st) as E.
  destruct (forecast_hpi W steps st) as [[fc|e] st']; cbn [fst snd] in *;
    subst st'; [|reflexivity].
  cbn [bind]. unfold mbind at 1, the_series at 1. rewrite Hs.
  unfold mbind at 1, lift at 1.
  destruct (iloc_last s) as [last_hist|e]; [|reflexivity]. cbn [bind].
  unfold mbind at 1, lift at 1.
  destruct (iloc_last (fst fc)) as [last_fore|e]; [|reflexivity]. cbn [bind].
  unfold mbind at 1, lift at 1.
  destruct (if fne last_hist (Fin 0) then _ else _) as [g|e]; [|reflexivity].
  cbn [bind]. unfold mbind, the_series. rewrite Hs. reflexivity.
Qed.

Lemma get_market_forecast_summary_eq (steps : Z) (st : state W) :
  get_market_forecast_summary W steps st =
  (Ok match _hpi_series st with
      | None => default_summary
      | Some _ =>
          match fst (summary_body W steps st) with
          | Ok r => r
          | Raise _ => default_summary
          end
      end,
   st).
Proof.
  unfold get_market_forecast_summary, mbind, get_series.
  destruct (_hpi_series st) as [s|] eqn:Hs; [|reflexivity].
  unfold try_. rewrite (summary_body_eq steps st s Hs). cbn [fst].
  destruct (bind _ _); reflexivity.
Qed.

(** C8: [get_market_forecast_summary] always returns, and leaves the state
    as it was; when no series is loaded, and when the derivation raises, what
    it returns is the default: growth rate 0.0, volatility 0.0, label
    "Moderate" and no forecast. *)
Theorem summary_never_raises (steps : Z) (st : state W) :
  exists r,
    get_market_forecast_summary W steps st = (Ok r, st) /\
    (_hpi_series st = None -> r = default_summary) /\
    (raises (fst (summary_body W steps st)) -> r = default_summary) /\
    default_summary
    = {| growth_rate := Fin 0; volatility := Fin 0; risk_label := "Moderate";
         forecast_series := None |}.
Proof.
  rewrite get_market_forecast_summary_eq. eexists.
  split; [reflexivity|]. split; [|split; [|reflexivity]].
  - intros ->. reflexivity.
  - intros [e ->]. now destruct (_hpi_series st).
Qed.

Lemma naive_forecast_last (q : Z) (last : pyfloat) (steps : Z) :
  1 <= steps -> iloc_last (naive_forecast q last steps) = Ok last.
Proof.
  intros H. unfold naive_forecast, quarter_ends.
  destruct (Z.to_nat steps) as [|k] eqn:E; [lia|].
  rewrite combine_range_snoc. apply iloc_last_snoc.
Qed.

(** The test [last_hist != 0] keeps the division from raising. *)
Lemma growth_rate_returns (last_hist last_fore : pyfloat) :
  (if fne last_hist (Fin 0)
   then truediv (fsub last_fore last_hist) last_hist
   else Ok (Fin 0))
  = Ok (if fne last_hist (Fin 0)
        then fdiv (fsub last_fore last_hist) last_hist
        else Fin 0).
Proof.
  unfold fne, truediv. now destruct (feqb last_hist (Fin 0)).
Qed.

Lemma summary_body_naive (steps : Z) (st : state W)
    (s : series pyfloat) (t : timestamp) (last : pyfloat) :
  reachable st ->
  _hpi_series st = Some (s ++ [(t, last)]) -> _model_fit st = None ->
  1 <= steps -> quarter_of t + steps <= max_quarter ->
  fst (summary_body W steps st) =
  let g := if fne last (Fin 0) then fdiv (fsub last last) last else Fin 0 in
  let vol := historical_volatility W (s ++ [(t, last)]) in
  Ok {| growth_rate := g;
        volatility := vol;
        risk_label := market_risk_label g vol;
        forecast_series := Some (naive_forecast (quarter_of t) last steps) |}.
Proof.
  intros R Hs Hm Hsteps Hq.
  rewrite (summary_body_eq steps st _ Hs). cbn [fst].
  destruct (reachable_last_aligned st s t last R Hs) as [Ht Hlo]; [lia|].
  rewrite (forecast_hpi_naive steps st s t last R Hs Hm) by lia.
  cbn [fst bind].
  destruct (iloc_last_snoc s t last) as [-> _]. cbn [bind].
  rewrite naive_forecast_last by exact Hsteps. cbn [bind].
  rewrite growth_rate_returns. reflexivity.
Qed.

Lemma fin_is_not_nan (q : Q) : is_nan (fsub (fin q) (Fin 1)) = false.
Proof.
  unfold fin. destruct (overflows q); [reflexivity|].
  cbn [fsub fadd fneg]. unfold fin. now destruct (overflows _).
Qed.

Lemma two_point_volatility (t1 t2 : timestamp) (a b : Q) :
  ~ (a == 0)%Q ->
  historical_volatility W [(t1, Fin a); (t2, Fin b)] = NaN.
Proof.
  intros Ha.
  unfold historical_volatility. cbn [map snd pct_change ffill ratios].
  unfold fdiv, Qis0.
  destruct (Qeq_bool a 0) eqn:E; [apply Qeq_bool_iff in E; contradiction|].
  unfold dropna. cbn [filter is_nan negb].
  rewrite fin_is_not_nan. reflexivity.
Qed.

(** C5 at its failing input: for a loaded series of exactly two finite
    points, the first of them not zero, the one percentage change has no
    sample standard deviation, and the summary returns the volatility NaN,
    not 0.0, for every number of steps with which the forecast stays in
    the quarters a timestamp can hold. *)
Theorem two_point_series_volatility_is_nan
    (st : state W) (t1 t2 : timestamp) (a b : Q) (steps : Z) :
  reachable st ->
  _hpi_series st = Some [(t1, Fin a); (t2, Fin b)] ->
  _model_fit st = None ->
  ~ (a == 0)%Q ->
  1 <= steps -> quarter_of t2 + steps <= max_quarter ->
  exists r,
    get_market_forecast_summary W steps st = (Ok r, st) /\
    volatility r = NaN /\
    forecast_series r <> None.
Proof.
  intros R Hs Hm Ha Hsteps Hq.
  rewrite get_market_forecast_summary_eq, Hs.
  change [(t1, Fin a); (t2, Fin b)] with ([(t1, Fin a)] ++ [(t2, Fin b)]) in Hs.
  rewrite (summary_body_naive steps st _ t2 (Fin b) R Hs Hm Hsteps Hq).
  eexists. split; [reflexivity|]. cbn [volatility forecast_series].
  split; [apply two_point_volatility; exact Ha | discriminate].
Qed.

End Engine.

(** ** A concrete world

    A machine without statsmodels, with three tables under the module's
    directory: one of two quarters, one with a header and no rows, and one
    without a date column.  No date column is numeric and no date needs the
    general parser, so the two are trivial; the sort leaves the rows as
    they are when they are in order, and the standard output encodes every
    character. *)

Local Open Scope string_scope.

Definition two_quarters : dataframe :=
  [("Quarter", ObjCol [Some "Jun-17"; Some " Mar-17"]);
   ("ALL", NumCol [Fin 110; Fin 100])].

Definition header_only : dataframe :=
  [("Date", ObjCol []); ("HPI", ObjCol [])].

Definition undated : dataframe :=
  [("When", ObjCol [Some "Mar-17"]); ("HPI", NumCol [Fin 100])].

Definition files (path : string) : option dataframe :=
  if String.eqb path "/srv/Server/artifacts/bangalore_hpi.csv"
  then Some two_quarters
  else if String.eqb path "/srv/Server/artifacts/empty.csv"
  then Some header_only
  else if String.eqb path "/srv/Server/artifacts/undated.csv"
  then Some undated
  else None.

(** A square root to fifteen decimal places, rounded down. *)
Definition sqrt15 (q : Q) : Q :=
  (inject_Z (Z.sqrt (Qfloor (q * inject_Z (10 ^ 30)))) / inject_Z (10 ^ 15))%Q.

Definition offline : world :=
  {| base := "/srv/Server";
     path_exists :=
       fun p => match files p with Some _ => true | None => false end;
     read_csv := files;
     to_datetime_any := fun _ => None;
     argsort := fun ts => seq 0 (List.length ts);
     str_of_float := fun _ => "nan";
     _HAS_ARIMA := false;
     fitted := Empty_set;
     arima_fit := fun _ _ => None;
     get_forecast := fun m _ => match m with end;
     sqrt := sqrt15;
     stdout_encodes := true |}.

Definition default_call : string * (Z * Z * Z) :=
  ("artifacts/bangalore_hpi.csv", (1, 1, 1)).

Definition loaded : state offline :=
  snd (loads offline [default_call] (initial offline)).

Definition mar17 : timestamp :=
  {| year := 2017; month := 3; day := 31; time := 0 |}.
Definition jun17 : timestamp :=
  {| year := 2017; month := 6; day := 30; time := 0 |}.

Lemma loaded_series :
  _hpi_series loaded = Some [(mar17, Fin 100); (jun17, Fin 110)].
Proof. vm_compute. reflexivity. Qed.

Lemma loaded_reachable : reachable offline loaded.
Proof. exists [default_call]. reflexivity. Qed.

(** C6, as stated, fails: the load of a table with a header and no rows
    succeeds, and [forecast_hpi] then raises [IndexError]. *)
Lemma forecast_raises_on_empty_loaded_series :
  ~ (forall st,
       load_hpi_and_fit offline "artifacts/empty.csv" (1, 1, 1)
                        (initial offline) = (Ok true, st) ->
       returns (fst (forecast_hpi offline 4 st))).
Proof.
  intros H.
  destruct (H {| _hpi_series := Some []; _model_fit := None |}) as [fc Hfc].
  - vm_compute. reflexivity.
  - vm_compute in Hfc. discriminate Hfc.
Qed.

(** It fails on a loaded series with rows too: after the two quarters
    that end in June 2017, the last of 2938 month ends would be in April
    2262, beyond what a timestamp can hold, and [forecast_hpi] raises. *)
Lemma forecast_raises_beyond_the_bounds :
  fst (forecast_hpi offline 2938 loaded) = Raise OutOfBoundsDatetime.
Proof. vm_compute. reflexivity. Qed.

(** C7, as stated, fails: after the two quarters that end in June 2017 the
    last of 980 quarter ends would be in June 2262, beyond what a timestamp
    can hold, and the forecast of 980 steps is dated by the [except] branch
    at month ends, the first of them in July 2017. *)
Lemma forecast_leaves_the_quarter_ends :
  ~ (exists fc,
       fst (forecast_hpi offline 980 loaded) = Ok (fc, None) /\
       nth_error fc 0 = Some (quarter_end (quarter_of jun17 + 1), Fin 110)).
Proof.
  intros (fc & H & N).
  assert (E : option_map (fun r => month (fst r)) (nth_error fc 0) = Some 7).
  { revert H. clear. intros H.
    replace fc with
      (match fst (forecast_hpi offline 980 loaded) with
       | Ok (fc, _) => fc
       | Raise _ => []
       end) by now rewrite H.
    vm_compute. reflexivity. }
  rewrite N in E. vm_compute in E. discriminate E.
Qed.

Lemma forecast_hpi_failure_modes_witness :
  fst (forecast_hpi offline 4 (initial offline)) = Raise RuntimeError /\
  returns (fst (forecast_hpi offline 4 loaded)) /\
  returns (fst (forecast_hpi offline (-1) loaded)).
Proof.
  split; [|split].
  - apply (proj1 (forecast_hpi_failure_modes offline [] 4)). constructor.
  - destruct (proj2 (forecast_hpi_failure_modes offline [default_call] 4)
                    [(mar17, Fin 100); (jun17, Fin 110)] jun17) as [H _].
    + exact loaded_series.
    + reflexivity.
    + vm_compute. reflexivity.
    + vm_compute. split; discriminate.
    + apply H. reflexivity.
  - destruct (proj2 (forecast_hpi_failure_modes offline [default_call] (-1))
                    [(mar17, Fin 100); (jun17, Fin 110)] jun17) as [H _].
    + exact loaded_series.
    + reflexivity.
    + vm_compute. reflexivity.
    + vm_compute. split; discriminate.
    + apply H. reflexivity.
Defined.

Lemma degraded_forecast_repeats_last_witness :
  exists fc,
    forecast_hpi offline 4 loaded = (Ok (fc, None), loaded) /\
    Z.of_nat (List.length fc) = 4 /\
    nth_error fc 0 = Some (quarter_end (quarter_of jun17 + 1), Fin 110).
Proof.
  destruct (degraded_forecast_repeats_last offline loaded
              [(mar17, Fin 100); (jun17, Fin 110)] jun17 4)
    as (last & fc & Hl & Hfc & Hlen & Hnth & _).
  - exact loaded_reachable.
  - exact loaded_series.
  - reflexivity.
  - reflexivity.
  - lia.
  - vm_compute. discriminate.
  - exists fc. split; [exact Hfc|]. split; [exact Hlen|].
    injection Hl as <-.
    rewrite (Hnth 0%nat) by (vm_compute; lia).
    now rewrite Z.add_0_r.
Defined.

Lemma failed_load_commits_nothing_witness :
  load_hpi_and_fit offline "artifacts/missing.csv" (1, 1, 1) loaded
  = (Raise FileNotFoundError, loaded) /\
  load_hpi_and_fit offline "artifacts/undated.csv" (1, 1, 1) loaded
  = (Raise KeyError, loaded).
Proof.
  split.
  - apply (failed_load_commits_nothing offline "artifacts/missing.csv"
             (1, 1, 1) loaded).
    reflexivity.
  - apply (proj1 (proj2 (proj2 (failed_load_commits_nothing offline
             "artifacts/undated.csv" (1, 1, 1) loaded))) undated);
      reflexivity.
Defined.

Lemma two_point_series_volatility_is_nan_witness :
  exists r,
    get_market_forecast_summary offline 4 loaded = (Ok r, loaded) /\
    volatility r = NaN.
Proof.
  destruct (two_point_series_volatility_is_nan offline loaded mar17 jun17
              100 110 4) as (r & Hr & Hv & _).
  - exact loaded_reachable.
  - exact loaded_series.
  - reflexivity.
  - intros C. discriminate C.
  - lia.
  - vm_compute. discriminate.
  - exists r. split; [exact Hr | exact Hv].
Defined.

End forecast_props.

(* ================================================================== *)
(** * Further properties of [risk_analysis.py] *)
(* ================================================================== *)

Module risk_extra.

Import risk_analysis risk_props.
Local Open Scope Q_scope.
Local Open Scope string_scope.

(** ** The range of the scores *)

(** A finite value between 0 and 100. *)
Definition in_range (x : pyfloat) : Prop :=
  match x with
  | Fin q => 0 <= q /\ q <= 100
  | _ => False
  end.

(** NaN, or a finite value between 0 and 100: never an infinity. *)
Definition clipped (x : pyfloat) : Prop := x = NaN \/ in_range x.

Lemma clip_clipped (x : pyfloat) : clipped (Np.clip x (Fin 0) (Fin 100)).
Proof.
  destruct x as [q | [|] |].
  - right. rewrite clip_Fin. apply qclip_bounds. lra.
  - right. cbn. lra.
  - right. cbn. lra.
  - left. reflexivity.
Qed.

Lemma clip_in_range (x : pyfloat) :
  x <> NaN -> in_range (Np.clip x (Fin 0) (Fin 100)).
Proof.
  intros H. destruct (clip_clipped x) as [E|R]; [|exact R].
  destruct x as [q | [|] |]; try discriminate E; [|contradiction].
  rewrite clip_Fin in E. discriminate E.
Qed.

(** X1: whenever [analyze_risk] returns, the composite score and the market,
    sentiment and price sub-scores are each NaN or a finite value in
    [0, 100]; none of them is ever infinite, whatever the inputs. *)
Theorem scores_are_clipped (cp g v lab s lf : pyval) (r : risk_assessment) :
  analyze_risk cp g v lab s lf = Ok r ->
  clipped (score r) /\
  clipped (market_risk_score (debug r)) /\
  clipped (sentiment_numeric_risk (debug r)) /\
  clipped (price_risk_score (debug r)).
Proof.
  rewrite analyze_risk_unfold.
  destruct (float g); cbn [bind]; [|discriminate].
  destruct (float v); cbn [bind]; [|discriminate].
  destruct (float lf); cbn [bind]; [|discriminate].
  destruct (normalize_label lab); cbn [bind]; [|discriminate].
  destruct (float (or_else s _)); cbn [bind]; [|discriminate].
  intros [= <-].
  cbn [score debug assessment market_risk_score sentiment_numeric_risk
       price_risk_score].
  repeat split; apply clip_clipped.
Qed.

Lemma scores_are_clipped_witness :
  exists r,
    analyze_risk (num 150) (VFloat (Inf false)) (num 0.04) (VStr "Negative")
                 (VFloat (Inf true)) (num 0.9) = Ok r /\
    clipped (score r) /\
    clipped (sentiment_numeric_risk (debug r)).
Proof.
  eexists. split; [vm_compute; reflexivity|].
  match goal with |- clipped (score ?r) /\ _ =>
    destruct (scores_are_clipped (num 150) (VFloat (Inf false)) (num 0.04)
                (VStr "Negative") (VFloat (Inf true)) (num 0.9) r)
      as (H1 & _ & H3 & _); [vm_compute; reflexivity|]
  end.
  split; [exact H1 | exact H3].
Defined.

(** ** NaN inputs *)

Lemma fmul_NaN_l (x : pyfloat) : fmul NaN x = NaN.
Proof. reflexivity. Qed.

Lemma fmul_NaN_r (x : pyfloat) : fmul x NaN = NaN.
Proof. now destruct x. Qed.

Lemma fadd_NaN_r (x : pyfloat) : fadd x NaN = NaN.
Proof. now destruct x. Qed.

Lemma fsub_NaN_l (x : pyfloat) : fsub NaN x = NaN.
Proof. reflexivity. Qed.

Lemma fsub_NaN_r (x : pyfloat) : fsub x NaN = NaN.
Proof. now destruct x. Qed.

Lemma composite_NaN (m s p : pyfloat) :
  m = NaN \/ s = NaN \/ p = NaN ->
  composite m s p = NaN /\ tier (composite m s p) =
    ("High", "High Risk",
     "Negative sentiment or high volatility. Avoid large investments.").
Proof.
  intros H.
  assert (E : composite_raw m s p = NaN).
  { unfold composite_raw. destruct H as [-> | [-> | ->]].
    - reflexivity.
    - rewrite fmul_NaN_l, fadd_NaN_r. reflexivity.
    - rewrite fmul_NaN_l, fadd_NaN_r. reflexivity. }
  unfold composite. rewrite E. split; reflexivity.
Qed.

(** X2: a NaN among the numbers scores "High".  When the growth rate, the
    volatility and the location factor are floats, the sentiment score is
    a float or [None] and the label a string or [None], and one of the
    floats, or the current price, is NaN, [analyze_risk] returns, with
    score NaN and the level "High" of the last branch. *)
Theorem nan_input_scores_high
    (cp : pyval) (g v lf : pyfloat) (lab : option string)
    (s : option pyfloat) :
  g = NaN \/ v = NaN \/ lf = NaN \/ s = Some NaN \/ cp = VFloat NaN ->
  exists r,
    analyze_risk cp (VFloat g) (VFloat v) (opt_str lab) (opt_float s)
                 (VFloat lf) = Ok r /\
    score r = NaN /\ level r = "High" /\ category r = "High Risk".
Proof.
  intros N. rewrite analyze_risk_unfold. cbn [float bind].
  assert (Hl : exists sent, normalize_label (opt_str lab) = Ok sent).
  { destruct lab as [l|]; [apply normalize_label_str | now exists "neutral"]. }
  destruct Hl as [sent ->]. cbn [bind].
  assert (Hs : exists s', float (or_else (opt_float s) (VFloat (Fin 50))) = Ok s'
                          /\ (s = Some NaN -> s' = NaN)).
  { destruct s as [f|]; cbn [opt_float].
    - unfold or_else. destruct (truthy (VFloat f)) eqn:T; cbn [float].
      + exists f. split; [reflexivity | now intros [= ->]].
      + exists (Fin 50). split; [reflexivity|]. intros [= ->]. discriminate T.
    - exists (Fin 50). split; [reflexivity | discriminate]. }
  destruct Hs as (s' & -> & Hs'). cbn [bind].
  eexists. split; [reflexivity|].
  cbn [score level category assessment].
  assert (C : market_risk g v lf = NaN \/ sentiment_risk s' = NaN \/
              price_risk (price_of cp) = NaN).
  { destruct N as [-> | [-> | [-> | [E | ->]]]].
    - left. unfold market_risk. cbn [fmul]. rewrite fsub_NaN_r. reflexivity.
    - left. reflexivity.
    - left. unfold market_risk. rewrite fsub_NaN_r, fmul_NaN_r. reflexivity.
    - right. left. rewrite (Hs' E). reflexivity.
    - right. right. reflexivity. }
  destruct (composite_NaN _ _ _ C) as [-> ->]. repeat split.
Qed.

Lemma nan_input_scores_high_witness :
  exists r,
    analyze_risk (num 150) (num (-0.03)) (VFloat NaN) (VStr "Positive")
                 (num 80) (num 0.9) = Ok r /\
    score r = NaN /\ level r = "High".
Proof.
  destruct (nan_input_scores_high (num 150) (Fin (-0.03)) NaN (Fin 0.9)
              (Some "Positive") (Some (Fin 80)))
    as (r & H & H1 & H2 & _).
  - right. left. reflexivity.
  - exists r. split; [exact H|]. split; [exact H1 | exact H2].
Defined.

(** ** Level, category and message *)

Lemma tier_cases (x : pyfloat) :
  (flt x (Fin 30) = true /\
   tier x = ("Low", "Stable Market",
             "Strong signals with low volatility. Good investment conditions."))
  \/
  (flt x (Fin 30) = false /\ flt x (Fin 60) = true /\
   tier x = ("Moderate", "Caution Advised",
             "Some mixed signals. Consider cautious investment."))
  \/
  (flt x (Fin 30) = false /\ flt x (Fin 60) = false /\
   tier x = ("High", "High Risk",
             "Negative sentiment or high volatility. Avoid large investments.")).
Proof.
  unfold tier. destruct (flt x (Fin 30)); [now left|].
  destruct (flt x (Fin 60)); [right; left | right; right]; repeat split.
Qed.

Lemma analyze_risk_tier (cp g v lab s lf : pyval) (r : risk_assessment) :
  analyze_risk cp g v lab s lf = Ok r ->
  (level r, category r, message r) = tier (score r).
Proof.
  rewrite analyze_risk_unfold.
  destruct (float g); cbn [bind]; [|discriminate].
  destruct (float v); cbn [bind]; [|discriminate].
  destruct (float lf); cbn [bind]; [|discriminate].
  destruct (normalize_label lab); cbn [bind]; [|discriminate].
  destruct (float (or_else s _)); cbn [bind]; [|discriminate].
  intros [= <-]. cbn [score level category message assessment].
  now destruct (tier _) as [[lv ca] me].
Qed.

(** X3: in every result of [analyze_risk] the level is "Low" exactly when
    the score is below 30, "Moderate" exactly when it is at least 30 and
    below 60, and "High" in every other case (a score of 60 or more, or
    NaN); category and message go with the level. *)
Theorem level_follows_score (cp g v lab s lf : pyval) (r : risk_assessment) :
  analyze_risk cp g v lab s lf = Ok r ->
  (level r = "Low" <-> flt (score r) (Fin 30) = true) /\
  (level r = "Moderate" <->
     flt (score r) (Fin 30) = false /\ flt (score r) (Fin 60) = true) /\
  (level r = "High" <->
     flt (score r) (Fin 30) = false /\ flt (score r) (Fin 60) = false) /\
  (level r = "Low" -> category r = "Stable Market") /\
  (level r = "Moderate" -> category r = "Caution Advised") /\
  (level r = "High" -> category r = "High Risk").
Proof.
  intros H. apply analyze_risk_tier in H.
  destruct (tier_cases (score r)) as [(A & T) | [(A & B & T) | (A & B & T)]];
    rewrite T in H; injection H as -> -> _; rewrite A; try rewrite B;
    repeat split; intros; try reflexivity; try discriminate;
    try (destruct H; discriminate).
Qed.

Lemma level_follows_score_witness :
  exists r,
    analyze_risk (num 150) (num (-0.03)) (num 0.04) (VStr "Negative")
                 (num 25) (num 0.9) = Ok r /\
    level r = "Low" /\ category r = "Stable Market".
Proof.
  eexists. split; [vm_compute; reflexivity|].
  match goal with |- level ?r = _ /\ _ =>
    destruct (level_follows_score (num 150) (num (-0.03)) (num 0.04)
                (VStr "Negative") (num 25) (num 0.9) r)
      as (H1 & _ & _ & H4 & _); [vm_compute; reflexivity|]
  end.
  split.
  - apply H1. reflexivity.
  - apply H4. apply H1. reflexivity.
Defined.

(** ** The sentiment label *)

(** X4: the sentiment label has no part in the score: for any two strings
    given as label, the other arguments being the same, [analyze_risk]
    returns the same score, level, category, message, sub-scores and raw
    composite; only the sentiment tier of the debug part (and the echoed
    label) can differ. *)
Theorem label_does_not_move_score
    (cp g v s lf : pyval) (l1 l2 : string) (r1 : risk_assessment) :
  analyze_risk cp g v (VStr l1) s lf = Ok r1 ->
  exists r2,
    analyze_risk cp g v (VStr l2) s lf = Ok r2 /\
    score r2 = score r1 /\ level r2 = level r1 /\
    category r2 = category r1 /\ message r2 = message r1 /\
    market_risk_score (debug r2) = market_risk_score (debug r1) /\
    sentiment_numeric_risk (debug r2) = sentiment_numeric_risk (debug r1) /\
    price_risk_score (debug r2) = price_risk_score (debug r1) /\
    final_raw (debug r2) = final_raw (debug r1).
Proof.
  rewrite !analyze_risk_unfold.
  destruct (float g); cbn [bind]; [|discriminate].
  destruct (float v); cbn [bind]; [|discriminate].
  destruct (float lf); cbn [bind]; [|discriminate].
  destruct (normalize_label_str l1) as [s1 ->].
  destruct (normalize_label_str l2) as [s2 ->]. cbn [bind].
  destruct (float (or_else s _)); cbn [bind]; [|discriminate].
  intros [= <-]. eexists. split; [reflexivity|].
  cbn. repeat split.
Qed.

Lemma label_does_not_move_score_witness :
  exists r2,
    analyze_risk (num 150) (num (-0.03)) (num 0.04) (VStr "Positive")
                 (num 25) (num 0.9) = Ok r2 /\
    score r2 = Fin 24.26 /\ level r2 = "Low".
Proof.
  destruct (label_does_not_move_score (num 150) (num (-0.03)) (num 0.04)
              (num 25) (num 0.9) "Negative" "Positive"
              {| score := Fin 24.26; level := "Low";
                 category := "Stable Market";
                 message := "Strong signals with low volatility. Good investment conditions.";
                 debug := {| market_risk_score := Fin 2.52000000;
                             market_risk_level := 1;
                             sentiment_label := VStr "Negative";
                             sentiment_score := Fin 25;
                             sentiment_numeric_risk := Fin 75;
                             sentiment_risk_level := 3;
                             price_risk_score := Fin (15000 # 200);
                             weights := (Fin 0.70, Fin 0.20, Fin 0.10);
                             final_raw :=
                               Fin (485280000000000000 # 20000000000000000) |} |})
    as (r2 & H & Hs & Hl & _).
  - vm_compute. reflexivity.
  - exists r2. split; [exact H|]. split; [exact Hs | exact Hl].
Defined.

(** ** Finite arguments *)

Lemma qround2_range (q : Q) :
  0 <= q -> q <= 100 -> 0 <= qround q 2 /\ qround q 2 <= 100.
Proof.
  intros H0 H1. split.
  - apply Qle_trans with (qround 0 2); [compute; discriminate|].
    apply qround2_mono. exact H0.
  - apply Qle_trans with (qround 100 2); [|compute; discriminate].
    apply qround2_mono. exact H1.
Qed.

Lemma analyze_risk_num (cp g v : Q) (lab : string) (s lf : Q) :
  exists sent,
    analyze_risk (num cp) (num g) (num v) (VStr lab) (num s) (num lf)
    = Ok (assessment (Fin g) (Fin v) (Fin lf) sent
                     (Fin (if Qis0 s then 50 else s)) (price_of (num cp))
                     (VStr lab)).
Proof.
  rewrite analyze_risk_unfold.
  change (float (num g)) with (Ok (Fin g)).
  change (float (num v)) with (Ok (Fin v)).
  change (float (num lf)) with (Ok (Fin lf)). cbn [bind].
  destruct (normalize_label_str lab) as [sent ->]. cbn [bind].
  exists sent. unfold or_else, num, truthy, fne, feqb. fold (Qis0 s).
  destruct (Qis0 s); reflexivity.
Qed.

(** X5: on float arguments of magnitude at most [10^100] [analyze_risk]
    returns; the three sub-scores and the raw weighted composite are
    finite values in [0, 100], so that the final clip changes nothing:
    the score is the raw composite rounded to two decimals. *)
Theorem finite_score_is_rounded_raw
    (cp g v s lf : Q) (lab : string) :
  moderate cp -> moderate g -> moderate v -> moderate s -> moderate lf ->
  exists r,
    analyze_risk (num cp) (num g) (num v) (VStr lab) (num s) (num lf) = Ok r /\
    in_range (market_risk_score (debug r)) /\
    in_range (sentiment_numeric_risk (debug r)) /\
    in_range (price_risk_score (debug r)) /\
    in_range (final_raw (debug r)) /\
    in_range (score r) /\
    score r = round (final_raw (debug r)) 2.
Proof.
  intros Hcp Hg Hv Hs Hlf.
  destruct (analyze_risk_num cp g v lab s lf) as [sent ->].
  destruct (subscores_Fin cp g v s lf Hcp Hg Hv Hs Hlf)
    as (m & sr & p & Em & Es & Ep & _ & _ & _ & Bm & Bs & Bp).
  eexists. split; [reflexivity|].
  cbn [score debug assessment market_risk_score sentiment_numeric_risk
       price_risk_score final_raw].
  rewrite Em, Es, Ep, composite_Fin, composite_raw_Fin by assumption.
  assert (Hraw : 0 <= m * 0.70 + sr * 0.20 + p * 0.10 /\
                 m * 0.70 + sr * 0.20 + p * 0.10 <= 100) by lra.
  destruct (qround2_range _ (proj1 Hraw) (proj2 Hraw)) as [R0 R1].
  rewrite (qclip_id _ 0 100 R0 R1).
  cbn [in_range]. rewrite round_Fin. repeat split; tauto || lra.
Qed.

Lemma finite_score_is_rounded_raw_witness :
  exists r,
    analyze_risk (num 150) (num (-0.03)) (num 0.04) (VStr "Negative")
                 (num 25) (num 0.9) = Ok r /\
    in_range (score r) /\ score r = round (final_raw (debug r)) 2.
Proof.
  assert (M : forall q, Qabs q <= 1000 -> moderate q).
  { intros q H. unfold moderate. pose proof moderate_bound_large. lra. }
  destruct (finite_score_is_rounded_raw 150 (-0.03) 0.04 25 0.9 "Negative")
    as (r & H & _ & _ & _ & _ & H5 & H6);
    try (apply M; vm_compute; discriminate).
  exists r. split; [exact H|]. split; [exact H5 | exact H6].
Defined.

(** ** When [analyze_risk] raises *)

Lemma analyze_risk_returns (cp g v lab s lf : pyval) :
  returns (analyze_risk cp g v lab s lf) <->
  returns (float g) /\ returns (float v) /\ returns (float lf) /\
  returns (normalize_label lab) /\
  returns (float (or_else s (VFloat (Fin 50)))).
Proof.
  rewrite analyze_risk_unfold. unfold returns.
  destruct (float g) as [g'|]; cbn [bind];
    [|split; [intros [r H]; discriminate | intros ([x H] & _); discriminate]].
  destruct (float v) as [v'|]; cbn [bind];
    [|split; [intros [r H]; discriminate
             | intros (_ & [x H] & _); discriminate]].
  destruct (float lf) as [lf'|]; cbn [bind];
    [|split; [intros [r H]; discriminate
             | intros (_ & _ & [x H] & _); discriminate]].
  destruct (normalize_label lab) as [sent|]; cbn [bind];
    [|split; [intros [r H]; discriminate
             | intros (_ & _ & _ & [x H] & _); discriminate]].
  destruct (float (or_else s _)) as [s'|]; cbn [bind];
    [|split; [intros [r H]; discriminate
             | intros (_ & _ & _ & _ & [x H]); discriminate]].
  split; [intros _ | intros _]; repeat split; eexists; reflexivity.
Qed.

(** X6: [analyze_risk] returns exactly when [float()] accepts the growth
    rate, the volatility, the location factor and the sentiment score (or
    its default), and the label is a string or falsy.  The current price
    is not among the conditions: no value of it makes the call raise, and
    it cannot make a raising call return. *)
Theorem analyze_risk_returns_iff (cp g v lab s lf : pyval) :
  (returns (analyze_risk cp g v lab s lf) <->
   returns (float g) /\ returns (float v) /\ returns (float lf) /\
   returns (normalize_label lab) /\
   returns (float (or_else s (VFloat (Fin 50))))) /\
  (forall cp',
     returns (analyze_risk cp g v lab s lf) <->
     returns (analyze_risk cp' g v lab s lf)).
Proof.
  split; [apply analyze_risk_returns|].
  intros cp'. now rewrite !analyze_risk_returns.
Qed.

(** ** The location factor above 1.2 *)

(** X7: for a location factor of 1.2 or more the market component changes
    sign: on arguments of magnitude at most [10^100] the composite score is
    then non-increasing in the volatility and non-decreasing in the growth
    rate. *)
Theorem high_location_factor_reverses
    (lab : string) (cp g v s lf : Q) :
  moderate cp -> moderate g -> moderate v -> moderate s -> moderate lf ->
  1.2 <= lf ->
  (forall v', moderate v' -> v <= v' ->
     fle (score_at cp g v' lab s lf) (score_at cp g v lab s lf) = true) /\
  (forall g', moderate g' -> g <= g' ->
     fle (score_at cp g v lab s lf) (score_at cp g' v lab s lf) = true).
Proof.
  intros Hcp Hg Hv Hs Hl Hlf.
  destruct (subscores_Fin cp g v s lf Hcp Hg Hv Hs Hl)
    as (m & sr & p & Em & Es & Ep & Dm & _ & _ & Bm & Bs & Bp).
  rewrite score_at_eq, Em, Es, Ep. split.
  - intros v' Hv' Hle.
    destruct (subscores_Fin cp g v' s lf Hcp Hg Hv' Hs Hl)
      as (m' & sr' & p' & Em' & _ & _ & Dm' & _ & _ & Bm' & _ & _).
    rewrite score_at_eq, Em', Es, Ep.
    apply composite_mono; try lra.
    subst m m'. apply qclip_mono.
    assert (P : (v * 100 * 1.5 - g * 100 * 0.8) * (lf - 1.2)
                <= (v' * 100 * 1.5 - g * 100 * 0.8) * (lf - 1.2))
      by (apply Qmult_le_compat_r; lra).
    lra.
  - intros g' Hg' Hle.
    destruct (subscores_Fin cp g' v s lf Hcp Hg' Hv Hs Hl)
      as (m' & sr' & p' & Em' & _ & _ & Dm' & _ & _ & Bm' & _ & _).
    rewrite score_at_eq, Em', Es, Ep.
    apply composite_mono; try lra.
    subst m m'. apply qclip_mono.
    assert (P : (v * 100 * 1.5 - g' * 100 * 0.8) * (lf - 1.2)
                <= (v * 100 * 1.5 - g * 100 * 0.8) * (lf - 1.2))
      by (apply Qmult_le_compat_r; lra).
    lra.
Qed.

Lemma high_location_factor_reverses_witness :
  fle (score_at 0 0.5 0.2 "Neutral" 50 2) (score_at 0 0.5 0 "Neutral" 50 2)
  = true /\
  fle (score_at 0 0.5 0.2 "Neutral" 50 2) (score_at 0 0.6 0.2 "Neutral" 50 2)
  = true.
Proof.
  assert (M : forall q, Qabs q <= 1000 -> moderate q).
  { intros q H. unfold moderate. pose proof moderate_bound_large. lra. }
  assert (H : 1.2 <= 2) by lra.
  destruct (high_location_factor_reverses "Neutral" 0 0.5 0 50 2)
    as [Hv _]; try (apply M; vm_compute; discriminate); [exact H|].
  destruct (high_location_factor_reverses "Neutral" 0 0.5 0.2 50 2)
    as [_ Hg]; try (apply M; vm_compute; discriminate); [exact H|].
  split.
  - apply Hv; [apply M; vm_compute; discriminate | lra].
  - apply Hg; [apply M; vm_compute; discriminate | lra].
Defined.

(** ** The weight of the price *)

Lemma fle_antisym_same (x y : pyfloat) :
  fle x y = true -> fle y x = true -> same x y.
Proof.
  destruct x as [a | [|] |], y as [b | [|] |]; cbn; try discriminate;
    try reflexivity.
  intros H1 H2. apply Qle_bool_iff in H1, H2. lra.
Qed.

Lemma qclip_above (x lo hi : Q) : lo <= hi -> hi <= x -> qclip x lo hi == hi.
Proof.
  intros H Hx. unfold qclip.
  destruct (Qltb x lo) eqn:E1; [apply Qltb_lt in E1 | apply Qltb_ge in E1];
    cbn zeta;
    destruct (Qltb hi _) eqn:E2;
    [apply Qltb_lt in E2 | apply Qltb_ge in E2
    |apply Qltb_lt in E2 | apply Qltb_ge in E2]; lra.
Qed.

Lemma qclip_below (x lo hi : Q) : lo <= hi -> x <= lo -> qclip x lo hi == lo.
Proof.
  intros H Hx. unfold qclip.
  destruct (Qltb x lo) eqn:E1; [apply Qltb_lt in E1 | apply Qltb_ge in E1];
    cbn zeta;
    destruct (Qltb hi _) eqn:E2;
    [apply Qltb_lt in E2 | apply Qltb_ge in E2
    |apply Qltb_lt in E2 | apply Qltb_ge in E2]; lra.
Qed.

Lemma score_below (x a : Q) :
  0 <= a -> a <= 100 -> qround a 2 == a ->
  qclip (qround x 2) 0 100 < a -> x < a.
Proof.
  intros H0 H1 Ha H. apply Qnot_le_lt. intros C.
  pose proof (qround2_mono a x C) as R.
  pose proof (qclip_mono (qround a 2) (qround x 2) 0 100 R) as Q.
  rewrite (qclip_id (qround a 2) 0 100) in Q by lra. lra.
Qed.

Lemma score_under (x a : Q) :
  0 <= a -> a <= 100 -> qround a 2 == a ->
  x <= a -> qclip (qround x 2) 0 100 <= a.
Proof.
  intros H0 H1 Ha H.
  pose proof (qround2_mono x a H) as R.
  pose proof (qclip_mono (qround x 2) (qround a 2) 0 100 R) as Q.
  rewrite (qclip_id (qround a 2) 0 100) in Q by lra. lra.
Qed.

(** X8: the price is a minor term.  On arguments of magnitude at most
    [10^100], changing only the current price cannot take the level from
    "Low" to "High"; every price of 200 or more gives the same score, and
    so does every price of 0 or less. *)
Theorem price_is_a_minor_term
    (lab : string) (cp cp' g v s lf : Q) :
  moderate cp -> moderate cp' ->
  moderate g -> moderate v -> moderate s -> moderate lf ->
  (exists r r',
      analyze_risk (num cp) (num g) (num v) (VStr lab) (num s) (num lf)
      = Ok r /\
      analyze_risk (num cp') (num g) (num v) (VStr lab) (num s) (num lf)
      = Ok r' /\
      (level r = "Low" -> level r' <> "High")) /\
  (200 <= cp -> 200 <= cp' ->
   same (score_at cp g v lab s lf) (score_at cp' g v lab s lf)) /\
  (cp <= 0 -> cp' <= 0 ->
   same (score_at cp g v lab s lf) (score_at cp' g v lab s lf)).
Proof.
  intros Hcp Hcp' Hg Hv Hs Hlf.
  destruct (subscores_Fin cp g v s lf Hcp Hg Hv Hs Hlf)
    as (m & sr & p & Em & Es & Ep & _ & _ & (c & Ec & Dp) & Bm & Bs & Bp).
  destruct (subscores_Fin cp' g v s lf Hcp' Hg Hv Hs Hlf)
    as (m' & sr' & p' & Em' & Es' & Ep' & _ & _ & (c' & Ec' & Dp') & _ & _ & Bp').
  rewrite Em in Em'. injection Em' as <-.
  rewrite Es in Es'. injection Es' as <-.
  assert (half : forall x, x / 200 * 100 == x * (1 # 2)) by (intros; field).
  split; [|split].
  - destruct (analyze_risk_num cp g v lab s lf) as [sent ->].
    destruct (analyze_risk_num cp' g v lab s lf) as [sent' ->].
    do 2 eexists. split; [reflexivity|]. split; [reflexivity|].
    cbn [level assessment]. rewrite Em, Es, Ep, Ep'.
    rewrite !composite_Fin by assumption.
    unfold tier. cbn [flt].
    destruct (Qltb (qclip (qround (m * 0.70 + sr * 0.20 + p * 0.10) 2) 0 100) 30)
      eqn:L; cbn [fst];
      [|destruct (Qltb _ 60); intros C; discriminate C].
    intros _. apply Qltb_lt in L.
    apply score_below in L; [| lra | lra | vm_compute; reflexivity].
    assert (U : qclip (qround (m * 0.70 + sr * 0.20 + p' * 0.10) 2) 0 100 <= 40)
      by (apply score_under; [lra | lra | vm_compute; reflexivity | lra]).
    assert (L30 : Qltb (qclip (qround (m * 0.70 + sr * 0.20 + p' * 0.10) 2) 0 100)
                       60 = true) by (apply Qltb_lt; lra).
    destruct (Qltb _ 30); [discriminate|]. rewrite L30. discriminate.
  - intros H H'.
    assert (E : p == p').
    { subst p p'. rewrite !qclip_above by (rewrite ?half; lra). reflexivity. }
    rewrite !score_at_eq, Em, Es, Ep, Ep'.
    apply fle_antisym_same; apply composite_mono; lra.
  - intros H H'.
    assert (E : p == p').
    { subst p p'. rewrite !qclip_below by (rewrite ?half; lra). reflexivity. }
    rewrite !score_at_eq, Em, Es, Ep, Ep'.
    apply fle_antisym_same; apply composite_mono; lra.
Qed.

Lemma price_is_a_minor_term_witness :
  same (score_at 200 (-0.03) 0.04 "Negative" 25 0.9)
       (score_at 950 (-0.03) 0.04 "Negative" 25 0.9) /\
  same (score_at 0 (-0.03) 0.04 "Negative" 25 0.9)
       (score_at (-5) (-0.03) 0.04 "Negative" 25 0.9).
Proof.
  assert (M : forall q, Qabs q <= 1000 -> moderate q).
  { intros q H. unfold moderate. pose proof moderate_bound_large. lra. }
  destruct (price_is_a_minor_term "Negative" 200 950 (-0.03) 0.04 25 0.9)
    as (_ & H1 & _); try (apply M; vm_compute; discriminate).
  destruct (price_is_a_minor_term "Negative" 0 (-5) (-0.03) 0.04 25 0.9)
    as (_ & _ & H2); try (apply M; vm_compute; discriminate).
  split; [apply H1; lra | apply H2; lra].
Defined.

(** ** [get_prescription] *)

Lemma flt_below (x : pyfloat) (a b : Q) :
  flt x (Fin a) = true -> a <= b -> flt x (Fin b) = true.
Proof.
  destruct x as [q | [|] |]; cbn; try discriminate; try reflexivity.
  intros H Hab. apply Qltb_lt in H. apply Qltb_lt. lra.
Qed.

Lemma flt_above (x : pyfloat) (a b : Q) :
  flt (Fin a) x = true -> b <= a -> flt (Fin b) x = true.
Proof.
  destruct x as [q | [|] |]; cbn; try discriminate; try reflexivity.
  intros H Hab. apply Qltb_lt in H. apply Qltb_lt. lra.
Qed.

Lemma flt_not_above (x : pyfloat) (a b : Q) :
  flt x (Fin a) = true -> a <= b -> flt (Fin b) x = false.
Proof.
  destruct x as [q | [|] |]; cbn; try discriminate; try reflexivity.
  intros H Hab. apply Qltb_lt in H. apply Qltb_ge. lra.
Qed.

(** The rounded percentage [get_prescription] decides on. *)
Definition roi_pct (g : pyfloat) : pyfloat := round (fmul g (Fin 100)) 2.

Lemma get_prescription_cases (risk g : pyfloat) :
  exists p,
    get_prescription (VFloat risk) (VFloat g) = Ok p /\
    action p =
    if flt risk (Fin 30) && fgt (roi_pct g) (Fin 3) then "Buy"
    else if flt risk (Fin 60) && fgt (roi_pct g) (Fin 0) then "Hold"
    else if flt (roi_pct g) (Fin 0) then "Sell"
    else "Wait".
Proof.
  unfold get_prescription. cbn [mul_float lt_int bind]. fold (roi_pct g).
  change (Fin (inject_Z 30)) with (Fin 30).
  change (Fin (inject_Z 60)) with (Fin 60).
  destruct (flt risk (Fin 30) && fgt (roi_pct g) (Fin 3));
    [eexists; split; reflexivity|].
  destruct (flt risk (Fin 60) && fgt (roi_pct g) (Fin 0));
    [eexists; split; reflexivity|].
  destruct (flt (roi_pct g) (Fin 0)); eexists; split; reflexivity.
Qed.

(** X9: on float arguments [get_prescription] returns, and the action is
    "Sell" exactly when the rounded percentage is negative, whatever the
    risk score; "Buy" exactly when the risk is below 30 and the percentage
    above 3; "Hold" exactly when it is not "Buy", the risk is below 60 and
    the percentage positive; and "Wait" exactly when the percentage is not
    negative and the risk is not below 60 or the percentage not positive. *)
Theorem prescription_decision (risk g : pyfloat) :
  exists p,
    get_prescription (VFloat risk) (VFloat g) = Ok p /\
    (action p = "Sell" <-> flt (roi_pct g) (Fin 0) = true) /\
    (action p = "Buy" <->
       flt risk (Fin 30) = true /\ fgt (roi_pct g) (Fin 3) = true) /\
    (action p = "Hold" <->
       (flt risk (Fin 30) = false \/ fgt (roi_pct g) (Fin 3) = false) /\
       flt risk (Fin 60) = true /\ fgt (roi_pct g) (Fin 0) = true) /\
    (action p = "Wait" <->
       flt (roi_pct g) (Fin 0) = false /\
       (flt risk (Fin 60) = false \/ fgt (roi_pct g) (Fin 0) = false)).
Proof.
  destruct (get_prescription_cases risk g) as (p & Hp & Ha).
  exists p. split; [exact Hp|]. rewrite Ha. clear Hp Ha. unfold fgt.
  assert (AC : flt risk (Fin 30) = true -> flt risk (Fin 60) = true)
    by (intros H; apply (flt_below risk 30 60 H); lra).
  assert (BD : flt (Fin 3) (roi_pct g) = true -> flt (Fin 0) (roi_pct g) = true)
    by (intros H; apply (flt_above (roi_pct g) 3 0 H); lra).
  assert (SD : flt (roi_pct g) (Fin 0) = true -> flt (Fin 0) (roi_pct g) = false)
    by (intros H; apply (flt_not_above (roi_pct g) 0 0 H); lra).
  assert (SB : flt (roi_pct g) (Fin 0) = true -> flt (Fin 3) (roi_pct g) = false)
    by (intros H; apply (flt_not_above (roi_pct g) 0 3 H); lra).
  destruct (flt risk (Fin 30)); destruct (flt (Fin 3) (roi_pct g));
    destruct (flt risk (Fin 60)); destruct (flt (Fin 0) (roi_pct g));
    destruct (flt (roi_pct g) (Fin 0)); cbn [andb];
    try (specialize (AC eq_refl); discriminate AC);
    try (specialize (BD eq_refl); discriminate BD);
    try (specialize (SD eq_refl); discriminate SD);
    try (specialize (SB eq_refl); discriminate SB);
    clear AC BD SD SB;
    repeat split; intros; try reflexivity; try discriminate;
    intuition discriminate.
Qed.

Lemma round_half_even_small (q : Q) :
  - (1 # 2) < q -> q < 1 # 2 -> round_half_even q = 0%Z.
Proof.
  intros Hlo Hhi. unfold round_half_even.
  pose proof (Qfloor_le q) as F1. pose proof (Qlt_floor q) as F2.
  assert (N : (Qfloor q = 0 \/ Qfloor q = -1)%Z).
  { assert (A : (Qfloor q < 1)%Z)
      by (rewrite Zlt_Qlt; change (inject_Z 1) with 1; lra).
    assert (B : (-1 < Qfloor q + 1)%Z)
      by (rewrite Zlt_Qlt; change (inject_Z (-1)) with (-1 # 1); lra).
    lia. }
  destruct N as [-> | ->].
  - assert (C : Qcompare (q - inject_Z 0) (1 # 2) = Lt)
      by (rewrite <- Qlt_alt; unfold inject_Z; lra).
    rewrite C. reflexivity.
  - assert (C : Qcompare (q - inject_Z (-1)) (1 # 2) = Gt)
      by (rewrite <- Qgt_alt; unfold inject_Z; lra).
    rewrite C. reflexivity.
Qed.

(** X10: the growth rate is rounded to two decimals of a percent before
    it is compared: for every finite growth rate strictly between -0.00005
    and 0.00005 the percentage rounds to zero, and [get_prescription]
    answers "Wait" whatever the float risk score. *)
Theorem negligible_growth_waits (risk : pyfloat) (g : Q) :
  - 0.00005 < g -> g < 0.00005 ->
  exists p,
    get_prescription (VFloat risk) (num g) = Ok p /\ action p = "Wait".
Proof.
  intros Hlo Hhi.
  destruct (get_prescription_cases risk (Fin g)) as (p & Hp & Ha).
  exists p. split; [exact Hp|]. rewrite Ha.
  assert (E : roi_pct (Fin g) = Fin (inject_Z 0 / inject_Z (10 ^ Z.of_nat 2))).
  { unfold roi_pct. cbn [fmul].
    rewrite (fin_Fin (g * 100) 1000);
      [ | apply Qabs_le; split; lra
        | apply Qle_lt_trans with moderate_bound;
          [ apply moderate_bound_large
          | apply Qle_lt_trans with (1 * moderate_bound);
            [ lra | apply moderate_small; lra ] ] ].
    unfold round.
    rewrite round_half_even_small; [reflexivity | |];
      change (inject_Z (10 ^ Z.of_nat 2)) with 100; lra. }
  rewrite E.
  replace (fgt (Fin (inject_Z 0 / inject_Z (10 ^ Z.of_nat 2))) (Fin 3))
    with false by reflexivity.
  replace (fgt (Fin (inject_Z 0 / inject_Z (10 ^ Z.of_nat 2))) (Fin 0))
    with false by reflexivity.
  replace (flt (Fin (inject_Z 0 / inject_Z (10 ^ Z.of_nat 2))) (Fin 0))
    with false by reflexivity.
  rewrite !andb_false_r. reflexivity.
Qed.

Lemma negligible_growth_waits_witness :
  exists p,
    get_prescription (VFloat (Fin 12)) (num 0.00004) = Ok p /\
    action p = "Wait".
Proof.
  apply (negligible_growth_waits (Fin 12) 0.00004); lra.
Defined.

(** X11: the score of [analyze_risk] handed to [get_prescription] with a
    float growth rate: a result of level "High" is never answered by "Buy"
    or "Hold", one of level "Moderate" never by "Buy", and one of level
    "Low" is answered by "Buy" when the rounded percentage is above 3. *)
Theorem level_bounds_the_action
    (cp g v lab s lf : pyval) (r : risk_assessment) (growth : pyfloat) :
  analyze_risk cp g v lab s lf = Ok r ->
  exists p,
    get_prescription (VFloat (score r)) (VFloat growth) = Ok p /\
    (level r = "High" -> action p = "Sell" \/ action p = "Wait") /\
    (level r = "Moderate" -> action p <> "Buy") /\
    (level r = "Low" -> fgt (roi_pct growth) (Fin 3) = true ->
     action p = "Buy").
Proof.
  intros H. apply analyze_risk_tier in H.
  destruct (get_prescription_cases (score r) growth) as (p & Hp & Ha).
  exists p. split; [exact Hp|]. rewrite Ha. clear Hp Ha.
  destruct (tier_cases (score r)) as [(A & T) | [(A & B & T) | (A & B & T)]];
    rewrite T in H; injection H as -> _ _; rewrite A; try rewrite B;
    cbn [andb].
  - split; [discriminate|]. split; [discriminate|].
    intros _ ->. reflexivity.
  - split; [discriminate|]. split; [|discriminate].
    intros _. destruct (fgt (roi_pct growth) (Fin 0)); [discriminate|].
    destruct (flt (roi_pct growth) (Fin 0)); discriminate.
  - split; [|split; discriminate].
    intros _. destruct (flt (roi_pct growth) (Fin 0)); [left | right];
      reflexivity.
Qed.

Lemma level_bounds_the_action_witness :
  exists p,
    get_prescription (VFloat (Fin 24.26)) (VFloat (Fin 0.06)) = Ok p /\
    action p = "Buy".
Proof.
  destruct (level_bounds_the_action (num 150) (num (-0.03)) (num 0.04)
              (VStr "Negative") (num 25) (num 0.9)
              {| score := Fin 24.26; level := "Low";
                 category := "Stable Market";
                 message := "Strong signals with low volatility. Good investment conditions.";
                 debug := {| market_risk_score := Fin 2.52000000;
                             market_risk_level := 1;
                             sentiment_label := VStr "Negative";
                             sentiment_score := Fin 25;
                             sentiment_numeric_risk := Fin 75;
                             sentiment_risk_level := 3;
                             price_risk_score := Fin (15000 # 200);
                             weights := (Fin 0.70, Fin 0.20, Fin 0.10);
                             final_raw :=
                               Fin (485280000000000000 # 20000000000000000) |} |}
              (Fin 0.06))
    as (p & Hp & _ & _ & Hb).
  - vm_compute. reflexivity.
  - exists p. split; [exact Hp|]. apply Hb; reflexivity.
Defined.

(** X12: [get_prescription] converts nothing: a growth rate or a risk
    score that is a string or [None] raises [TypeError], also for a string
    that spells a number; [analyze_risk] takes such a string for the number
    it spells. *)
Theorem prescription_does_not_convert :
  (forall risk s, get_prescription risk (VStr s) = Raise TypeError) /\
  (forall risk, get_prescription risk VNone = Raise TypeError) /\
  (forall g s, get_prescription (VStr s) (VFloat g) = Raise TypeError) /\
  (forall g, get_prescription VNone (VFloat g) = Raise TypeError) /\
  (forall cp v lab sc lf s q,
      float_of_str s = PFinite q ->
      analyze_risk cp (VStr s) v lab sc lf
      = analyze_risk cp (num q) v lab sc lf).
Proof.
  repeat split; try reflexivity.
  intros cp v lab sc lf s q H. rewrite !analyze_risk_unfold.
  unfold float at 1. rewrite H. reflexivity.
Qed.

Lemma prescription_does_not_convert_witness :
  analyze_risk (num 150) (VStr "-0.03") (num 0.04) (VStr "Negative")
               (num 25) (num 0.9)
  = analyze_risk (num 150) (num (-0.03)) (num 0.04) (VStr "Negative")
                 (num 25) (num 0.9) /\
  get_prescription (num 24.26) (VStr "-0.03") = Raise TypeError.
Proof.
  destruct prescription_does_not_convert as (Hg & _ & _ & _ & Hs).
  split.
  - apply Hs. vm_compute. reflexivity.
  - apply Hg.
Defined.

End risk_extra.

(* ================================================================== *)
(** * Further properties of [ts_forecast.py] *)
(* ================================================================== *)

Module forecast_extra.

Import ts_forecast forecast_props.
Local Open Scope Z_scope.

(** ** A sort of rows with distinct timestamps in order *)

Lemma sorted_range (a n : nat) (l : list nat) :
  StronglySorted lt l ->
  (forall x, In x l <-> (a <= x < a + n)%nat) ->
  l = seq a n.
Proof.
  revert a l. induction n as [|n IH]; intros a l Hs H.
  - destruct l as [|x l]; [reflexivity|].
    exfalso. assert (C : (a <= x < a + 0)%nat) by (apply H; now left). lia.
  - destruct l as [|h l].
    + exfalso. assert (C : In a []) by (apply H; lia). exact C.
    + inversion Hs as [|? ? Hs' F]; subst. rewrite Forall_forall in F.
      assert (Hh : (a <= h < a + S n)%nat) by (apply H; now left).
      assert (E : h = a).
      { assert (C : In a (h :: l)) by (apply H; lia).
        destruct C as [C | C]; [exact C|]. specialize (F a C). lia. }
      subst h. cbn [seq]. f_equal. apply IH; [exact Hs'|].
      intros x. split.
      * intros Hx. specialize (F x Hx).
        assert (C : (a <= x < a + S n)%nat) by (apply H; now right). lia.
      * intros Hx. assert (C : In x (a :: l)) by (apply H; lia).
        destruct C as [C | C]; [lia | exact C].
Qed.

Lemma take_seq {A} (l : list A) : take l (seq 0 (List.length l)) = l.
Proof.
  assert (G : forall (pre : list A),
            take (pre ++ l) (seq (List.length pre) (List.length l)) = l).
  { induction l as [|x l IH]; intros pre; [reflexivity|].
    cbn [List.length seq]. unfold take. cbn [flat_map].
    rewrite nth_error_app2 by lia. rewrite Nat.sub_diag. cbn [nth_error app].
    f_equal. specialize (IH (pre ++ [x])).
    rewrite <- app_assoc, length_app in IH. cbn [List.length app] in IH.
    rewrite Nat.add_1_r in IH. exact IH. }
  exact (G []).
Qed.

(** Rows strictly in the order of their timestamps. *)
Definition before {A} (a b : timestamp * A) : Prop :=
  ts_ltb (fst a) (fst b) = true.

Lemma before_nth {A} (rs : list (timestamp * A)) (i j : nat)
    (a b : timestamp * A) :
  StronglySorted before rs -> (i < j)%nat ->
  nth_error rs i = Some a -> nth_error rs j = Some b -> before a b.
Proof.
  intros S. revert i j. induction S as [|r rs S IH F]; intros i j Hij Ha Hb.
  - destruct i; discriminate Ha.
  - destruct j as [|j]; [lia|]. cbn [nth_error] in Hb.
    destruct i as [|i]; cbn [nth_error] in Ha.
    + injection Ha as <-. rewrite Forall_forall in F. apply F.
      eapply nth_error_In, Hb.
    + apply (IH i j); [lia | assumption | assumption].
Qed.

Lemma ts_ltb_not_leb (a b : timestamp) :
  ts_ltb a b = true -> ts_leb b a = false.
Proof.
  unfold ts_ltb, ts_leb, ts_compare.
  destruct (Z.compare_spec (year a) (year b));
    destruct (Z.compare_spec (year b) (year a)); try lia; try discriminate;
    try reflexivity.
  destruct (Z.compare_spec (month a) (month b));
    destruct (Z.compare_spec (month b) (month a)); try lia; try discriminate;
    try reflexivity.
  destruct (Z.compare_spec (day a) (day b));
    destruct (Z.compare_spec (day b) (day a)); try lia; try discriminate;
    try reflexivity.
  destruct (Z.compare_spec (time a) (time b));
    destruct (Z.compare_spec (time b) (time a)); try lia; try discriminate;
    reflexivity.
Qed.

Lemma before_in_order {A} (rs : list (timestamp * A)) :
  StronglySorted before rs -> StronglySorted in_order rs.
Proof.
  induction 1 as [|r rs S IH F]; constructor; [exact IH|].
  eapply Forall_impl; [|exact F]. intros x Hx. now apply ts_ltb_le.
Qed.

Lemma insert_row_last {A} (r : timestamp * A) (rs : list (timestamp * A)) :
  Forall (fun a => in_order a r) rs -> insert_row r rs = rs ++ [r].
Proof.
  induction 1 as [|a rs Ha Hf IH]; [reflexivity|].
  cbn [insert_row app]. rewrite (ts_le_not_ltb _ _ Ha). now rewrite IH.
Qed.

(** The stable sort of rows that are in order changes nothing. *)
Lemma stable_sort_sorted_id {A} (rs : list (timestamp * A)) :
  StronglySorted in_order rs -> stable_sort rs = rs.
Proof.
  unfold stable_sort.
  assert (G : forall acc, StronglySorted in_order (acc ++ rs) ->
                fold_left (fun acc r => insert_row r acc) rs acc = acc ++ rs).
  { induction rs as [|r rs IH]; intros acc H; cbn [fold_left].
    - now rewrite app_nil_r.
    - assert (E : insert_row r acc = acc ++ [r]).
      { apply insert_row_last. clear IH.
        induction acc as [|a acc IHa]; [constructor|].
        cbn [app] in H. inversion H as [|? ? Hs Hf]; subst.
        constructor; [|now apply IHa].
        rewrite Forall_forall in Hf. apply Hf.
        apply in_or_app. right. now left. }
      rewrite E, IH; rewrite <- app_assoc; [reflexivity | exact H]. }
  intros H. now rewrite G.
Qed.

Lemma take_cons {A} (l : list A) (i : nat) (p : list nat) (x : A) :
  nth_error l i = Some x -> take l (i :: p) = x :: take l p.
Proof. intros H. unfold take. cbn [flat_map]. now rewrite H. Qed.

(** A permutation that puts distinct timestamps, already in order, in
    order is the identity. *)
Lemma sorting_permutation_id {A} (rs : list (timestamp * A)) (p : list nat) :
  StronglySorted before rs ->
  is_permutation p (List.length rs) = true ->
  sorted (map fst (take rs p)) = true ->
  p = seq 0 (List.length rs).
Proof.
  intros S P T.
  assert (L : List.length p = List.length rs).
  { unfold is_permutation in P. apply andb_true_iff in P.
    destruct P as [P _]. now apply Nat.eqb_eq in P. }
  assert (I : incl (seq 0 (List.length rs)) p).
  { intros i Hi. apply in_seq in Hi.
    apply (is_permutation_In p (List.length rs) i P). lia. }
  assert (N : NoDup p).
  { apply NoDup_incl_NoDup with (l := seq 0 (List.length rs)).
    - apply seq_NoDup.
    - rewrite length_seq. lia.
    - exact I. }
  assert (I' : incl p (seq 0 (List.length rs))).
  { apply NoDup_length_incl; [apply seq_NoDup | | exact I].
    rewrite length_seq. lia. }
  apply sorted_range.
  - clear L I P. apply Sorted_StronglySorted; [exact Nat.lt_trans|].
    induction p as [|i p IH]; [constructor|].
    assert (Hi : (i < List.length rs)%nat).
    { assert (C : In i (seq 0 (List.length rs))) by (apply I'; now left).
      apply in_seq in C. lia. }
    destruct (nth_error rs i) as [a|] eqn:Ea;
      [|apply nth_error_None in Ea; lia].
    rewrite (take_cons rs i p a Ea) in T.
    inversion N as [|? ? Ni Np]; subst.
    assert (T' : sorted (map fst (take rs p)) = true).
    { cbn [map sorted] in T. destruct (map fst (take rs p)); [reflexivity|].
      apply andb_true_iff in T. apply T. }
    constructor.
    + apply IH; [exact T' | exact Np |].
      intros x Hx. apply I'. now right.
    + destruct p as [|j p]; [constructor|]. constructor.
      assert (Hj : (j < List.length rs)%nat).
      { assert (C : In j (seq 0 (List.length rs)))
          by (apply I'; right; now left).
        apply in_seq in C. lia. }
      destruct (nth_error rs j) as [b|] eqn:Eb;
        [|apply nth_error_None in Eb; lia].
      rewrite (take_cons rs j p b Eb) in T. cbn [map sorted] in T.
      apply andb_true_iff in T. destruct T as [T _].
      destruct (Nat.lt_trichotomy i j) as [Lt | [Eq | Gt]]; [exact Lt | |].
      * exfalso. apply Ni. subst. now left.
      * exfalso. pose proof (before_nth rs j i b a S Gt Eb Ea) as B.
        apply ts_ltb_not_leb in B. congruence.
  - intros x. split.
    + intros Hx. apply I' in Hx. apply in_seq in Hx. lia.
    + intros Hx. apply I. apply in_seq. lia.
Qed.

Lemma sort_rows_strict_id {A} (argsort : list timestamp -> list nat)
    (rs : list (timestamp * A)) :
  StronglySorted before rs -> sort_rows argsort rs = rs.
Proof.
  intros S. unfold sort_rows.
  destruct (is_permutation _ _ && _) eqn:E.
  - apply andb_true_iff in E. destruct E as [P T].
    rewrite (sorting_permutation_id rs _ S P T). apply take_seq.
  - apply stable_sort_sorted_id. now apply before_in_order.
Qed.

Section Engine.

Variable W : world.

(** ** Reading and reloading *)

(** X13: [forecast_hpi] and [get_market_forecast_summary] never write the
    two globals, whether they return or raise; a second call of the summary
    therefore gives what the first gave, and a forecast asked after a
    summary is the one that would have been given before it. *)
Theorem queries_leave_the_state (steps steps' : Z) (st : state W) :
  snd (forecast_hpi W steps st) = st /\
  snd (get_market_forecast_summary W steps st) = st /\
  fst (get_market_forecast_summary W steps
         (snd (get_market_forecast_summary W steps st)))
  = fst (get_market_forecast_summary W steps st) /\
  fst (forecast_hpi W steps'
         (snd (get_market_forecast_summary W steps st)))
  = fst (forecast_hpi W steps' st).
Proof.
  assert (E : snd (get_market_forecast_summary W steps st) = st)
    by now rewrite get_market_forecast_summary_eq.
  split; [apply forecast_hpi_state|]. split; [exact E|].
  now rewrite E.
Qed.

(** X14: a load depends on the state it starts from only when it fails:
    its outcome is the same from any two states, the state a successful
    load leaves is the same from any two states, and repeating a call gives
    the same outcome and state as making it once. *)
Theorem load_overwrites
    (path : string) (order : Z * Z * Z) (st1 st2 : state W) :
  fst (load_hpi_and_fit W path order st1)
  = fst (load_hpi_and_fit W path order st2) /\
  (returns (fst (load_hpi_and_fit W path order st1)) ->
   snd (load_hpi_and_fit W path order st1)
   = snd (load_hpi_and_fit W path order st2)) /\
  load_hpi_and_fit W path order (snd (load_hpi_and_fit W path order st1))
  = load_hpi_and_fit W path order st1.
Proof.
  rewrite !load_hpi_and_fit_eq.
  destruct (read_series W path) as [s|e]; cbn [fst snd].
  - repeat split.
  - split; [reflexivity|]. split; [|reflexivity].
    intros [b H]. discriminate H.
Qed.

(** X15: a fit that fails, or statsmodels missing, is not a failure of
    the load.  Whenever the table gives a series, [load_hpi_and_fit] caches
    it, with a quarter-end index if every quarter ends within the bounds,
    and sets the model: [None] if statsmodels is missing or the fit raised,
    the fitted model otherwise.  It then returns [True] if the standard
    output can encode what the prints write, and raises
    [UnicodeEncodeError] if not, with the series and the model cached all
    the same. *)
Theorem fit_failure_is_not_fatal
    (path : string) (order : Z * Z * Z) (st : state W) (s : series pyfloat) :
  read_series W path = Ok s ->
  (stdout_encodes W = true ->
   fst (load_hpi_and_fit W path order st) = Ok true) /\
  (stdout_encodes W = false ->
   fst (load_hpi_and_fit W path order st) = Raise UnicodeEncodeError) /\
  _hpi_series (snd (load_hpi_and_fit W path order st)) = Some (cached W s) /\
  (Forall (fun r => in_bounds (to_quarter_end (fst r)) = true) s ->
   cached W s = snap s) /\
  (_HAS_ARIMA W = false \/ arima_fit W (cached W s) order = None ->
   _model_fit (snd (load_hpi_and_fit W path order st)) = None) /\
  (forall m, _HAS_ARIMA W = true -> arima_fit W (cached W s) order = Some m ->
   _model_fit (snd (load_hpi_and_fit W path order st)) = Some m).
Proof.
  intros H. rewrite load_hpi_and_fit_eq, H. cbn [fst snd _hpi_series _model_fit].
  unfold fit_of, printed.
  split; [now intros ->|]. split; [now intros ->|].
  split; [reflexivity|]. split; [apply cached_snap|]. split.
  - intros [-> | E]; [reflexivity|]. rewrite E. now destruct (_HAS_ARIMA W).
  - intros m -> E. exact E.
Qed.

(** ** The naive forecast and the summary built on it *)

Lemma forecast_hpi_months (steps : Z) (st : state W)
    (s : series pyfloat) (t : timestamp) (last : pyfloat) :
  reachable W st ->
  _hpi_series st = Some (s ++ [(t, last)]) -> _model_fit st = None ->
  quarter_of t < max_quarter ->
  fst (forecast_hpi W steps st) =
  if (min_quarter <=? quarter_of t + steps)
     && (quarter_of t + steps <=? max_quarter)
  then Ok (naive_forecast (quarter_of t) last steps, None)
  else if (min_month <=? 3 * quarter_of t + 2 + steps)
          && (3 * quarter_of t + 2 + steps <=? max_month)
  then Ok (combine (month_ends (3 * quarter_of t + 2) (Z.to_nat steps))
                   (repeat last (Z.to_nat steps)), None)
  else Raise OutOfBoundsDatetime.
Proof.
  intros R Hs Hm Hq.
  rewrite (forecast_hpi_degraded W steps st _ Hs Hm). cbn [fst].
  destruct (iloc_last_snoc s t last) as [-> ->]. cbn [bind].
  rewrite (reachable_forecast_index W st s t last steps R Hs Hq).
  destruct (_ && _).
  - cbn [bind]. rewrite set_index_unindexed; [reflexivity|].
    unfold quarter_ends. now rewrite repeat_length, length_map, length_seq.
  - destruct (_ && _); [|reflexivity].
    cbn [bind]. rewrite set_index_unindexed; [reflexivity|].
    unfold month_ends. now rewrite repeat_length, length_map, length_seq.
Qed.

Lemma summary_of_raise (steps : Z) (st : state W) (s : series pyfloat)
    (e : exn) :
  _hpi_series st = Some s ->
  fst (forecast_hpi W steps st) = Raise e ->
  fst (get_market_forecast_summary W steps st) = Ok default_summary.
Proof.
  intros Hs H. rewrite get_market_forecast_summary_eq, Hs. cbn [fst].
  rewrite (summary_body_eq W steps st s Hs). cbn [fst]. now rewrite H.
Qed.

Lemma summary_of_empty (steps : Z) (st : state W) (s : series pyfloat)
    (ci : option (series (pyfloat * pyfloat))) :
  _hpi_series st = Some s ->
  fst (forecast_hpi W steps st) = Ok ([], ci) ->
  fst (get_market_forecast_summary W steps st) = Ok default_summary.
Proof.
  intros Hs H. rewrite get_market_forecast_summary_eq, Hs. cbn [fst].
  rewrite (summary_body_eq W steps st s Hs). cbn [fst]. rewrite H.
  cbn [bind fst]. now destruct (iloc_last s).
Qed.

(** X16: the edges of [steps] in the Degraded state.  With an empty
    cached series [forecast_hpi] raises [IndexError].  With a series that
    ends at [t], in a quarter before the first of 2262: no step or a
    negative number of steps gives the empty forecast, as long as the
    month [steps] from that of [t] is not before September 1677; when the
    last of the [steps] quarter ends would be beyond the bounds of a
    timestamp but the last of the [steps] month ends that follow [t] is
    not, the forecast is dated at those month ends; and when that month
    end is beyond the bounds too, [forecast_hpi] raises.  The summary is
    the default whenever the forecast is empty or raises. *)
Theorem degraded_steps_edges
    (st : state W) (s : series pyfloat) (steps : Z) :
  reachable W st ->
  _hpi_series st = Some s -> _model_fit st = None ->
  (s = [] -> fst (forecast_hpi W steps st) = Raise IndexError) /\
  (forall t last,
     index_last s = Ok t -> iloc_last s = Ok last ->
     quarter_of t < max_quarter ->
     (steps <= 0 -> min_month <= 3 * quarter_of t + 2 + steps ->
      fst (forecast_hpi W steps st) = Ok ([], None)) /\
     (1 <= steps -> max_quarter < quarter_of t + steps ->
      3 * quarter_of t + 2 + steps <= max_month ->
      fst (forecast_hpi W steps st)
      = Ok (combine (month_ends (3 * quarter_of t + 2) (Z.to_nat steps))
                    (repeat last (Z.to_nat steps)), None)) /\
     (max_month < 3 * quarter_of t + 2 + steps ->
      raises (fst (forecast_hpi W steps st)))) /\
  (s = [] \/ steps <= 0 \/ raises (fst (forecast_hpi W steps st)) ->
   fst (get_market_forecast_summary W steps st) = Ok default_summary).
Proof.
  intros R Hs Hm.
  assert (E0 : s = [] -> fst (forecast_hpi W steps st) = Raise IndexError).
  { intros ->. now rewrite (forecast_hpi_degraded W steps st [] Hs Hm). }
  split; [exact E0|]. split.
  - intros t last Hi Hl Hq.
    destruct (index_last_snoc s t Hi) as (s' & x & ->).
    destruct (iloc_last_snoc s' t x) as [Hx _]. rewrite Hx in Hl.
    injection Hl as ->.
    destruct (reachable_last_aligned W st s' t last R Hs) as [_ Hlo]; [lia|].
    pose proof (forecast_hpi_months steps st s' t last R Hs Hm Hq) as F.
    unfold min_quarter, max_quarter, min_month, max_month in *.
    split; [|split].
    + intros Hsteps Hmin. rewrite F. unfold naive_forecast.
      replace (Z.to_nat steps) with 0%nat by lia.
      destruct (_ && _); [reflexivity|].
      replace ((20132 <=? 3 * quarter_of t + 2 + steps)
               && (3 * quarter_of t + 2 + steps <=? 27146)) with true
        by (symmetry; apply andb_true_iff; split; apply Z.leb_le; lia).
      reflexivity.
    + intros Hsteps Hqe Hme. rewrite F.
      replace ((6710 <=? quarter_of t + steps)
               && (quarter_of t + steps <=? 9048)) with false
        by (symmetry; apply andb_false_iff; right; apply Z.leb_gt; lia).
      replace ((20132 <=? 3 * quarter_of t + 2 + steps)
               && (3 * quarter_of t + 2 + steps <=? 27146)) with true
        by (symmetry; apply andb_true_iff; split; apply Z.leb_le; lia).
      reflexivity.
    + intros Hme. rewrite F.
      replace ((6710 <=? quarter_of t + steps)
               && (quarter_of t + steps <=? 9048)) with false
        by (symmetry; apply andb_false_iff; right; apply Z.leb_gt; lia).
      replace ((20132 <=? 3 * quarter_of t + 2 + steps)
               && (3 * quarter_of t + 2 + steps <=? 27146)) with false
        by (symmetry; apply andb_false_iff; right; apply Z.leb_gt; lia).
      eexists. reflexivity.
  - intros [C | [C | [e C]]].
    + apply (summary_of_raise steps st s IndexError Hs). now apply E0.
    + destruct (fst (forecast_hpi W steps st)) as [[fc ci]|e] eqn:F;
        [|now apply (summary_of_raise steps st s e Hs)].
      apply (summary_of_empty steps st s ci Hs). rewrite F.
      rewrite (forecast_hpi_degraded W steps st s Hs Hm) in F. cbn [fst] in F.
      destruct (iloc_last s) as [last|]; cbn [bind] in F; [|discriminate].
      destruct (index_last s) as [t|]; cbn [bind] in F; [|discriminate].
      destruct (forecast_index t steps) as [idx|]; cbn [bind] in F;
        [|discriminate].
      replace (Z.to_nat steps) with 0%nat in F by lia. cbn [repeat] in F.
      unfold set_index, unindexed in F. cbn [map List.length] in F.
      destruct idx as [|i idx]; cbn in F; [|discriminate].
      now injection F as <- <-.
    + now apply (summary_of_raise steps st s e Hs).
Qed.

Lemma fin_zero (q : Q) : (q == 0)%Q -> fin q = Fin q.
Proof.
  intros H. apply (risk_props.fin_Fin q 0).
  - rewrite H. discriminate.
  - reflexivity.
Qed.

(** X17: in the Degraded state the summary says nothing about the market:
    for a loaded series whose last value is finite and a number of steps,
    at least one, that keeps the forecast within the quarters a timestamp
    can hold, the growth rate is zero and the risk label is "Moderate",
    whatever the history and its volatility. *)
Theorem degraded_summary_is_moderate
    (st : state W) (s : series pyfloat) (t : timestamp) (last : Q)
    (steps : Z) :
  reachable W st ->
  _hpi_series st = Some (s ++ [(t, Fin last)]) -> _model_fit st = None ->
  1 <= steps -> quarter_of t + steps <= max_quarter ->
  exists r,
    get_market_forecast_summary W steps st = (Ok r, st) /\
    same (growth_rate r) (Fin 0) /\
    risk_label r = "Moderate"%string /\
    forecast_series r
    = Some (naive_forecast (quarter_of t) (Fin last) steps).
Proof.
  intros R Hs Hm Hsteps Hq.
  rewrite get_market_forecast_summary_eq, Hs.
  rewrite (summary_body_naive W steps st s t (Fin last) R Hs Hm Hsteps Hq).
  eexists. split; [reflexivity|].
  cbn [growth_rate risk_label forecast_series].
  assert (G : exists g, (if fne (Fin last) (Fin 0)
                         then fdiv (fsub (Fin last) (Fin last)) (Fin last)
                         else Fin 0) = Fin g /\ (g == 0)%Q).
  { unfold fne, feqb, fsub, fadd, fneg. fold (Qis0 last).
    destruct (Qis0 last) eqn:E; cbn [negb].
    - exists 0%Q. split; reflexivity.
    - apply risk_props.Qis0_false in E.
      rewrite (fin_zero (last + - last)) by ring.
      unfold fdiv. fold (Qis0 last).
      replace (Qis0 last) with false
        by (symmetry; now apply risk_props.Qis0_false).
      rewrite fin_zero by (field; exact E).
      eexists. split; [reflexivity|]. field. exact E. }
  destruct G as (g & -> & Hg). split; [exact Hg|]. split; [|reflexivity].
  unfold market_risk_label, fgt, flt.
  assert (A : Qltb 0.05 g = false) by (apply risk_props.Qltb_ge; lra).
  assert (B : Qltb (-0.02) g = true) by (apply risk_props.Qltb_lt; lra).
  rewrite A, B. reflexivity.
Qed.

Lemma short_history_volatility (s : series pyfloat) :
  (List.length s <= 1)%nat -> historical_volatility W s = Fin 0.
Proof.
  destruct s as [|[t x] [|p s']]; cbn [List.length]; [| |lia]; intros _.
  - reflexivity.
  - unfold historical_volatility. now destruct x.
Qed.

Lemma summary_body_volatility (steps : Z) (st : state W)
    (s : series pyfloat) (r : summary) :
  _hpi_series st = Some s ->
  fst (summary_body W steps st) = Ok r ->
  volatility r = historical_volatility W s.
Proof.
  intros Hs. rewrite (summary_body_eq W steps st s Hs). cbn [fst].
  destruct (fst (forecast_hpi W steps st)) as [fc|]; cbn [bind]; [|discriminate].
  destruct (iloc_last s); cbn [bind]; [|discriminate].
  destruct (iloc_last (fst fc)); cbn [bind]; [|discriminate].
  destruct (if fne _ _ then _ else _); cbn [bind]; [|discriminate].
  now intros [= <-].
Qed.

(** X18: for a cached series of fewer than two points there is no
    percentage change, and the volatility the summary returns is 0.0, in
    the Fitted as in the Degraded state and for every [steps]. *)
Theorem short_history_has_no_volatility
    (steps : Z) (st : state W) (s : series pyfloat) :
  _hpi_series st = Some s -> (List.length s <= 1)%nat ->
  exists r,
    get_market_forecast_summary W steps st = (Ok r, st) /\
    volatility r = Fin 0.
Proof.
  intros Hs Hlen. rewrite get_market_forecast_summary_eq, Hs.
  eexists. split; [reflexivity|].
  destruct (fst (summary_body W steps st)) as [r|e] eqn:E; [|reflexivity].
  rewrite (summary_body_volatility steps st s r Hs E).
  now apply short_history_volatility.
Qed.

(** ** The Fitted state *)

(** X19: in the Fitted state the index of what the model returns is
    replaced.  For a loaded series that ends at [t], in a quarter before
    the first of 2262, and [steps >= 0] such that the quarter [steps]
    after that of [t] is not after the first of 2262: if the model delivers [steps] values the forecast gives them, in
    order, at the quarter ends of the [steps] quarters after the quarter
    of [t], and the bounds are re-indexed likewise when there are [steps]
    of them and left as they are otherwise; if the model delivers another
    number of values, [forecast_hpi] raises [ValueError]. *)
Theorem fitted_forecast_is_reindexed
    (st : state W) (s : series pyfloat) (t : timestamp) (x : pyfloat)
    (m : fitted W) (f : series pyfloat) (ci : series (pyfloat * pyfloat))
    (steps : Z) :
  reachable W st ->
  _hpi_series st = Some (s ++ [(t, x)]) -> _model_fit st = Some m ->
  get_forecast W m steps = Some (f, ci) ->
  0 <= steps ->
  quarter_of t < max_quarter -> quarter_of t + steps <= max_quarter ->
  let idx := map (fun i => quarter_end (quarter_of t + 1 + Z.of_nat i))
                 (seq 0 (Z.to_nat steps)) in
  (List.length f = Z.to_nat steps ->
   fst (forecast_hpi W steps st)
   = Ok (combine idx (map snd f),
         Some (if (List.length ci =? Z.to_nat steps)%nat
               then combine idx (map snd ci) else ci))) /\
  (List.length f <> Z.to_nat steps ->
   fst (forecast_hpi W steps st) = Raise ValueError).
Proof.
  intros R Hs Hm Hf Hsteps Hq Hqs idx.
  destruct (reachable_last_aligned W st s t x R Hs) as [_ Hlo]; [lia|].
  assert (D : forecast_index t steps = Ok idx).
  { rewrite (reachable_forecast_index W st s t x steps R Hs Hq).
    now replace ((min_quarter <=? quarter_of t + steps)
                 && (quarter_of t + steps <=? max_quarter)) with true
      by (symmetry; apply andb_true_iff; split; apply Z.leb_le; lia). }
  assert (Li : List.length idx = Z.to_nat steps)
    by (unfold idx; now rewrite length_map, length_seq).
  rewrite (forecast_hpi_fitted W steps st _ m Hs Hm), Hf.
  cbn [fst called bind].
  destruct (iloc_last_snoc s t x) as [_ ->]. cbn [bind].
  rewrite D. cbn [bind fst snd]. unfold set_index. rewrite Li. split.
  - intros Hlen. rewrite Hlen, Nat.eqb_refl. cbn [bind].
    now destruct (List.length ci =? Z.to_nat steps)%nat.
  - intros Hlen. apply Nat.eqb_neq in Hlen. rewrite Hlen. reflexivity.
Qed.

(** ** The order of the cached series *)

(** X20: the cached series is in chronological order.  In every state
    reached by load calls each point of the series has a timestamp that is
    not after the timestamp of any later point; points of the same quarter
    stay next to each other with equal timestamps. *)
Theorem cached_series_is_sorted (st : state W) (s : series pyfloat) :
  reachable W st -> _hpi_series st = Some s ->
  StronglySorted (fun a b => ts_leb (fst a) (fst b) = true) s.
Proof.
  intros R Hs.
  destruct (reachable_kept W st R s Hs) as [[_ H] _].
  clear - H. induction H as [|r rs Hs IH Hf]; constructor; [exact IH|].
  eapply Forall_impl; [|exact Hf].
  intros x Hx. apply ts_leb_le. exact Hx.
Qed.

(** ** A table that is already in order *)

Definition col_length (c : column) : nat :=
  match c with
  | NumCol xs => List.length xs
  | ObjCol xs => List.length xs
  end.

Lemma map_nth_seq {A} (d : A) (xs : list A) :
  map (fun i => nth i xs d) (seq 0 (List.length xs)) = xs.
Proof.
  induction xs as [|x xs IH]; [reflexivity|].
  cbn [List.length seq map nth]. f_equal.
  rewrite <- seq_shift, map_map. exact IH.
Qed.

Lemma take_all_rows (c : column) : take_rows (seq 0 (col_length c)) c = c.
Proof.
  destruct c as [xs|xs]; cbn [take_rows col_length]; now rewrite map_nth_seq.
Qed.

Lemma dated_rows_all (ds : list timestamp) (i : nat) :
  dated_rows i (map Some ds) = combine ds (seq i (List.length ds)).
Proof.
  revert i. induction ds as [|t ds IH]; intros i; [reflexivity|].
  cbn [map dated_rows List.length seq combine]. now rewrite IH.
Qed.

Lemma combine_seq_fst {A} (l : list A) (i : nat) :
  map fst (combine l (seq i (List.length l))) = l.
Proof.
  revert i. induction l as [|x l IH]; intros i; [reflexivity|].
  cbn [List.length seq combine map fst]. now rewrite IH.
Qed.

Lemma combine_seq_snd {A} (l : list A) (i : nat) :
  map snd (combine l (seq i (List.length l))) = seq i (List.length l).
Proof.
  revert i. induction l as [|x l IH]; intros i; [reflexivity|].
  cbn [List.length seq combine map snd]. now rewrite IH.
Qed.

Lemma combine_before {A} (idx : list timestamp) (vals : list A) :
  StronglySorted (fun a b => ts_ltb a b = true) idx ->
  StronglySorted before (combine idx vals).
Proof.
  revert vals. induction idx as [|t idx IH]; intros vals H; [constructor|].
  destruct vals as [|x vals]; [constructor|].
  inversion H as [|? ? Hs Hf]; subst. cbn [combine].
  constructor; [now apply IH|].
  apply Forall_forall. intros [t' x'] Hin.
  apply in_combine_l in Hin. rewrite Forall_forall in Hf.
  exact (Hf t' Hin).
Qed.

(** The choice of the value column looks at names and types only, which
    taking rows does not change. *)
Lemma detect_hpi_col_take_rows (rows : list nat) (df : dataframe) :
  detect_hpi_col (map (fun c => (fst c, take_rows rows (snd c))) df)
  = detect_hpi_col df.
Proof.
  unfold detect_hpi_col. rewrite !has_column_take_rows.
  destruct (has_column df "ALL"); [reflexivity|].
  destruct (has_column df "HPI"); [reflexivity|].
  induction df as [|[n c] df IH]; [reflexivity|].
  cbn [map filter fst snd].
  replace (is_numeric_dtype (take_rows rows c)) with (is_numeric_dtype c)
    by now destruct c.
  destruct (is_numeric_dtype c); [reflexivity | exact IH].
Qed.

Lemma column_of_take_rows (rows : list nat) (df : dataframe) (name : string) :
  column_of (map (fun c => (fst c, take_rows rows (snd c))) df) name
  = (c <- column_of df name ;; Ok (take_rows rows c)).
Proof.
  unfold column_of, get_column.
  induction df as [|[n c] df IH]; [reflexivity|].
  cbn [map find fst snd]. destruct (String.eqb n name); [reflexivity|].
  exact IH.
Qed.

(** A date in the month-year format lies in a quarter that ends within
    the bounds. *)
Lemma parse_b_y_in_bounds (c : string) (t : timestamp) :
  parse_b_y c = Some t -> in_bounds (to_quarter_end t) = true.
Proof.
  intros H. pose proof (parse_b_y_timestamp c t H) as T.
  pose proof (to_quarter_end_checked t T) as C. unfold checked in C.
  destruct (in_bounds (to_quarter_end t)); [reflexivity|].
  destruct (Z.leb_spec (quarter_of t) max_quarter) as [L|L]; [discriminate|].
  exfalso. revert H L. unfold parse_b_y.
  destruct (chars c) as [|a1 [|a2 [|a3 [|a4 [|a5 [|a6 [|a7 l]]]]]]];
    try discriminate.
  destruct (_ && _) eqn:D; [|discriminate].
  apply andb_true_iff in D. destruct D as [D D6].
  apply andb_true_iff in D. destruct D as [_ D5].
  assert (R : forall c, is_digit c = true -> 0 <= digit_val c <= 9).
  { intros ch H. unfold is_digit, digit_val in *.
    apply andb_true_iff in H. destruct H as [H1 H2].
    apply Nat.leb_le in H1, H2. lia. }
  pose proof (R a5 D5) as R5. pose proof (R a6 D6) as R6.
  destruct (month_of_abbrev _) as [m|] eqn:M; [|discriminate].
  intros E.
  apply (f_equal (fun o => match o with
                           | Some x => year x
                           | None => 0
                           end)) in E.
  cbv beta iota in E. unfold year at 1 in E.
  pose proof (is_timestamp_month t T) as Mo. unfold month_ok in Mo.
  unfold quarter_of, max_quarter. intros L.
  assert (Y : year t <= 2068)
    by (rewrite <- E;
        destruct (Z.leb_spec (10 * digit_val a5 + digit_val a6) 68); lia).
  Z.div_mod_to_equations. lia.
Qed.

(** X21: a table with distinct dates in order is cached as it stands.
    If every cell of the date column parses in the month-year format, the
    dates are in strictly increasing order and the value column converts
    to as many floats, then [load_hpi_and_fit], on a standard output that
    encodes its prints, returns [True], and the cached series is, row by
    row, the quarter end of the date with the value. *)
Theorem ordered_table_loads_as_is
    (path : string) (order : Z * Z * Z) (st : state W)
    (df : dataframe) (dc hc : string) (dates col : column)
    (ds : list timestamp) (xs : list pyfloat) :
  stdout_encodes W = true ->
  path_exists W (resolve W path) = true ->
  read_csv W (resolve W path) = Some df ->
  detect_date_col df = Ok dc ->
  column_of df dc = Ok dates ->
  map parse_b_y (astype_str_strip (str_of_float W) dates) = map Some ds ->
  StronglySorted (fun a b => ts_ltb a b = true) ds ->
  detect_hpi_col (drop_column df dc) = Ok hc ->
  column_of (drop_column df dc) hc = Ok col ->
  col_length col = List.length ds ->
  astype_float col = Ok xs ->
  load_hpi_and_fit W path order st
  = (Ok true,
     {| _hpi_series := Some (combine (map to_quarter_end ds) xs);
        _model_fit := fit_of W (combine (map to_quarter_end ds) xs) order |}).
Proof.
  intros Ho He Hr Hdc Hdates Hp Hsorted Hhc Hcol Hlen Hx.
  assert (Hread : read_series W path = Ok (combine ds xs)).
  { unfold read_series. fold (resolve W path).
    rewrite He, Hr. cbn [negb called bind].
    rewrite Hdc. cbn [bind]. rewrite Hdates. cbn [bind].
    assert (Pd : parse_dates W (astype_str_strip (str_of_float W) dates)
                 = map Some ds).
    { unfold parse_dates. rewrite Hp.
      replace (existsb is_NaT (map Some ds)) with false; [reflexivity|].
      clear. induction ds as [|t ds IH]; [reflexivity | exact IH]. }
    rewrite Pd, dated_rows_all.
    rewrite sort_rows_strict_id by now apply combine_before.
    rewrite combine_seq_snd, combine_seq_fst.
    rewrite detect_hpi_col_take_rows, Hhc. cbn [bind].
    rewrite column_of_take_rows, Hcol. cbn [bind].
    rewrite <- Hlen, take_all_rows, Hx. reflexivity. }
  rewrite load_hpi_and_fit_eq, Hread. unfold printed. rewrite Ho.
  assert (C : cached W (combine ds xs) = combine (map to_quarter_end ds) xs).
  { rewrite cached_snap; [apply snap_combine|].
    apply (combine_Forall_fst (fun t => in_bounds (to_quarter_end t) = true)).
    apply Forall_forall. intros t Hin.
    assert (I : In (Some t) (map parse_b_y
                               (astype_str_strip (str_of_float W) dates)))
      by (rewrite Hp; now apply in_map).
    apply in_map_iff in I. destruct I as (c & Hc & _).
    exact (parse_b_y_in_bounds c t Hc). }
  now rewrite C.
Qed.

End Engine.

(** ** A second concrete world

    A machine with a stand-in for statsmodels: the fit keeps the last
    value of a history of three points or more and fails on a shorter one,
    and the forecast repeats that value with itself as both bounds.  It
    has a table of three quarters in order and a table of one quarter. *)

Local Open Scope string_scope.

Definition three_quarters : dataframe :=
  [("Date", ObjCol [Some "Mar-17"; Some "Jun-17"; Some "Sep-17"]);
   ("HPI", NumCol [Fin 100; Fin 104; Fin 110])].

Definition one_quarter : dataframe :=
  [("Date", ObjCol [Some "Dec-20"]); ("HPI", NumCol [Fin 250])].

Definition tables (path : string) : option dataframe :=
  if String.eqb path "/srv/Server/artifacts/bangalore_hpi.csv"
  then Some three_quarters
  else if String.eqb path "/data/one.csv" then Some one_quarter
  else None.

Definition constant_fit (s : series pyfloat) (order : Z * Z * Z)
  : option pyfloat :=
  if (List.length s <? 3)%nat then None
  else match iloc_last s with Ok x => Some x | Raise _ => None end.

Definition constant_forecast (m : pyfloat) (steps : Z)
  : option (series pyfloat * series (pyfloat * pyfloat)) :=
  if (steps <? 0)%Z then None
  else Some (unindexed (repeat m (Z.to_nat steps)),
             unindexed (repeat (m, m) (Z.to_nat steps))).

Definition online : world :=
  {| base := "/srv/Server";
     path_exists :=
       fun p => match tables p with Some _ => true | None => false end;
     read_csv := tables;
     to_datetime_any := fun _ => None;
     argsort := fun ts => seq 0 (List.length ts);
     str_of_float := fun _ => "nan";
     _HAS_ARIMA := true;
     fitted := pyfloat;
     arima_fit := constant_fit;
     get_forecast := constant_forecast;
     sqrt := sqrt15;
     stdout_encodes := true |}.

(** The same machine with a standard output that encodes ASCII only. *)
Definition ascii_only : world :=
  {| base := "/srv/Server";
     path_exists :=
       fun p => match tables p with Some _ => true | None => false end;
     read_csv := tables;
     to_datetime_any := fun _ => None;
     argsort := fun ts => seq 0 (List.length ts);
     str_of_float := fun _ => "nan";
     _HAS_ARIMA := true;
     fitted := pyfloat;
     arima_fit := constant_fit;
     get_forecast := constant_forecast;
     sqrt := sqrt15;
     stdout_encodes := false |}.

Definition fitted_state : state online :=
  snd (loads online [default_call] (initial online)).

Definition single_state : state online :=
  snd (loads online [("/data/one.csv", (1, 1, 1))] (initial online)).

Definition sep17 : timestamp :=
  {| year := 2017; month := 9; day := 30; time := 0 |}.

Definition dec20 : timestamp :=
  {| year := 2020; month := 12; day := 31; time := 0 |}.

Lemma fitted_state_eq :
  fitted_state
  = Build_state online
      (Some [(mar17, Fin 100); (jun17, Fin 104); (sep17, Fin 110)])
      (Some (Fin 110)).
Proof. vm_compute. reflexivity. Qed.

Lemma single_state_eq :
  single_state = Build_state online (Some [(dec20, Fin 250)]) None.
Proof. vm_compute. reflexivity. Qed.

Lemma fit_failure_is_not_fatal_witness :
  fst (load_hpi_and_fit online "/data/one.csv" (1, 1, 1) (initial online))
  = Ok true /\
  _model_fit (snd (load_hpi_and_fit online "/data/one.csv" (1, 1, 1)
                                    (initial online))) = None /\
  fst (load_hpi_and_fit ascii_only "/data/one.csv" (1, 1, 1)
                        (initial ascii_only))
  = Raise UnicodeEncodeError /\
  _hpi_series (snd (load_hpi_and_fit ascii_only "/data/one.csv" (1, 1, 1)
                                     (initial ascii_only)))
  = Some [(dec20, Fin 250)].
Proof.
  destruct (fit_failure_is_not_fatal online "/data/one.csv" (1, 1, 1)
              (initial online)
              [({| year := 2020; month := 12; day := 1; time := 0 |}, Fin 250)])
    as (H1 & _ & _ & _ & H3 & _); [vm_compute; reflexivity|].
  destruct (fit_failure_is_not_fatal ascii_only "/data/one.csv" (1, 1, 1)
              (initial ascii_only)
              [({| year := 2020; month := 12; day := 1; time := 0 |}, Fin 250)])
    as (_ & H2 & H4 & _); [vm_compute; reflexivity|].
  split; [apply H1; reflexivity|].
  split; [apply H3; right; reflexivity|].
  split; [apply H2; reflexivity|].
  rewrite H4. vm_compute. reflexivity.
Defined.

Lemma degraded_steps_edges_witness :
  fst (forecast_hpi offline (-1) loaded) = Ok ([], None) /\
  fst (get_market_forecast_summary offline 0 loaded) = Ok default_summary /\
  raises (fst (forecast_hpi offline 2938 loaded)) /\
  option_map (fun fc => nth_error (fst fc) 0)
             (match fst (forecast_hpi offline 980 loaded) with
              | Ok fc => Some fc
              | Raise _ => None
              end)
  = Some (Some ({| year := 2017; month := 7; day := 31; time := 0 |},
                Fin 110)).
Proof.
  destruct (degraded_steps_edges offline loaded
              [(mar17, Fin 100); (jun17, Fin 110)] (-1)
              loaded_reachable loaded_series eq_refl) as (_ & H1 & _).
  destruct (H1 jun17 (Fin 110) eq_refl eq_refl) as (H1a & _);
    [vm_compute; reflexivity|].
  destruct (degraded_steps_edges offline loaded
              [(mar17, Fin 100); (jun17, Fin 110)] 0
              loaded_reachable loaded_series eq_refl) as (_ & _ & H2).
  destruct (degraded_steps_edges offline loaded
              [(mar17, Fin 100); (jun17, Fin 110)] 2938
              loaded_reachable loaded_series eq_refl) as (_ & H3 & _).
  destruct (H3 jun17 (Fin 110) eq_refl eq_refl) as (_ & _ & H3c);
    [vm_compute; reflexivity|].
  destruct (degraded_steps_edges offline loaded
              [(mar17, Fin 100); (jun17, Fin 110)] 980
              loaded_reachable loaded_series eq_refl) as (_ & H4 & _).
  destruct (H4 jun17 (Fin 110) eq_refl eq_refl) as (_ & H4b & _);
    [vm_compute; reflexivity|].
  split; [apply H1a; [lia | vm_compute; discriminate]|].
  split; [apply H2; right; left; lia|].
  split; [apply H3c; vm_compute; reflexivity|].
  rewrite H4b; [vm_compute; reflexivity | lia | vm_compute; reflexivity
               | vm_compute; discriminate].
Defined.

Lemma degraded_summary_is_moderate_witness :
  exists r,
    get_market_forecast_summary offline 4 loaded = (Ok r, loaded) /\
    risk_label r = "Moderate".
Proof.
  destruct (degraded_summary_is_moderate offline loaded [(mar17, Fin 100)]
              jun17 110 4 loaded_reachable loaded_series eq_refl)
    as (r & Hr & _ & Hl & _); [lia | vm_compute; discriminate |].
  exists r. split; [exact Hr | exact Hl].
Defined.

Lemma short_history_has_no_volatility_witness :
  exists r,
    get_market_forecast_summary online 4 single_state = (Ok r, single_state) /\
    volatility r = Fin 0.
Proof.
  apply (short_history_has_no_volatility online 4 single_state
           [(dec20, Fin 250)]).
  - reflexivity.
  - cbn. lia.
Defined.

Lemma fitted_state_reachable : reachable online fitted_state.
Proof. exists [default_call]. reflexivity. Qed.

Lemma fitted_forecast_is_reindexed_witness :
  fst (forecast_hpi online 2 fitted_state)
  = Ok ([(quarter_end (quarter_of sep17 + 1), Fin 110);
         (quarter_end (quarter_of sep17 + 2), Fin 110)],
        Some [(quarter_end (quarter_of sep17 + 1), (Fin 110, Fin 110));
              (quarter_end (quarter_of sep17 + 2), (Fin 110, Fin 110))]).
Proof.
  destruct (fitted_forecast_is_reindexed online fitted_state
              [(mar17, Fin 100); (jun17, Fin 104)] sep17 (Fin 110) (Fin 110)
              (unindexed (repeat (Fin 110) 2))
              (unindexed (repeat (Fin 110, Fin 110) 2)) 2
              fitted_state_reachable)
    as [H _].
  - rewrite fitted_state_eq. reflexivity.
  - rewrite fitted_state_eq. reflexivity.
  - reflexivity.
  - lia.
  - vm_compute. reflexivity.
  - vm_compute. discriminate.
  - rewrite H by reflexivity. reflexivity.
Defined.

Lemma cached_series_is_sorted_witness :
  StronglySorted (fun a b => ts_leb (fst a) (fst b) = true)
                 [(mar17, Fin 100); (jun17, Fin 110)].
Proof.
  apply (cached_series_is_sorted offline loaded).
  - exact loaded_reachable.
  - exact loaded_series.
Defined.

Lemma ordered_table_loads_as_is_witness :
  load_hpi_and_fit online "artifacts/bangalore_hpi.csv" (1, 1, 1)
                   (initial online)
  = (Ok true, fitted_state).
Proof.
  rewrite (ordered_table_loads_as_is online "artifacts/bangalore_hpi.csv"
             (1, 1, 1) (initial online) three_quarters "Date" "HPI"
             (ObjCol [Some "Mar-17"; Some "Jun-17"; Some "Sep-17"])
             (NumCol [Fin 100; Fin 104; Fin 110])
             [{| year := 2017; month := 3; day := 1; time := 0 |};
              {| year := 2017; month := 6; day := 1; time := 0 |};
              {| year := 2017; month := 9; day := 1; time := 0 |}]
             [Fin 100; Fin 104; Fin 110]); try reflexivity.
  repeat constructor.
Defined.

End forecast_extra.

(* ================================================================== *)
(** * [sentiment_roberta.py] *)
(* ================================================================== *)

Module sentiment_roberta.

Local Open Scope string_scope.

(** ** JSON values, as [r.json()] returns them *)

Local Unset Elimination Schemes.

Inductive json : Set :=
| JVal (v : pyval)                       (* null, a boolean, a number, a string *)
| JArr (items : list json)
| JObj (members : list (string * json)).

Local Set Elimination Schemes.

Definition json_truthy (j : json) : bool :=
  match j with
  | JVal v => truthy v
  | JArr [] => false
  | JArr (_ :: _) => true
  | JObj [] => false
  | JObj (_ :: _) => true
  end.

(** [d.get(key)]: of several members with one key the last counts. *)
Definition obj_get (members : list (string * json)) (key : string)
  : option json :=
  option_map snd (find (fun m => String.eqb (fst m) key) (rev members)).

(** ** What the module takes from its surroundings

    The environment, NewsAPI and the Hugging Face pipeline.  A call that
    raises is [None].  An entry of what the pipeline returns has, when they
    are present, a string under 'label' and a float under 'score', as the
    pipeline documents. *)

Record entry : Set := {
  e_label : option string;
  e_score : option pyfloat
}.

(** What [pipe(text)] returns: a list of entries, or something that is not
    a list, of which only the truth value is looked at. *)
Inductive pipe_out : Set :=
| OutList (entries : list entry)
| OutOther (truth : bool).

Record world : Type := {
  environ : string -> option string;               (* os.environ.get *)
  get_json : string -> string -> Z -> option json; (* query, key, page size *)
  create_pipeline : bool;                          (* pipeline(...) succeeds *)
  run_text : string -> option pipe_out;            (* pipe(text) *)
  run_batch : list json -> option (list entry)     (* pipe(sample) *)
}.

(** ** Python's [min], [max], [in] and slices *)

(** [min(a, b)] and [max(a, b)]: the first argument unless the second is
    strictly beyond it. *)
Definition py_min (a b : pyfloat) : pyfloat := if flt b a then b else a.
Definition py_max (a b : pyfloat) : pyfloat := if fgt b a then b else a.

(** [needle in hay] *)
Fixpoint contains (needle hay : string) : bool :=
  prefix needle hay ||
  match hay with
  | EmptyString => false
  | String _ hay' => contains needle hay'
  end.

(** [l[:n]] *)
Definition slice_to {A} (l : list A) (n : Z) : list A :=
  if (0 <=? n)%Z then firstn (Z.to_nat n) l
  else firstn (List.length l - Z.to_nat (- n)) l.

(** [Counter(labels).most_common(1)]: the first label, in the order of
    first occurrence, that no other label outnumbers. *)
Definition count_label (l : string) (labels : list string) : nat :=
  count_occ string_dec labels l.

Definition most_common1 (labels : list string) : option string :=
  option_map fst
    (fold_left
       (fun best l =>
          let c := count_label l labels in
          match best with
          | None => Some (l, c)
          | Some (_, cb) => if (cb <? c)%nat then Some (l, c) else best
          end)
       labels None).

(** ** Results *)

Inductive raw_info : Set :=
| RawReason (reason : string)      (* {'reason': ...} *)
| RawError (e : exn)               (* {'error': str(e)} *)
| RawEntry (r : entry).            (* the entry itself *)

(** The dictionary [analyze_text] returns. *)
Record text_sentiment : Set := {
  sentiment : string;
  score : pyfloat;
  raw : raw_info
}.

Inductive details : Set :=
| Count (n : nat)                                 (* {"count": n} *)
| CountLabels (n : nat) (labels : list string)    (* {"count":, "labels":} *)
| Reason (reason : string).                       (* {"reason": ...} *)

Definition triple : Set := (string * pyfloat * details)%type.

(** [get_sentiment_for_topic] returns a tuple on two of its paths and the
    dictionary of [analyze_text] on the third. *)
Inductive topic_sentiment : Set :=
| Tuple (t : triple)
| Dict (d : text_sentiment).

Section Module_.

Variable W : world.

(** ** The global [_pipeline]: created or not *)

Definition state : Set := bool.

Definition M (A : Type) : Type := state -> result A * state.

Definition ret {A} (a : A) : M A := fun st => (Ok a, st).

Definition lift {A} (r : result A) : M A := fun st => (r, st).

Definition mbind {A B} (c : M A) (k : A -> M B) : M B :=
  fun st =>
    match c st with
    | (Ok a, st') => k a st'
    | (Raise e, st') => (Raise e, st')
    end.

Definition try_ {A} (c : M A) (handler : exn -> M A) : M A :=
  fun st =>
    match c st with
    | (Ok a, st') => (Ok a, st')
    | (Raise e, st') => handler e st'
    end.

Definition called {A} (tag : string) (o : option A) : result A :=
  match o with
  | Some a => Ok a
  | None => Raise (LibraryError tag)
  end.

Notation "x <~ c ;; k" := (mbind c (fun x => k))
  (at level 61, c at next level, right associativity).
Notation "c ;;; k" := (mbind c (fun _ => k))
  (at level 61, right associativity).

(** Lines 75-80 (the second definition replaces the first). *)
Definition _init_pipeline : M unit :=
  fun st =>
    if st then (Ok tt, st)
    else if create_pipeline W then (Ok tt, true)
    else (Raise (LibraryError "pipeline"), st).

(** ** [_fetch_newsapi_headlines] *)

(** The titles of the articles, inside the [try]: anything that is not an
    object where one is needed raises. *)
Fixpoint titles (items : list json) : result (list json) :=
  match items with
  | [] => Ok []
  | JObj it :: items' =>
      match obj_get it "title" with
      | Some t =>
          if json_truthy t then (ts <- titles items' ;; Ok (t :: ts))
          else titles items'
      | None => titles items'
      end
  | _ :: _ => Raise AttributeError
  end.

(** Iterating over [j.get("articles", [])]. *)
Definition articles_of (j : json) : result (list json) :=
  match j with
  | JObj d =>
      match obj_get d "articles" with
      | None => Ok []
      | Some (JArr items) => Ok items
      | Some (JObj members) => Ok (map (fun m => JVal (VStr (fst m))) members)
      | Some (JVal (VStr s)) =>
          Ok (map (fun c => JVal (VStr (String c EmptyString))) (chars s))
      | Some (JVal _) => Raise TypeError
      end
  | _ => Raise AttributeError
  end.

Definition _fetch_newsapi_headlines
    (query : string) (api_key : option string) (page_size : Z) : list json :=
  let key :=
    match api_key with
    | Some k => if String.eqb k EmptyString then environ W "NEWSAPI_KEY"
                else Some k
    | None => environ W "NEWSAPI_KEY"
    end in
  match key with
  | None => []
  | Some k =>
      if String.eqb k EmptyString then []
      else
        match
          try_except
            (j <- called "requests" (get_json W query k page_size) ;;
             items <- articles_of j ;;
             titles items)
            (fun _ => Ok [])
        with
        | Ok headlines => headlines
        | Raise _ => []
        end
  end.

(** ** [analyze_text] *)

Definition neutral_default (info : raw_info) : text_sentiment :=
  {| sentiment := "Neutral"; score := Fin 50; raw := info |}.

(** [not str(text).strip()]: the text of a value that is not a string and
    is truthy is never blank. *)
Definition blank (text : pyval) : bool :=
  match text with
  | VStr s => String.eqb (strip s) EmptyString
  | _ => false
  end.

(** [text[:1000]]: only a string can be sliced. *)
Definition head1000 (text : pyval) : result string :=
  match text with
  | VStr s => Ok (substring 0 1000 s)
  | _ => Raise TypeError
  end.

Definition member (s : string) (l : list string) : bool :=
  existsb (String.eqb s) l.

(** Lines 97-124: label and percentage of one entry. *)
Definition classify (r : entry) : string * pyfloat :=
  let raw_label := match e_label r with Some l => l | None => EmptyString end in
  let raw_score := match e_score r with Some x => x | None => Fin 0 end in
  let lab := lower raw_label in
  let '(sentiment, score_pct) :=
    if member lab ["positive"; "pos"; "label_2"; "label2"; lower "LABEL_2"]
    then ("Positive", fmul raw_score (Fin 100))
    else if member lab ["negative"; "neg"; "label_0"; "label0"; lower "LABEL_0"]
    then ("Negative", fmul (fsub (Fin 1) raw_score) (Fin 100))
    else if member lab ["neutral"; "neu" ++ "label1"]
    then ("Neutral", fmul raw_score (Fin 100))
    else if contains "pos" lab
    then ("Positive", fmul raw_score (Fin 100))
    else if contains "neg" lab
    then ("Negative", fmul (fsub (Fin 1) raw_score) (Fin 100))
    else ("Neutral", fmul raw_score (Fin 100)) in
  (sentiment, py_max (Fin 0) (py_min (Fin 100) (round score_pct 2))).

Definition analyze_text (text : pyval) : M text_sentiment :=
  if negb (truthy text) || blank text
  then ret (neutral_default (RawReason "empty_input"))
  else
    _init_pipeline ;;;
    try_ (t <~ lift (head1000 text) ;;
          out <~ lift (called "pipeline" (run_text W t)) ;;
          match out with
          | OutOther _ | OutList [] =>
              ret (neutral_default (RawReason "no_output"))
          | OutList (r :: _) =>
              let '(sentiment, score_pct) := classify r in
              ret {| sentiment := sentiment; score := score_pct;
                     raw := RawEntry r |}
          end)
         (fun e => ret (neutral_default (RawError e))).

(** ** [aggregate_headlines_sentiment] *)

Definition neutral_triple : triple := ("Neutral", Fin 50, Count 0).

(** One turn of the loop of lines 149-163: the label and the score that
    are appended. *)
Definition tally (r : entry) : string * pyfloat :=
  let labs := lower (match e_label r with Some l => l | None => EmptyString end) in
  let score := match e_score r with Some x => x | None => Fin 0 end in
  if contains "pos" labs then ("Positive", score)
  else if contains "neu" labs then ("Neutral", fmul score (Fin 0.5))
  else if contains "neg" labs then ("Negative", fsub (Fin 1) score)
  else (match e_label r with Some l => l | None => "Neutral" end, Fin 0.5).

(** [sum(xs) / max(1, len(xs))] *)
Definition mean (xs : list pyfloat) : pyfloat :=
  fdiv (fold_left fadd xs (Fin 0))
       (Fin (inject_Z (Z.of_nat (Nat.max 1 (List.length xs))))).

Definition aggregate_headlines_sentiment
    (headlines : list json) (chunk_size : Z) : M triple :=
  match headlines with
  | [] => ret neutral_triple
  | _ :: _ =>
      _init_pipeline ;;;
      try_ (let sample := slice_to headlines chunk_size in
            res <~ lift (called "pipeline" (run_batch W sample)) ;;
            let pairs := map tally res in
            let labels := map fst pairs in
            let pos_scores := map snd pairs in
            most <~ lift (match most_common1 labels with
                          | Some l => Ok l
                          | None => Raise IndexError
                          end) ;;
            let avg_score := round (fmul (mean pos_scores) (Fin 100)) 2 in
            ret (most, avg_score, CountLabels (List.length sample) labels))
           (fun _ => ret neutral_triple)
  end.

(** ** [get_sentiment_for_topic] *)

Definition get_sentiment_for_topic
    (topic : string) (newsapi_key : option string) (fallback_text : pyval)
  : M topic_sentiment :=
  let headlines := _fetch_newsapi_headlines topic newsapi_key 20 in
  match headlines with
  | _ :: _ =>
      t <~ aggregate_headlines_sentiment headlines 8 ;; ret (Tuple t)
  | [] =>
      if truthy fallback_text
      then d <~ analyze_text fallback_text ;; ret (Dict d)
      else ret (Tuple ("Neutral", Fin 50, Reason "no_data"))
  end.

End Module_.

End sentiment_roberta.

(* ================================================================== *)
(** * Properties of [sentiment_roberta.py] *)
(* ================================================================== *)

Module sentiment_props.

Import sentiment_roberta.
Local Open Scope Q_scope.
Local Open Scope string_scope.

(** A finite percentage. *)
Definition percent (x : pyfloat) : Prop :=
  match x with
  | Fin q => 0 <= q /\ q <= 100
  | _ => False
  end.

(** The number of items of the longest list CPython holds,
    [sys.maxsize]. *)
Definition maxsize : Z := Eval vm_compute in (2 ^ 63 - 1)%Z.

Lemma maxsize_moderate (n : nat) :
  (Z.of_nat n <= maxsize)%Z ->
  inject_Z (Z.of_nat n) + 1 <= risk_props.moderate_bound.
Proof.
  intros H. rewrite Zle_Qle in H.
  assert (B : inject_Z maxsize + 1 <= risk_props.moderate_bound)
    by (vm_compute; discriminate).
  lra.
Qed.

Lemma moderate_bound_finite : risk_props.moderate_bound < overflow_threshold.
Proof. vm_compute. reflexivity. Qed.

(** A product or a sum of magnitude at most 100 does not overflow. *)
Ltac fin_small :=
  match goal with
  | |- context [fin ?q] =>
      rewrite (risk_props.fin_Fin q 100);
      [ | apply risk_props.Qabs_le; split; lra | vm_compute; reflexivity ]
  end.

Lemma clamp_percent (x : pyfloat) :
  percent (py_max (Fin 0) (py_min (Fin 100) x)).
Proof.
  unfold py_max, py_min, fgt.
  destruct x as [q | [|] |]; cbn [flt negb].
  - destruct (Qltb q 100) eqn:A; cbn [flt].
    + destruct (Qltb 0 q) eqn:B; cbn [percent].
      * apply risk_props.Qltb_lt in A, B. lra.
      * lra.
    + cbn. lra.
  - cbn. lra.
  - cbn. lra.
  - cbn. lra.
Qed.

Lemma clamp_same (q : Q) :
  0 <= q -> q <= 100 -> same (py_max (Fin 0) (py_min (Fin 100) (Fin q))) (Fin q).
Proof.
  intros H0 H1. unfold py_max, py_min, fgt. cbn [flt].
  destruct (Qltb q 100) eqn:A; cbn [flt].
  - destruct (Qltb 0 q) eqn:B; cbn [same]; [lra|].
    apply risk_props.Qltb_ge in B. lra.
  - apply risk_props.Qltb_ge in A.
    replace (Qltb 0 100) with true by reflexivity. cbn [same]. lra.
Qed.

Lemma classify_cases (r : entry) :
  (fst (classify r) = "Positive" \/ fst (classify r) = "Neutral" \/
   fst (classify r) = "Negative") /\
  percent (snd (classify r)).
Proof.
  unfold classify.
  repeat match goal with
  | |- context [if ?b then _ else _] =>
      match b with
      | member _ _ => destruct b
      | contains _ _ => destruct b
      end
  end; cbn [fst snd]; (split; [tauto | apply clamp_percent]).
Qed.

Section Module_.

Variable W : world.

Lemma analyze_text_eq (text : pyval) (st : state) :
  analyze_text W text st =
  if negb (truthy text) || blank text
  then (Ok (neutral_default (RawReason "empty_input")), st)
  else if st || create_pipeline W then
    (Ok match (t <- head1000 text ;; called "pipeline" (run_text W t)) with
        | Ok (OutList (r :: _)) =>
            {| sentiment := fst (classify r); score := snd (classify r);
               raw := RawEntry r |}
        | Ok _ => neutral_default (RawReason "no_output")
        | Raise e => neutral_default (RawError e)
        end,
     true)
  else (Raise (LibraryError "pipeline"), st).
Proof.
  unfold analyze_text.
  destruct (negb (truthy text) || blank text); [reflexivity|].
  unfold mbind at 1, _init_pipeline.
  assert (G : forall st0,
    try_ (mbind (lift (head1000 text)) (fun t =>
            mbind (lift (called "pipeline" (run_text W t))) (fun out =>
              match out with
              | OutList [] => ret (neutral_default (RawReason "no_output"))
              | OutList (r :: _) =>
                  let '(sentiment, score_pct) := classify r in
                  ret {| sentiment := sentiment; score := score_pct;
                         raw := RawEntry r |}
              | OutOther _ => ret (neutral_default (RawReason "no_output"))
              end)))
         (fun e => ret (neutral_default (RawError e))) st0
    = (Ok match (t <- head1000 text ;; called "pipeline" (run_text W t)) with
          | Ok (OutList (r :: _)) =>
              {| sentiment := fst (classify r); score := snd (classify r);
                 raw := RawEntry r |}
          | Ok _ => neutral_default (RawReason "no_output")
          | Raise e => neutral_default (RawError e)
          end, st0)).
  { intros st0. unfold try_, mbind, lift, ret.
    destruct (head1000 text) as [t|e]; cbn [bind]; [|reflexivity].
    destruct (called "pipeline" (run_text W t)) as [[[|r l]|b]|e];
      try reflexivity.
    now destruct (classify r). }
  destruct st; cbn [orb].
  - apply G.
  - destruct (create_pipeline W); [apply G | reflexivity].
Qed.

(** X22: whatever the pipeline returns, also an infinite or NaN confidence
    or an unknown label, a result of [analyze_text] has a finite score
    between 0 and 100 and one of the sentiments "Positive", "Neutral" and
    "Negative". *)
Theorem analyze_text_is_a_percentage
    (text : pyval) (st st' : state) (r : text_sentiment) :
  analyze_text W text st = (Ok r, st') ->
  percent (score r) /\
  (sentiment r = "Positive" \/ sentiment r = "Neutral" \/
   sentiment r = "Negative").
Proof.
  rewrite analyze_text_eq.
  assert (D : forall info, percent (score (neutral_default info)) /\
                (sentiment (neutral_default info) = "Positive" \/
                 sentiment (neutral_default info) = "Neutral" \/
                 sentiment (neutral_default info) = "Negative")).
  { intros info. cbn. split; [lra | tauto]. }
  destruct (negb (truthy text) || blank text); [intros [= <- _]; apply D|].
  destruct (st || create_pipeline W); [|discriminate].
  intros [= <- _].
  destruct (bind _ _) as [[[|e l]|b]|e]; try apply D.
  cbn [score sentiment]. destruct (classify_cases e) as [H1 H2].
  split; [exact H2 | tauto].
Qed.

(** X23: [analyze_text] answers an empty or blank text with the neutral
    default without creating the pipeline; on any other text it raises
    exactly when the pipeline does not exist yet and cannot be created, and
    otherwise returns, whatever goes wrong in the pipeline, leaving the
    pipeline created. *)
Theorem analyze_text_raises_only_without_pipeline (text : pyval) (st : state) :
  (truthy text = false \/ blank text = true ->
   analyze_text W text st
   = (Ok (neutral_default (RawReason "empty_input")), st)) /\
  (truthy text = true -> blank text = false ->
   (st = true \/ create_pipeline W = true ->
    exists r, analyze_text W text st = (Ok r, true)) /\
   (st = false -> create_pipeline W = false ->
    analyze_text W text st = (Raise (LibraryError "pipeline"), false))).
Proof.
  rewrite analyze_text_eq. split.
  - intros [-> | ->]; [reflexivity | now rewrite orb_true_r].
  - intros -> ->. cbn [negb orb]. split.
    + intros [-> | ->]; [|rewrite orb_true_r]; eexists; reflexivity.
    + intros -> ->. reflexivity.
Qed.

(** X24: the three labels of the default model, in any letter case.  For
    a non-blank text, a pipeline that exists or can be created, and a first
    entry of confidence [c] between 0 and 1: LABEL_2 gives "Positive" with
    score [round(100 c, 2)], LABEL_0 gives "Negative" with
    [round(100 (1 - c), 2)], and LABEL_1, which none of the three tuples
    holds, gives "Neutral" with [round(100 c, 2)] by the last branch.  Only
    the first entry counts. *)
Theorem model_labels
    (s L : string) (c : Q) (rest : list entry) (st : state) :
  truthy (VStr s) = true -> blank (VStr s) = false ->
  st = true \/ create_pipeline W = true ->
  run_text W (substring 0 1000 s)
  = Some (OutList ({| e_label := Some L; e_score := Some (Fin c) |} :: rest)) ->
  0 <= c -> c <= 1 ->
  exists r,
    analyze_text W (VStr s) st = (Ok r, true) /\
    (lower L = "label_2" ->
     sentiment r = "Positive" /\ same (score r) (round (Fin (c * 100)) 2)) /\
    (lower L = "label_0" ->
     sentiment r = "Negative" /\
     same (score r) (round (Fin ((1 - c) * 100)) 2)) /\
    (lower L = "label_1" ->
     sentiment r = "Neutral" /\ same (score r) (round (Fin (c * 100)) 2)).
Proof.
  intros Ht Hb Hp Hrun H0 H1. rewrite analyze_text_eq, Ht, Hb.
  cbn [negb orb]. replace (st || create_pipeline W) with true
    by (destruct Hp as [-> | ->]; [reflexivity | now rewrite orb_true_r]).
  cbn [head1000 bind]. rewrite Hrun. cbn [called].
  eexists. split; [reflexivity|]. cbn [sentiment score].
  assert (R : forall q, 0 <= q -> q <= 100 ->
            same (py_max (Fin 0) (py_min (Fin 100) (round (Fin q) 2)))
                 (round (Fin q) 2)).
  { intros q Hq0 Hq1. rewrite risk_props.round_Fin.
    apply clamp_same; apply risk_extra.qround2_range; assumption. }
  unfold classify. cbn [e_label e_score].
  split; [|split]; intros ->; cbn [fst snd];
    repeat (cbn [fmul fsub fadd fneg]; fin_small);
    (split; [reflexivity | apply R; lra]).
Qed.

(** ** [aggregate_headlines_sentiment] *)

Lemma aggregate_eq (h : json) (hs : list json) (chunk : Z) (st : state) :
  aggregate_headlines_sentiment W (h :: hs) chunk st =
  if st || create_pipeline W then
    (Ok match run_batch W (slice_to (h :: hs) chunk) with
        | Some res =>
            match most_common1 (map fst (map tally res)) with
            | Some most =>
                (most,
                 round (fmul (mean (map snd (map tally res))) (Fin 100)) 2,
                 CountLabels (List.length (slice_to (h :: hs) chunk))
                             (map fst (map tally res)))
            | None => neutral_triple
            end
        | None => neutral_triple
        end,
     true)
  else (Raise (LibraryError "pipeline"), st).
Proof.
  unfold aggregate_headlines_sentiment, mbind at 1, _init_pipeline.
  assert (G : forall st0,
    try_ (mbind (lift (called "pipeline" (run_batch W (slice_to (h :: hs) chunk))))
            (fun res =>
               mbind (lift match most_common1 (map fst (map tally res)) with
                           | Some l => Ok l
                           | None => Raise IndexError
                           end)
                 (fun most =>
                    ret (most,
                         round (fmul (mean (map snd (map tally res))) (Fin 100)) 2,
                         CountLabels (List.length (slice_to (h :: hs) chunk))
                                     (map fst (map tally res))))))
         (fun _ => ret neutral_triple) st0
    = (Ok match run_batch W (slice_to (h :: hs) chunk) with
          | Some res =>
              match most_common1 (map fst (map tally res)) with
              | Some most =>
                  (most,
                   round (fmul (mean (map snd (map tally res))) (Fin 100)) 2,
                   CountLabels (List.length (slice_to (h :: hs) chunk))
                               (map fst (map tally res)))
              | None => neutral_triple
              end
          | None => neutral_triple
          end, st0)).
  { intros st0. unfold try_, mbind, lift, ret, called.
    destruct (run_batch W _) as [res|]; [|reflexivity].
    destruct (most_common1 _); reflexivity. }
  destruct st; cbn [orb].
  - apply G.
  - destruct (create_pipeline W); [apply G | reflexivity].
Qed.

Lemma most_common1_nil : most_common1 [] = None.
Proof. reflexivity. Qed.

Lemma most_common1_in (labels : list string) :
  labels <> [] -> exists l, most_common1 labels = Some l /\ In l labels.
Proof.
  unfold most_common1. intros Hne.
  set (f := fun (best : option (string * nat)) (l : string) =>
              let c := count_label l labels in
              match best with
              | None => Some (l, c)
              | Some (_, cb) => if (cb <? c)%nat then Some (l, c) else best
              end).
  assert (G : forall ls acc,
            (forall p, acc = Some p -> In (fst p) labels) ->
            (forall l, In l ls -> In l labels) ->
            (acc <> None \/ ls <> []) ->
            exists p, fold_left f ls acc = Some p /\ In (fst p) labels).
  { induction ls as [|l ls IH]; intros acc Ha Hl Hn; cbn [fold_left].
    - destruct acc as [p|]; [exists p; auto|].
      destruct Hn as [Hn|Hn]; contradiction.
    - apply IH.
      + intros p Hp. unfold f in Hp.
        destruct acc as [[b cb]|].
        * destruct (cb <? count_label l labels)%nat.
          -- injection Hp as <-. cbn. apply Hl. now left.
          -- apply Ha. exact Hp.
        * injection Hp as <-. cbn. apply Hl. now left.
      + intros l' Hl'. apply Hl. now right.
      + left. unfold f. destruct acc as [[b cb]|]; [|discriminate].
        destruct (cb <? count_label l labels)%nat; discriminate. }
  destruct (G labels None) as (p & Hp & Hin).
  - intros p Hp. discriminate Hp.
  - auto.
  - now right.
  - exists (fst p). fold f. rewrite Hp. split; [reflexivity | exact Hin].
Qed.

(** X25: [aggregate_headlines_sentiment] answers an empty list with the
    neutral default without creating the pipeline; for a non-empty list it
    raises exactly when the pipeline does not exist yet and cannot be
    created; otherwise it returns, and what it returns is the neutral
    default when the pipeline raises or returns no entry. *)
Theorem aggregate_defaults (hs : list json) (chunk : Z) (st : state) :
  (hs = [] ->
   aggregate_headlines_sentiment W hs chunk st = (Ok neutral_triple, st)) /\
  (hs <> [] -> st = false -> create_pipeline W = false ->
   aggregate_headlines_sentiment W hs chunk st
   = (Raise (LibraryError "pipeline"), false)) /\
  (hs <> [] -> st = true \/ create_pipeline W = true ->
   exists t,
     aggregate_headlines_sentiment W hs chunk st = (Ok t, true) /\
     (run_batch W (slice_to hs chunk) = None \/
      run_batch W (slice_to hs chunk) = Some [] -> t = neutral_triple)).
Proof.
  destruct hs as [|h hs].
  - split; [reflexivity|]. split; intros H; contradiction.
  - rewrite aggregate_eq. split; [discriminate|]. split.
    + intros _ -> ->. reflexivity.
    + intros _ Hp. replace (st || create_pipeline W) with true
        by (destruct Hp as [-> | ->]; [reflexivity | now rewrite orb_true_r]).
      eexists. split; [reflexivity|].
      intros [-> | ->]; reflexivity.
Qed.

(** The scores the loop collects, when each is finite and between [lo]
    and [hi], have a finite mean between [lo] and [hi]. *)
Definition within (lo hi : Q) (x : pyfloat) : Prop :=
  match x with
  | Fin t => lo <= t /\ t <= hi
  | _ => False
  end.

Lemma sum_within (lo hi : Q) (xs : list pyfloat) :
  0 <= lo -> hi <= 1 ->
  Forall (within lo hi) xs ->
  forall a, 0 <= a ->
    a + inject_Z (Z.of_nat (List.length xs)) <= risk_props.moderate_bound ->
    exists q,
      fold_left fadd xs (Fin a) = Fin q /\
      a + inject_Z (Z.of_nat (List.length xs)) * lo <= q /\
      q <= a + inject_Z (Z.of_nat (List.length xs)) * hi.
Proof.
  intros Hlo Hhi. induction 1 as [|x xs Hx _ IH]; intros a Ha Hb.
  - exists a. cbn [fold_left List.length Z.of_nat].
    change (inject_Z 0) with 0. split; [reflexivity | lra].
  - destruct x as [t | |]; try contradiction. cbn [within] in Hx.
    cbn [List.length] in Hb. rewrite Nat2Z.inj_succ in Hb.
    unfold Z.succ in Hb. rewrite inject_Z_plus in Hb.
    change (inject_Z 1) with 1 in Hb.
    assert (P : 0 <= inject_Z (Z.of_nat (List.length xs)))
      by (change 0 with (inject_Z 0); rewrite <- Zle_Qle; lia).
    destruct (IH (a + t)) as (q & E & L & U); [lra | lra |].
    exists q. cbn [fold_left fadd].
    rewrite (risk_props.fin_Fin (a + t) risk_props.moderate_bound);
      [ | apply risk_props.Qabs_le; split; lra | exact moderate_bound_finite ].
    split; [exact E|].
    cbn [List.length]. rewrite Nat2Z.inj_succ. unfold Z.succ.
    rewrite inject_Z_plus. change (inject_Z 1) with 1.
    split; lra.
Qed.

Lemma mean_within (lo hi : Q) (xs : list pyfloat) :
  0 <= lo -> hi <= 1 ->
  xs <> [] -> (Z.of_nat (List.length xs) <= maxsize)%Z ->
  Forall (within lo hi) xs -> within lo hi (mean xs).
Proof.
  intros Hlo Hhi Hne Hlen HF. unfold mean.
  pose proof (maxsize_moderate _ Hlen) as Hm.
  destruct (sum_within lo hi xs Hlo Hhi HF 0) as (q & -> & L & U);
    [lra | lra |].
  assert (Hn : (1 <= List.length xs)%nat)
    by (destruct xs; [contradiction | cbn; lia]).
  rewrite Nat.max_r by exact Hn.
  set (n := inject_Z (Z.of_nat (List.length xs))) in *.
  assert (Pn : 1 <= n).
  { unfold n. change 1 with (inject_Z 1). rewrite <- Zle_Qle. lia. }
  cbn [fdiv].
  replace (Qis0 n) with false
    by (symmetry; apply risk_props.Qis0_false; lra).
  assert (In_ : 0 < / n) by (apply Qinv_lt_0_compat; lra).
  assert (Ei : n * / n == 1) by (apply Qmult_inv_r; lra).
  assert (B : lo <= q / n /\ q / n <= hi).
  { unfold Qdiv. split.
    - apply Qle_trans with ((n * lo) * / n).
      + setoid_replace (n * lo * / n) with (lo * (n * / n)) by ring.
        rewrite Ei. lra.
      + apply Qmult_le_compat_r; lra.
    - apply Qle_trans with ((n * hi) * / n).
      + apply Qmult_le_compat_r; lra.
      + setoid_replace (n * hi * / n) with (hi * (n * / n)) by ring.
        rewrite Ei. lra. }
  fin_small. exact B.
Qed.

(** The label of an entry, as [r.get("label", default)] gives it. *)
Definition label_or (default : string) (r : entry) : string :=
  match e_label r with Some l => l | None => default end.

(** A label in which the loop finds none of "pos", "neu" and "neg". *)
Definition unmapped (r : entry) : bool :=
  let labs := lower (label_or EmptyString r) in
  negb (contains "pos" labs) && negb (contains "neu" labs) &&
  negb (contains "neg" labs).

Lemma tally_unmapped (r : entry) :
  unmapped r = true -> tally r = (label_or "Neutral" r, Fin 0.5).
Proof.
  unfold unmapped, tally, label_or. cbn zeta.
  destruct (contains "pos" _); [discriminate|].
  destruct (contains "neu" _); [discriminate|].
  destruct (contains "neg" _); [discriminate|].
  reflexivity.
Qed.

(** A confidence as the model gives it: a finite float between 0 and 1,
    or none. *)
Definition confident (r : entry) : Prop :=
  match e_score r with
  | Some x => within 0 1 x
  | None => True
  end.

Lemma tally_within (r : entry) : confident r -> within 0 1 (snd (tally r)).
Proof.
  unfold confident, tally. cbn zeta.
  destruct (e_score r) as [[c | |]|]; cbn [within]; try contradiction;
    intros H;
    destruct (contains "pos" _); cbn [snd within]; try lra;
    destruct (contains "neu" _); cbn [snd within];
    repeat (cbn [fmul fsub fadd fneg]; fin_small); cbn [within]; try lra;
    destruct (contains "neg" _); cbn [snd within];
    repeat (cbn [fmul fsub fadd fneg]; fin_small); cbn [within]; lra.
Qed.

Lemma aggregate_score (res : list entry) (lo hi : Q) :
  0 <= lo -> hi <= 1 ->
  res <> [] -> (Z.of_nat (List.length res) <= maxsize)%Z ->
  Forall (fun r => within lo hi (snd (tally r))) res ->
  exists v,
    round (fmul (mean (map snd (map tally res))) (Fin 100)) 2 = Fin v /\
    risk_props.qround (lo * 100) 2 <= v /\ v <= risk_props.qround (hi * 100) 2.
Proof.
  intros Hlo Hhi Hne Hlen HF.
  assert (M : within lo hi (mean (map snd (map tally res)))).
  { apply mean_within; [exact Hlo | exact Hhi | | |].
    - destruct res; [contradiction | discriminate].
    - now rewrite !length_map.
    - rewrite map_map. apply Forall_map. exact HF. }
  destruct (mean _) as [m | |]; try contradiction. cbn [within] in M.
  cbn [fmul]. fin_small. rewrite risk_props.round_Fin.
  eexists. split; [reflexivity|].
  split; apply risk_props.qround2_mono; lra.
Qed.

(** X26: labels in which the loop finds none of "pos", "neu" and "neg",
    as LABEL_0, LABEL_1 and LABEL_2 of the default model are.  When every
    entry the pipeline returns has such a label, whatever the confidences
    are, also infinite or NaN, [aggregate_headlines_sentiment] returns the
    score 50.0, and its label is the label of one of the entries as the
    pipeline wrote it ("Neutral" for an entry without one).  The entries
    are a Python list, of [sys.maxsize] items at most, so that the sum of
    their scores is finite. *)
Theorem unmapped_labels_score_50
    (h : json) (hs : list json) (chunk : Z) (st : state) (res : list entry) :
  st = true \/ create_pipeline W = true ->
  run_batch W (slice_to (h :: hs) chunk) = Some res ->
  res <> [] -> (Z.of_nat (List.length res) <= maxsize)%Z ->
  forallb unmapped res = true ->
  exists most avg labels,
    aggregate_headlines_sentiment W (h :: hs) chunk st
    = (Ok (most, avg, CountLabels (List.length (slice_to (h :: hs) chunk)) labels),
       true) /\
    same avg (Fin 50) /\
    In most (map (label_or "Neutral") res).
Proof.
  intros Hp Hrun Hne Hlen Hu. rewrite aggregate_eq, Hrun.
  replace (st || create_pipeline W) with true
    by (destruct Hp as [-> | ->]; [reflexivity | now rewrite orb_true_r]).
  rewrite forallb_forall in Hu.
  assert (T : map tally res = map (fun r => (label_or "Neutral" r, Fin 0.5)) res).
  { apply map_ext_in. intros r Hr. apply tally_unmapped, Hu, Hr. }
  destruct (most_common1_in (map fst (map tally res))) as (most & -> & Hin).
  { destruct res; [contradiction | discriminate]. }
  destruct (aggregate_score res 0.5 0.5) as (v & Ev & L & U);
    [lra | lra | exact Hne | exact Hlen | |].
  { apply Forall_forall. intros r Hr. rewrite (tally_unmapped r (Hu r Hr)).
    cbn. lra. }
  exists most, (Fin v), (map fst (map tally res)).
  split; [now rewrite Ev|]. split.
  - cbn [same].
    assert (E : risk_props.qround (0.5 * 100) 2 == 50)
      by (vm_compute; reflexivity).
    lra.
  - rewrite T, map_map in Hin. exact Hin.
Qed.

(** X27: when every confidence the pipeline returns, in a Python list of
    [sys.maxsize] items at most, is a finite float between 0 and 1, the
    score of [aggregate_headlines_sentiment] is a finite float between 0
    and 100, although the function, unlike [analyze_text], clips
    nothing. *)
Theorem aggregate_is_a_percentage
    (hs : list json) (chunk : Z) (st st' : state)
    (most : string) (avg : pyfloat) (d : details) :
  (forall res, run_batch W (slice_to hs chunk) = Some res ->
               (Z.of_nat (List.length res) <= maxsize)%Z /\
               Forall confident res) ->
  aggregate_headlines_sentiment W hs chunk st = (Ok (most, avg, d), st') ->
  percent avg.
Proof.
  intros Hc.
  assert (D : forall s, (Ok neutral_triple, s) = (Ok (most, avg, d), st') ->
                        percent avg).
  { unfold neutral_triple. intros s H. inversion H. cbn. lra. }
  destruct hs as [|h hs]; [apply D|].
  rewrite aggregate_eq. destruct (st || create_pipeline W); [|discriminate].
  destruct (run_batch W _) as [res|] eqn:Hrun; [|apply D].
  destruct (Hc res eq_refl) as [Hlen Hconf].
  destruct res as [|r res]; [apply D|].
  destruct (most_common1 _); [|apply D].
  destruct (aggregate_score (r :: res) 0 1) as (v & Ev & L & U).
  - lra.
  - lra.
  - discriminate.
  - exact Hlen.
  - eapply Forall_impl; [|exact Hconf]. intros e. apply tally_within.
  - rewrite Ev. intros H. inversion H. subst avg. cbn [percent].
    assert (E0 : risk_props.qround (0 * 100) 2 == 0)
      by (vm_compute; reflexivity).
    assert (E1 : risk_props.qround (1 * 100) 2 == 100)
      by (vm_compute; reflexivity).
    lra.
Qed.

(** ** [_fetch_newsapi_headlines] and [get_sentiment_for_topic] *)

Lemma titles_truthy (items hl : list json) :
  titles items = Ok hl -> Forall (fun t => json_truthy t = true) hl.
Proof.
  revert hl. induction items as [|it items IH]; intros hl; cbn [titles].
  - intros [= <-]. constructor.
  - destruct it as [v | a | it]; try discriminate.
    destruct (obj_get it "title") as [t|]; [|apply IH].
    destruct (json_truthy t) eqn:Ht; [|apply IH].
    destruct (titles items) as [ts|e]; cbn [bind]; [|discriminate].
    intros [= <-]. constructor; [exact Ht | apply IH; reflexivity].
Qed.

Definition is_object (j : json) : bool :=
  match j with JObj _ => true | _ => false end.

Lemma titles_not_objects (items : list json) :
  forallb is_object items = false -> titles items = Raise AttributeError.
Proof.
  induction items as [|it items IH]; cbn [forallb titles]; [discriminate|].
  destruct it as [v | a | it]; cbn [is_object andb]; try reflexivity.
  intros H. rewrite (IH H).
  destruct (obj_get it "title") as [t|]; [|reflexivity].
  destruct (json_truthy t); reflexivity.
Qed.

(** [api_key or os.environ.get("NEWSAPI_KEY")] when it is truthy. *)
Definition key_of (api_key : option string) : option string :=
  match
    match api_key with
    | Some k => if String.eqb k EmptyString then environ W "NEWSAPI_KEY"
                else Some k
    | None => environ W "NEWSAPI_KEY"
    end
  with
  | Some k => if String.eqb k EmptyString then None else Some k
  | None => None
  end.

Lemma fetch_eq (query : string) (api_key : option string) (page_size : Z) :
  _fetch_newsapi_headlines W query api_key page_size =
  match key_of api_key with
  | None => []
  | Some k =>
      match (j <- called "requests" (get_json W query k page_size) ;;
             items <- articles_of j ;; titles items) with
      | Ok headlines => headlines
      | Raise _ => []
      end
  end.
Proof.
  unfold _fetch_newsapi_headlines, key_of.
  destruct (match api_key with Some _ => _ | None => _ end) as [k|];
    [|reflexivity].
  destruct (String.eqb k EmptyString); [reflexivity|].
  unfold try_except. destruct (bind _ _); reflexivity.
Qed.

(** X28: every headline [_fetch_newsapi_headlines] returns is a truthy
    title, whatever NewsAPI answered; and it sends no request without a
    key: when neither the argument nor the environment gives a non-empty
    key, the result is empty in every world. *)
Theorem headlines_are_truthy_titles
    (query : string) (api_key : option string) (page_size : Z) :
  Forall (fun t => json_truthy t = true)
         (_fetch_newsapi_headlines W query api_key page_size) /\
  (key_of api_key = None ->
   _fetch_newsapi_headlines W query api_key page_size = []).
Proof.
  rewrite fetch_eq. split.
  - destruct (key_of api_key) as [k|]; [|constructor].
    destruct (called "requests" (get_json W query k page_size)) as [j|e];
      cbn [bind]; [|constructor].
    destruct (articles_of j) as [items|e]; cbn [bind]; [|constructor].
    destruct (titles items) as [hl|e] eqn:E; [|constructor].
    apply (titles_truthy items hl E).
  - intros ->. reflexivity.
Qed.

(** X29: one article that is not an object discards every headline: when
    the answer of NewsAPI lists the articles and one of them is not an
    object, [_fetch_newsapi_headlines] returns the empty list, also when
    the other articles have titles. *)
Theorem one_bad_article_discards_all
    (query : string) (api_key : option string) (page_size : Z)
    (k : string) (d : list (string * json)) (items : list json) :
  key_of api_key = Some k ->
  get_json W query k page_size = Some (JObj d) ->
  obj_get d "articles" = Some (JArr items) ->
  forallb is_object items = false ->
  _fetch_newsapi_headlines W query api_key page_size = [].
Proof.
  intros Hk Hj Ha Hi. rewrite fetch_eq, Hk, Hj.
  cbn [called bind articles_of]. rewrite Ha. cbn [bind].
  now rewrite (titles_not_objects items Hi).
Qed.

(** X30: [get_sentiment_for_topic] returns the dictionary of
    [analyze_text], and not a tuple, exactly when no headline was fetched,
    [fallback_text] is truthy, and it is blank or the pipeline exists or
    can be created. *)
Theorem topic_returns_a_dictionary
    (topic : string) (newsapi_key : option string) (fallback_text : pyval)
    (st : state) :
  (exists d st',
     get_sentiment_for_topic W topic newsapi_key fallback_text st
     = (Ok (Dict d), st')) <->
  (_fetch_newsapi_headlines W topic newsapi_key 20 = [] /\
   truthy fallback_text = true /\
   (blank fallback_text = true \/ st = true \/ create_pipeline W = true)).
Proof.
  unfold get_sentiment_for_topic. cbv zeta.
  destruct (_fetch_newsapi_headlines W topic newsapi_key 20) as [|h hs].
  - destruct (truthy fallback_text) eqn:Ht.
    + unfold mbind, ret. rewrite analyze_text_eq, Ht. cbn [negb orb].
      destruct (blank fallback_text).
      * split; [intros _; auto | intros _; eauto].
      * destruct st; cbn [orb].
        -- split; [intros _; auto 6 | intros _; eauto].
        -- destruct (create_pipeline W).
           ++ split; [intros _; auto 6 | intros _; eauto].
           ++ split.
              ** intros (d & st' & [=]).
              ** intros (_ & _ & [C | [C | C]]); discriminate.
    + split.
      * intros (d & st' & [=]).
      * intros (_ & C & _). discriminate.
  - split.
    + intros (d & st' & H). unfold mbind, ret in H.
      destruct (aggregate_headlines_sentiment W (h :: hs) 8 st) as [[t|e] s];
        cbv beta iota in H; discriminate.
    + intros (C & _). discriminate.
Qed.

End Module_.

(** ** A world with a key, two answers of NewsAPI and the default model *)

Definition positive : entry :=
  {| e_label := Some "LABEL_2"; e_score := Some (Fin 0.9) |}.

Definition odd : entry :=
  {| e_label := Some "LABEL_7"; e_score := Some NaN |}.

Definition answer : json :=
  JObj [("status", JVal (VStr "ok"));
        ("articles",
         JArr [JObj [("title", JVal (VStr "Home prices rise"))];
               JObj [("title", JVal VNone)];
               JObj [("title", JVal (VStr "Rates fall"))]])].

Definition broken : json :=
  JObj [("articles",
         JArr [JObj [("title", JVal (VStr "Home prices rise"))];
               JVal VNone])].

Definition newsroom : world :=
  {| environ := fun name =>
       if String.eqb name "NEWSAPI_KEY" then Some "k" else None;
     get_json := fun query _ _ =>
       if String.eqb query "housing" then Some answer
       else if String.eqb query "broken" then Some broken
       else None;
     create_pipeline := true;
     run_text := fun t =>
       Some (OutList [if String.eqb t "odd" then odd else positive]);
     run_batch := fun sample => Some (map (fun _ => positive) sample) |}.

Definition two_headlines : list json :=
  [JVal (VStr "Home prices rise"); JVal (VStr "Rates fall")].

Lemma analyze_text_is_a_percentage_witness :
  match fst (analyze_text newsroom (VStr "odd") false) with
  | Ok r =>
      percent (score r) /\
      (sentiment r = "Positive" \/ sentiment r = "Neutral" \/
       sentiment r = "Negative")
  | Raise _ => False
  end.
Proof.
  destruct (analyze_text newsroom (VStr "odd") false) as [[r|e] s] eqn:E;
    cbn [fst].
  - apply (analyze_text_is_a_percentage newsroom (VStr "odd") false s r E).
  - vm_compute in E. discriminate E.
Defined.

Lemma model_labels_witness :
  exists r,
    analyze_text newsroom (VStr "good") false = (Ok r, true) /\
    sentiment r = "Positive" /\ same (score r) (round (Fin (0.9 * 100)) 2).
Proof.
  destruct (model_labels newsroom "good" "LABEL_2" 0.9 [] false)
    as (r & E & P & _).
  - reflexivity.
  - reflexivity.
  - right. reflexivity.
  - reflexivity.
  - lra.
  - lra.
  - exists r. split; [exact E | apply P; reflexivity].
Defined.

Lemma unmapped_labels_score_50_witness :
  exists most avg labels,
    aggregate_headlines_sentiment newsroom two_headlines 8 false
    = (Ok (most, avg, CountLabels 2 labels), true) /\
    same avg (Fin 50) /\
    In most ["LABEL_2"; "LABEL_2"].
Proof.
  apply (unmapped_labels_score_50 newsroom (JVal (VStr "Home prices rise"))
           [JVal (VStr "Rates fall")] 8 false [positive; positive]).
  - right. reflexivity.
  - reflexivity.
  - discriminate.
  - vm_compute. discriminate.
  - vm_compute. reflexivity.
Defined.

Lemma aggregate_is_a_percentage_witness :
  match fst (aggregate_headlines_sentiment newsroom two_headlines 8 false) with
  | Ok (_, avg, _) => percent avg
  | Raise _ => False
  end.
Proof.
  destruct (aggregate_headlines_sentiment newsroom two_headlines 8 false)
    as [[[[most avg] d]|e] s] eqn:E; cbn [fst].
  - apply (aggregate_is_a_percentage newsroom two_headlines 8 false s
             most avg d); [|exact E].
    intros res H. injection H as <-.
    split; [vm_compute; discriminate|].
    constructor; [|constructor; [|constructor]];
      (cbn; split; [discriminate | discriminate]).
  - vm_compute in E. discriminate E.
Defined.

Lemma one_bad_article_discards_all_witness :
  _fetch_newsapi_headlines newsroom "broken" None 20 = [].
Proof.
  apply (one_bad_article_discards_all newsroom "broken" None 20 "k"
           [("articles",
             JArr [JObj [("title", JVal (VStr "Home prices rise"))];
                   JVal VNone])]
           [JObj [("title", JVal (VStr "Home prices rise"))]; JVal VNone]).
  - reflexivity.
  - reflexivity.
  - reflexivity.
  - reflexivity.
Defined.

End sentiment_props.
